(** * The knowledge-base core of the Mystical House: storage, store actions,
      link bookkeeping, spaced repetition, search and snapshots.

    Sources embedded here:
    - [src/types/pkm.ts]           the data model and [SPACED_REPETITION];
    - [src/lib/pkmStorage.ts]      class [PKMStorage] over IndexedDB;
    - [src/game/engine/pkmStore.ts] the zustand store [usePKMStore];
    - [unnamed/part_002]           [handleReviewNote] of the notes overlay.

    Conventions.
    - A JavaScript [number] that takes part in scheduling arithmetic is an
      IEEE-754 binary64 value, modelled by [spec_float] with the operations of
      [SpecFloat] at precision 53 and maximal exponent 1024.  Counters that only
      ever see [+ 1], [- 1] and [Math.max(0, _)] on integers are in [Z].
    - A string is a sequence of code units; the model keeps code units below
      256 ([ascii]), on which white space and lower-casing are as in
      ECMAScript restricted to U+0000..U+00FF.
    - An object store of IndexedDB with [keyPath: 'id'] is a finite map from
      the key to the record ([gmap string _]).
    - [async] actions run to completion one after the other; an action is a
      function from the world (durable database and in-memory store) to an
      outcome and the world it leaves, so that what an action did before it
      threw stays done.
    - Values the environment chooses ([new Date()], [Date.now()],
      [Math.random()]) are arguments of the action that reads them. *)

From Stdlib Require Import ZArith Lia Bool.
From Stdlib Require Import Floats.SpecFloat.
From stdpp Require Import gmap strings list fin_maps sorting.

Local Open Scope Z_scope.

(** ** JavaScript numbers *)

Module Js.

Definition number : Type := spec_float.

Definition prec : Z := 53.
Definition emax : Z := 1024.

(** The double nearest to an integer ([ToNumber] of an integer literal). *)
Definition of_Z (z : Z) : number := binary_normalize prec emax z 0 false.

Definition mul : number -> number -> number := SFmul prec emax.
Definition add : number -> number -> number := SFadd prec emax.
Definition div : number -> number -> number := SFdiv prec emax.

(** [a <= b] of the language: false as soon as one side is NaN. *)
Definition leb : number -> number -> bool := SFleb.

(** [Math.max(a, b)]: NaN if either is NaN; [+0] is larger than [-0]. *)
Definition Math_max (a b : number) : number :=
  match SFcompare a b with
  | None => S754_nan
  | Some Lt => b
  | Some Gt => a
  | Some Eq => match a with S754_zero true => b | _ => a end
  end.

(** [Math.min(a, b)]: NaN if either is NaN; [-0] is smaller than [+0]. *)
Definition Math_min (a b : number) : number :=
  match SFcompare a b with
  | None => S754_nan
  | Some Lt => a
  | Some Gt => b
  | Some Eq => match a with S754_zero false => b | _ => a end
  end.

(** The integer part towards minus infinity of a finite value [±m·2^e]. *)
Definition floorZ (s : bool) (m : positive) (e : Z) : Z :=
  if 0 <=? e then cond_Zopp s (Z.pos m) * 2 ^ e
  else Z.shiftr (cond_Zopp s (Z.pos m)) (- e).

(** [Math.floor(x)]: NaN, the infinities and the zeros are returned as they
    are; a value in (0,1) gives [+0]. *)
Definition Math_floor (x : number) : number :=
  match x with
  | S754_finite s m e =>
      if 0 <=? e then x
      else let z := floorZ s m e in
           if z =? 0 then S754_zero s else of_Z z
  | _ => x
  end.

(** [ToIntegerOrInfinity] on a finite value: truncation towards zero. *)
Definition truncZ (s : bool) (m : positive) (e : Z) : Z :=
  cond_Zopp s (if 0 <=? e then Z.pos m * 2 ^ e else Z.shiftr (Z.pos m) (- e)).

(** [TimeClip]: the time value of [new Date(v)], if it is a valid one. *)
Definition timeClip (v : number) : option Z :=
  match v with
  | S754_zero _ => Some 0
  | S754_finite s m e =>
      let t := truncZ s m e in
      if Z.abs t <=? 8640000000000000 then Some t else None
  | _ => None
  end.

End Js.

(** What a field declared [Date] can hold at run time: a [Date] with a valid
    time value (milliseconds since the epoch), an invalid [Date], and, once a
    record has been through [JSON.stringify] and [JSON.parse], the ISO-8601
    string of a valid date or [null] for an invalid one.  [DateNull] is also
    the [null] of [lastReviewed: Date | null]. *)
Inductive JsDate : Type :=
  | DateObj (t : Z)
  | DateInvalid
  | DateIso (t : Z)
  | DateNull.

(** [new Date(v)] for a number [v]. *)
Definition newDate (v : Js.number) : JsDate :=
  match Js.timeClip v with
  | Some t => DateObj t
  | None => DateInvalid
  end.

(** [JSON.parse(JSON.stringify(d))]: [Date.prototype.toJSON] writes a valid
    date as its ISO string and an invalid one as [null]; neither is read back
    as a [Date]. *)
Definition jsonDate (d : JsDate) : JsDate :=
  match d with
  | DateObj t => DateIso t
  | DateInvalid => DateNull
  | DateIso t => DateIso t
  | DateNull => DateNull
  end.

(** ** JavaScript strings *)

Module JsString.

Definition code (c : Ascii.ascii) : N := Ascii.N_of_ascii c.

(** White space and line terminators of ECMAScript below U+0100:
    TAB, LF, VT, FF, CR, SPACE and NO-BREAK SPACE. *)
Definition is_whitespace (c : Ascii.ascii) : bool :=
  let n := code c in
  ((9 <=? n) && (n <=? 13) || (n =? 32) || (n =? 160))%N.

Definition is_space (c : Ascii.ascii) : bool := (code c =? 32)%N.

(** [toLowerCase] on one code unit below U+0100: A..Z and the Latin-1
    capitals U+00C0..U+00DE except the multiplication sign U+00D7. *)
Definition lower_char (c : Ascii.ascii) : Ascii.ascii :=
  let n := code c in
  if ((65 <=? n) && (n <=? 90) || (192 <=? n) && (n <=? 222) && negb (n =? 215))%N
  then Ascii.ascii_of_N (n + 32) else c.

Fixpoint toLowerCase (s : string) : string :=
  match s with
  | EmptyString => EmptyString
  | String c s' => String (lower_char c) (toLowerCase s')
  end.

(** The first piece of a split grows by one character. *)
Definition cons_head (c : Ascii.ascii) (l : list string) : list string :=
  match l with
  | [] => [String c EmptyString]
  | w :: ws => String c w :: ws
  end.

(** [s.split(' ')]: the pieces between single SPACE characters. *)
Fixpoint split_space (s : string) : list string :=
  match s with
  | EmptyString => [EmptyString]
  | String c s' =>
      if is_space c then EmptyString :: split_space s'
      else cons_head c (split_space s')
  end.

Definition starts_with_whitespace (s : string) : bool :=
  match s with
  | EmptyString => false
  | String c _ => is_whitespace c
  end.

(** [s.split(/\s+/)]: the pieces between maximal runs of white space. *)
Fixpoint split_whitespace (s : string) : list string :=
  match s with
  | EmptyString => [EmptyString]
  | String c s' =>
      if is_whitespace c then
        if starts_with_whitespace s' then split_whitespace s'
        else EmptyString :: split_whitespace s'
      else cons_head c (split_whitespace s')
  end.

Definition nonempty (s : string) : bool := (0 <? String.length s)%nat.

Fixpoint trimStart (s : string) : string :=
  match s with
  | EmptyString => EmptyString
  | String c s' => if is_whitespace c then trimStart s' else s
  end.

Fixpoint trimEnd (s : string) : string :=
  match s with
  | EmptyString => EmptyString
  | String c s' =>
      match trimEnd s' with
      | EmptyString => if is_whitespace c then EmptyString else String c EmptyString
      | t => String c t
      end
  end.

Definition trim (s : string) : string := trimEnd (trimStart s).

(** Truthiness of a string: the empty string alone is falsy. *)
Definition truthy (s : string) : bool := nonempty s.

Fixpoint starts_with (p s : string) : bool :=
  match p, s with
  | EmptyString, _ => true
  | String _ _, EmptyString => false
  | String a p', String b s' => if Ascii.eqb a b then starts_with p' s' else false
  end.

(** [s.includes(t)]. *)
Fixpoint includes (s t : string) : bool :=
  starts_with t s ||
  match s with
  | EmptyString => false
  | String _ s' => includes s' t
  end.

(** [l.join(' ')]. *)
Fixpoint join_space (l : list string) : string :=
  match l with
  | [] => EmptyString
  | [w] => w
  | w :: ws => w +:+ " " +:+ join_space ws
  end.

End JsString.

(** ** The data model ([src/types/pkm.ts]) *)

Inductive KnowledgeDomain : Type :=
  | philosophy | science | technology | art | history | personal | projects | learning.

#[global] Instance KnowledgeDomain_eq_dec : EqDecision KnowledgeDomain.
Proof. solve_decision. Defined.

Inductive NoteType : Type :=
  | concept | fact | question | insight | task | reference | journal.

Inductive LinkType : Type :=
  | related | prerequisite | follows | contradicts | expands | references.

(** ['new' | 'learning' | 'reviewing' | 'mastered'] *)
Inductive ReviewStatus : Type :=
  | st_new | st_learning | st_reviewing | st_mastered.

#[global] Instance ReviewStatus_eq_dec : EqDecision ReviewStatus.
Proof. solve_decision. Defined.

(** The grade given to [reviewNote]: ['again' | 'hard' | 'good' | 'easy']. *)
Inductive Quality : Type :=
  | again | hard | good | easy.

Module ReviewData.
Record t : Type := mk {
  status : ReviewStatus;
  easeFactor : Js.number;
  interval : Js.number;
  nextReview : JsDate;
  reviewCount : Z;
  lastReviewed : JsDate;
  correctStreak : Z;
  totalReviews : Z
}.
End ReviewData.

Module NoteMetadata.
Record t : Type := mk {
  wordCount : Z;
  readingTime : Z;
  links : list string;
  backlinks : list string;
  attachments : list string;
  importance : Z
}.
End NoteMetadata.

Module Position.
Record t : Type := mk { x : Js.number; y : Js.number; room : string }.
End Position.

Module Note.
Record t : Type := mk {
  id : string;
  title : string;
  content : string;
  type : NoteType;
  domain : KnowledgeDomain;
  tags : list string;
  createdAt : JsDate;
  updatedAt : JsDate;
  position : Position.t;
  isCollected : bool;
  reviewData : ReviewData.t;
  metadata : NoteMetadata.t
}.
End Note.

(** [Partial<Note>]: every property may be missing. *)
Module PartialNote.
Record t : Type := mk {
  id : option string;
  title : option string;
  content : option string;
  type : option NoteType;
  domain : option KnowledgeDomain;
  tags : option (list string);
  createdAt : option JsDate;
  updatedAt : option JsDate;
  position : option Position.t;
  isCollected : option bool;
  reviewData : option ReviewData.t;
  metadata : option NoteMetadata.t
}.

(** The object literal [{}]. *)
Definition empty : t :=
  mk None None None None None None None None None None None None.
End PartialNote.

Module NoteLink.
Record t : Type := mk {
  id : string;
  sourceId : string;
  targetId : string;
  type : LinkType;
  strength : Z;
  createdAt : JsDate;
  context : option string
}.
End NoteLink.

Module Tag.
Record t : Type := mk {
  id : string;
  name : string;
  color : string;
  description : option string;
  noteCount : Z;
  createdAt : JsDate
}.
End Tag.

Module PartialTag.
Record t : Type := mk {
  id : option string;
  name : option string;
  color : option string;
  description : option string;
  noteCount : option Z;
  createdAt : option JsDate
}.
End PartialTag.

Inductive QuestDifficulty : Type := q_easy | q_medium | q_hard | q_epic.

Module QuestReward.
Record t : Type := mk {
  wisdomPoints : Z;
  unlocksRoom : option string;
  unlocksFeature : option string;
  specialEffect : option string
}.
End QuestReward.

Module KnowledgeQuest.
Record t : Type := mk {
  id : string;
  title : string;
  description : string;
  objective : string;
  domain : KnowledgeDomain;
  requiredNotes : list string;
  reward : QuestReward.t;
  difficulty : QuestDifficulty;
  isCompleted : bool;
  progress : Z;
  createdAt : JsDate;
  completedAt : option JsDate
}.
End KnowledgeQuest.

Inductive Atmosphere : Type :=
  | atm_mystical | atm_scholarly | atm_creative | atm_technical | atm_contemplative.

Module RoomColorScheme.
Record t : Type := mk {
  primary : string;
  secondary : string;
  accent : string;
  background : string;
  atmosphere : Atmosphere
}.
End RoomColorScheme.

Inductive VisualType : Type := scroll | book | crystal | artifact | floating.

Module NotePosition.
Record t : Type := mk {
  noteId : string;
  x : Js.number;
  y : Js.number;
  collected : bool;
  visualType : VisualType
}.
End NotePosition.

Inductive FurnitureType : Type := bookshelf | desk | cabinet | chest | altar | portal.
Inductive InteractionType : Type := i_open | i_read | i_search | i_meditate.

Module Furniture.
Record t : Type := mk {
  id : string;
  type : FurnitureType;
  position : Js.number * Js.number;  (* { x, y } *)
  size : Js.number * Js.number;  (* { width, height } *)
  contains : list string;
  isInteractable : bool;
  interactionType : InteractionType
}.
End Furniture.

Module Room.
Record t : Type := mk {
  id : string;
  name : string;
  domain : KnowledgeDomain;
  description : string;
  position : Js.number * Js.number;  (* { x, y } *)
  size : Js.number * Js.number;  (* { width, height } *)
  colorScheme : RoomColorScheme.t;
  isUnlocked : bool;
  unlockRequirement : option string;
  notePositions : list NotePosition.t;
  furniture : list Furniture.t
}.
End Room.

Inductive ActivityType : Type :=
  | note_created | note_reviewed | quest_completed | link_created.

#[global] Instance ActivityType_eq_dec : EqDecision ActivityType.
Proof. solve_decision. Defined.

Module ActivityItem.
Record t : Type := mk {
  id : string;
  type : ActivityType;
  timestamp : JsDate;
  description : string;
  points : option Z
}.
End ActivityItem.

Module PKMStats.
Record t : Type := mk {
  totalNotes : Z;
  collectedNotes : Z;
  totalLinks : Z;
  reviewStreak : Z;
  wisdomPoints : Z;
  completedQuests : Z;
  averageReviewAccuracy : Js.number;
  mostProductiveDomain : KnowledgeDomain;
  recentActivity : list ActivityItem.t
}.
End PKMStats.

Module PartialStats.
Record t : Type := mk {
  totalNotes : option Z;
  collectedNotes : option Z;
  totalLinks : option Z;
  reviewStreak : option Z;
  wisdomPoints : option Z;
  completedQuests : option Z;
  averageReviewAccuracy : option Js.number;
  mostProductiveDomain : option KnowledgeDomain;
  recentActivity : option (list ActivityItem.t)
}.
End PartialStats.

Inductive Theme : Type := retro_snes | mystical | scholarly.

Module PKMSettings.
Record t : Type := mk {
  autoSave : bool;
  defaultDomain : KnowledgeDomain;
  reviewReminders : bool;
  dailyReviewGoal : Z;
  theme : Theme;
  soundEffects : bool;
  showBacklinks : bool;
  autoLinkSimilar : bool
}.
End PKMSettings.

Module PartialSettings.
Record t : Type := mk {
  autoSave : option bool;
  defaultDomain : option KnowledgeDomain;
  reviewReminders : option bool;
  dailyReviewGoal : option Z;
  theme : option Theme;
  soundEffects : option bool;
  showBacklinks : option bool;
  autoLinkSimilar : option bool
}.
End PartialSettings.

(** [SPACED_REPETITION].  A decimal literal denotes the double nearest to it,
    which is what a correctly rounded division of its numerator by its
    denominator returns. *)
Module SPACED_REPETITION.
Definition INITIAL_EASE : Js.number := Eval vm_compute in Js.div (Js.of_Z 25) (Js.of_Z 10).
Definition MIN_EASE : Js.number := Eval vm_compute in Js.div (Js.of_Z 13) (Js.of_Z 10).
Definition MAX_EASE : Js.number := Eval vm_compute in Js.of_Z 3.
Definition EASY_MULTIPLIER : Js.number := Eval vm_compute in Js.div (Js.of_Z 13) (Js.of_Z 10).
Definition GOOD_MULTIPLIER : Js.number := Eval vm_compute in Js.of_Z 1.
Definition HARD_MULTIPLIER : Js.number := Eval vm_compute in Js.div (Js.of_Z 8) (Js.of_Z 10).
Definition AGAIN_MULTIPLIER : Js.number := Eval vm_compute in Js.div (Js.of_Z 5) (Js.of_Z 10).
Definition INITIAL_INTERVAL : Js.number := Eval vm_compute in Js.of_Z 1.
Definition GRADUATING_INTERVAL : Js.number := Eval vm_compute in Js.of_Z 4.
End SPACED_REPETITION.

(** ** The world: the IndexedDB database and the zustand store *)

(** The database [MysticalHousePKM]: five object stores keyed by [id] and two
    stores that hold one record under the key ['main']. *)
Module DB.
Record t : Type := mk {
  notes : gmap string Note.t;
  links : gmap string NoteLink.t;
  tags : gmap string Tag.t;
  quests : gmap string KnowledgeQuest.t;
  rooms : gmap string Room.t;
  stats : option PKMStats.t;
  settings : option PKMSettings.t
}.

Definition empty : t := mk ∅ ∅ ∅ ∅ ∅ None None.

Definition set_notes (f : gmap string Note.t -> gmap string Note.t) (d : t) : t :=
  mk (f (notes d)) (links d) (tags d) (quests d) (rooms d) (stats d) (settings d).
Definition set_links (f : gmap string NoteLink.t -> gmap string NoteLink.t) (d : t) : t :=
  mk (notes d) (f (links d)) (tags d) (quests d) (rooms d) (stats d) (settings d).
Definition set_tags (f : gmap string Tag.t -> gmap string Tag.t) (d : t) : t :=
  mk (notes d) (links d) (f (tags d)) (quests d) (rooms d) (stats d) (settings d).
Definition set_quests
    (f : gmap string KnowledgeQuest.t -> gmap string KnowledgeQuest.t) (d : t) : t :=
  mk (notes d) (links d) (tags d) (f (quests d)) (rooms d) (stats d) (settings d).
Definition set_rooms (f : gmap string Room.t -> gmap string Room.t) (d : t) : t :=
  mk (notes d) (links d) (tags d) (quests d) (f (rooms d)) (stats d) (settings d).
Definition set_stats (v : option PKMStats.t) (d : t) : t :=
  mk (notes d) (links d) (tags d) (quests d) (rooms d) v (settings d).
Definition set_settings (v : option PKMSettings.t) (d : t) : t :=
  mk (notes d) (links d) (tags d) (quests d) (rooms d) (stats d) v.
End DB.

(** The state of [usePKMStore].  [stats] and [settings] are declared
    [... | null], but nothing ever stores [null] there (the initial state,
    [initializePKM] and the two update actions all write an object), so the
    model keeps the object. *)
Module PKMStore.
Record t : Type := mk {
  notes : list Note.t;
  links : list NoteLink.t;
  tags : list Tag.t;
  quests : list KnowledgeQuest.t;
  rooms : list Room.t;
  stats : PKMStats.t;
  settings : PKMSettings.t;
  currentRoom : option string;
  selectedNote : option Note.t;
  searchQuery : string;
  searchResults : list Note.t;
  isNotesOverlayOpen : bool;
  isCreatingNote : bool;
  isReviewMode : bool
}.

Definition set_notes (f : list Note.t -> list Note.t) (s : t) : t :=
  mk (f (notes s)) (links s) (tags s) (quests s) (rooms s) (stats s) (settings s)
     (currentRoom s) (selectedNote s) (searchQuery s) (searchResults s)
     (isNotesOverlayOpen s) (isCreatingNote s) (isReviewMode s).
Definition set_links (f : list NoteLink.t -> list NoteLink.t) (s : t) : t :=
  mk (notes s) (f (links s)) (tags s) (quests s) (rooms s) (stats s) (settings s)
     (currentRoom s) (selectedNote s) (searchQuery s) (searchResults s)
     (isNotesOverlayOpen s) (isCreatingNote s) (isReviewMode s).
Definition set_tags (f : list Tag.t -> list Tag.t) (s : t) : t :=
  mk (notes s) (links s) (f (tags s)) (quests s) (rooms s) (stats s) (settings s)
     (currentRoom s) (selectedNote s) (searchQuery s) (searchResults s)
     (isNotesOverlayOpen s) (isCreatingNote s) (isReviewMode s).
Definition set_stats (v : PKMStats.t) (s : t) : t :=
  mk (notes s) (links s) (tags s) (quests s) (rooms s) v (settings s)
     (currentRoom s) (selectedNote s) (searchQuery s) (searchResults s)
     (isNotesOverlayOpen s) (isCreatingNote s) (isReviewMode s).
Definition set_search (q : string) (r : list Note.t) (s : t) : t :=
  mk (notes s) (links s) (tags s) (quests s) (rooms s) (stats s) (settings s)
     (currentRoom s) (selectedNote s) q r
     (isNotesOverlayOpen s) (isCreatingNote s) (isReviewMode s).
Definition set_settings (v : PKMSettings.t) (s : t) : t :=
  mk (notes s) (links s) (tags s) (quests s) (rooms s) (stats s) v
     (currentRoom s) (selectedNote s) (searchQuery s) (searchResults s)
     (isNotesOverlayOpen s) (isCreatingNote s) (isReviewMode s).
Definition set_currentRoom (v : option string) (s : t) : t :=
  mk (notes s) (links s) (tags s) (quests s) (rooms s) (stats s) (settings s)
     v (selectedNote s) (searchQuery s) (searchResults s)
     (isNotesOverlayOpen s) (isCreatingNote s) (isReviewMode s).
Definition set_selectedNote (v : option Note.t) (s : t) : t :=
  mk (notes s) (links s) (tags s) (quests s) (rooms s) (stats s) (settings s)
     (currentRoom s) v (searchQuery s) (searchResults s)
     (isNotesOverlayOpen s) (isCreatingNote s) (isReviewMode s).
Definition set_isNotesOverlayOpen (v : bool) (s : t) : t :=
  mk (notes s) (links s) (tags s) (quests s) (rooms s) (stats s) (settings s)
     (currentRoom s) (selectedNote s) (searchQuery s) (searchResults s)
     v (isCreatingNote s) (isReviewMode s).
Definition set_isCreatingNote (v : bool) (s : t) : t :=
  mk (notes s) (links s) (tags s) (quests s) (rooms s) (stats s) (settings s)
     (currentRoom s) (selectedNote s) (searchQuery s) (searchResults s)
     (isNotesOverlayOpen s) v (isReviewMode s).
Definition set_isReviewMode (v : bool) (s : t) : t :=
  mk (notes s) (links s) (tags s) (quests s) (rooms s) (stats s) (settings s)
     (currentRoom s) (selectedNote s) (searchQuery s) (searchResults s)
     (isNotesOverlayOpen s) (isCreatingNote s) v.
End PKMStore.

Module World.
Record t : Type := mk {
  opened : bool;          (* [pkmStorage.db] is not [null] *)
  idb : DB.t;             (* what the database holds *)
  store : PKMStore.t      (* the state of [usePKMStore] *)
}.
End World.

Inductive JsError : Type :=
  | NotInitialized          (* 'Database not initialized. Call init() first.' *)
  | ConstraintError.        (* [add] of a key the object store already has *)

Inductive Outcome (A : Type) : Type :=
  | Returned (a : A)
  | Thrown (e : JsError).
Arguments Returned {A} a.
Arguments Thrown {A} e.

(** An [async] function: it runs on a world and leaves a world, with a value
    or an exception. *)
Definition Action (A : Type) : Type := World.t -> Outcome A * World.t.

Definition ret {A} (a : A) : Action A := fun w => (Returned a, w).
Definition throw {A} (e : JsError) : Action A := fun w => (Thrown e, w).
Definition bind {A B} (m : Action A) (k : A -> Action B) : Action B :=
  fun w => match m w with
           | (Returned a, w') => k a w'
           | (Thrown e, w') => (Thrown e, w')
           end.

Declare Scope action_scope.
Delimit Scope action_scope with action.
Notation "'let!' x ':=' m 'in' k" := (bind m (fun x => k))
  (at level 10, x pattern, m at level 200, k at level 200, only parsing) : action_scope.
Local Open Scope action_scope.

(** [get()] and [set(state => f state)] of zustand. *)
Definition get : Action PKMStore.t := fun w => (Returned (World.store w), w).
Definition set (f : PKMStore.t -> PKMStore.t) : Action unit :=
  fun w => (Returned tt, World.mk (World.opened w) (World.idb w) (f (World.store w))).

(** The world an action leaves, whether it returned or threw. *)
Definition exec {A} (m : Action A) (w : World.t) : World.t := snd (m w).

(** ** [PKMStorage] ([src/lib/pkmStorage.ts]) *)

Module PKMStorage.

(** [ensureDB()] *)
Definition ensureDB : Action DB.t :=
  fun w => if World.opened w then (Returned (World.idb w), w)
           else (Thrown NotInitialized, w).

Definition write (f : DB.t -> DB.t) : Action unit :=
  fun w => (Returned tt, World.mk (World.opened w) (f (World.idb w)) (World.store w)).

(** A [readwrite] transaction: a request that fails aborts it, and what it
    had written is rolled back. *)
Definition transaction {A} (m : Action A) : Action A :=
  fun w => match m w with
           | (Returned a, w') => (Returned a, w')
           | (Thrown e, w') =>
               (Thrown e, World.mk (World.opened w') (World.idb w) (World.store w'))
           end.

(** [IDBObjectStore.getAll()]: the records in ascending order of their key;
    keys are strings, ordered code unit by code unit. *)
Definition key_le {V} (a b : string * V) : Prop := String.leb (fst a) (fst b) = true.
#[global] Instance key_le_dec {V} (a b : string * V) : Decision (key_le a b).
Proof. unfold key_le. apply _. Defined.
Definition getAll {V} (m : gmap string V) : list V :=
  (merge_sort key_le (map_to_list m)).*2.

(** [IDBObjectStore.add(v)] under the key [k]. *)
Definition add {V} (k : string) (v : V) (m : gmap string V) : Outcome (gmap string V) :=
  match m !! k with
  | Some _ => Thrown ConstraintError
  | None => Returned (<[k := v]> m)
  end.

Definition createNote (note : Note.t) : Action unit :=
  let! db := ensureDB in
  transaction (
    match add (Note.id note) note (DB.notes db) with
    | Returned m => write (DB.set_notes (fun _ => m))
    | Thrown e => throw e
    end).

Definition getNote (id : string) : Action (option Note.t) :=
  let! db := ensureDB in
  ret (DB.notes db !! id).

Definition updateNote (note : Note.t) : Action unit :=
  let! _ := ensureDB in
  write (DB.set_notes (insert (Note.id note) note)).

(** The loop [for (const link of l) linksStore.delete(link.id)]. *)
Definition deleteEach (l : list NoteLink.t) (m : gmap string NoteLink.t)
  : gmap string NoteLink.t :=
  foldl (fun acc link => delete (NoteLink.id link) acc) m l.

Definition deleteNote (id : string) : Action unit :=
  let! _ := ensureDB in
  transaction (
    let! _ := write (DB.set_notes (delete id)) in
    let! _ := write (DB.set_links (fun links =>
      let sourceLinks := filter (fun l => NoteLink.sourceId l = id) (getAll links) in
      deleteEach sourceLinks links)) in
    write (DB.set_links (fun links =>
      let targetLinks := filter (fun l => NoteLink.targetId l = id) (getAll links) in
      deleteEach targetLinks links))).

Definition getAllNotes : Action (list Note.t) :=
  let! db := ensureDB in ret (getAll (DB.notes db)).

(** [getNotesByDomain(domain)]: [index.getAll(domain)] on the index
    [domain], the notes of that domain in ascending order of their id. *)
Definition getNotesByDomain (domain : KnowledgeDomain) : Action (list Note.t) :=
  let! db := ensureDB in
  ret (filter (fun note => Note.domain note = domain) (getAll (DB.notes db))).

(** The index [nextReview] has the key path [reviewData.nextReview].  A
    record whose value there is not a valid key ([null], an invalid [Date])
    has no entry in the index; a [Date] is keyed by its time value and a
    string by itself, and every [Date] key is below every string key.
    [reviewTime] is the time value of a [Date] key. *)
Definition reviewTime (note : Note.t) : option Z :=
  match ReviewData.nextReview (Note.reviewData note) with
  | DateObj t => Some t
  | _ => None
  end.

(** The entries within [IDBKeyRange.upperBound(new Date(now))]. *)
Definition inUpperBound (now : Z) (note : Note.t) : bool :=
  match reviewTime note with
  | Some t => t <=? now
  | None => false
  end.

(** The order of the entries of the index: by key, then by primary key. *)
Definition review_le (a b : Note.t) : Prop :=
  default 0 (reviewTime a) < default 0 (reviewTime b) \/
  (default 0 (reviewTime a) = default 0 (reviewTime b) /\
   String.leb (Note.id a) (Note.id b) = true).
#[global] Instance review_le_dec (a b : Note.t) : Decision (review_le a b).
Proof. unfold review_le. apply _. Defined.

(** [getNotesDueForReview()]; [now] is the time of [new Date()]. *)
Definition getNotesDueForReview (now : Z) : Action (list Note.t) :=
  let! db := ensureDB in
  let notes :=
    merge_sort review_le
      (filter (fun note => inUpperBound now note = true) (getAll (DB.notes db))) in
  ret (filter (fun note => ReviewData.status (Note.reviewData note) <> st_mastered) notes).

Definition createLink (link : NoteLink.t) : Action unit :=
  let! db := ensureDB in
  transaction (
    match add (NoteLink.id link) link (DB.links db) with
    | Returned m => write (DB.set_links (fun _ => m))
    | Thrown e => throw e
    end).

(** [getLinksForNote(noteId)]: [[...sourceLinks, ...targetLinks]] *)
Definition getLinksForNote (noteId : string) : Action (list NoteLink.t) :=
  let! db := ensureDB in
  let sourceLinks := filter (fun l => NoteLink.sourceId l = noteId) (getAll (DB.links db)) in
  let targetLinks := filter (fun l => NoteLink.targetId l = noteId) (getAll (DB.links db)) in
  ret (sourceLinks ++ targetLinks).

Definition deleteLink (id : string) : Action unit :=
  let! _ := ensureDB in
  write (DB.set_links (delete id)).

Definition getAllLinks : Action (list NoteLink.t) :=
  let! db := ensureDB in ret (getAll (DB.links db)).

Definition createTag (tag : Tag.t) : Action unit :=
  let! db := ensureDB in
  transaction (
    match add (Tag.id tag) tag (DB.tags db) with
    | Returned m => write (DB.set_tags (fun _ => m))
    | Thrown e => throw e
    end).

Definition getAllTags : Action (list Tag.t) :=
  let! db := ensureDB in ret (getAll (DB.tags db)).

Definition updateTag (tag : Tag.t) : Action unit :=
  let! _ := ensureDB in
  write (DB.set_tags (insert (Tag.id tag) tag)).

Definition getAllQuests : Action (list KnowledgeQuest.t) :=
  let! db := ensureDB in ret (getAll (DB.quests db)).

Definition createQuest (quest : KnowledgeQuest.t) : Action unit :=
  let! db := ensureDB in
  transaction (
    match add (KnowledgeQuest.id quest) quest (DB.quests db) with
    | Returned m => write (DB.set_quests (fun _ => m))
    | Thrown e => throw e
    end).

Definition updateQuest (quest : KnowledgeQuest.t) : Action unit :=
  let! _ := ensureDB in
  write (DB.set_quests (insert (KnowledgeQuest.id quest) quest)).

Definition getAllRooms : Action (list Room.t) :=
  let! db := ensureDB in ret (getAll (DB.rooms db)).


Definition updateRoom (room : Room.t) : Action unit :=
  let! _ := ensureDB in
  write (DB.set_rooms (insert (Room.id room) room)).

Definition getStats : Action (option PKMStats.t) :=
  let! db := ensureDB in ret (DB.stats db).

Definition updateStats (stats : PKMStats.t) : Action unit :=
  let! _ := ensureDB in
  write (DB.set_stats (Some stats)).

Definition getSettings : Action (option PKMSettings.t) :=
  let! db := ensureDB in ret (DB.settings db).

Definition updateSettings (settings : PKMSettings.t) : Action unit :=
  let! _ := ensureDB in
  write (DB.set_settings (Some settings)).

(** [searchNotes(query)] *)
Definition searchTerms (query : string) : list string :=
  filter (fun term => JsString.nonempty term = true)
         (JsString.split_space (JsString.toLowerCase query)).

Definition searchableText (note : Note.t) : string :=
  JsString.toLowerCase
    (Note.title note +:+ " " +:+ Note.content note +:+ " " +:+
     JsString.join_space (Note.tags note)).

Definition matches (terms : list string) (note : Note.t) : bool :=
  forallb (fun term => JsString.includes (searchableText note) term) terms.

Definition searchNotes (query : string) : Action (list Note.t) :=
  let! allNotes := getAllNotes in
  ret (filter (fun note => matches (searchTerms query) note = true) allNotes).

(** [clearAllData()] *)
Definition clearAllData : Action unit :=
  let! _ := ensureDB in
  write (fun _ => DB.empty).

(** [close()] *)
Definition close : Action unit :=
  fun w => (Returned tt, World.mk false (World.idb w) (World.store w)).

End PKMStorage.

(** ** Snapshots: what [JSON.stringify] and [JSON.parse] do to the records *)

(** The document [exportData] writes and [importData] reads.  A property
    that is missing from a document read by [importData] is [None]. *)
Module Snapshot.
Record t : Type := mk {
  version : string;
  timestamp : JsDate;
  notes : option (list Note.t);
  links : option (list NoteLink.t);
  tags : option (list Tag.t);
  quests : option (list KnowledgeQuest.t);
  rooms : option (list Room.t);
  stats : option PKMStats.t;
  settings : option PKMSettings.t
}.
End Snapshot.

(** [JSON.parse(JSON.stringify(v))], type by type.  Strings, booleans,
    integers, arrays and [null] come back as they were; a property whose
    value is [undefined] is left out, which reads as [undefined] again; a
    [Date] comes back as [jsonDate] says.  A finite number is printed in a
    form that reads back as the same double, and [-0] is printed as [0].
    NaN and the infinities are printed as [null]: a number field holding one
    of them is outside this model, which returns it unchanged. *)
Module Json.

Definition number (v : Js.number) : Js.number :=
  match v with
  | S754_zero _ => S754_zero false
  | _ => v
  end.

Definition reviewData (r : ReviewData.t) : ReviewData.t :=
  ReviewData.mk (ReviewData.status r) (number (ReviewData.easeFactor r))
    (number (ReviewData.interval r)) (jsonDate (ReviewData.nextReview r))
    (ReviewData.reviewCount r) (jsonDate (ReviewData.lastReviewed r))
    (ReviewData.correctStreak r) (ReviewData.totalReviews r).

Definition position (p : Position.t) : Position.t :=
  Position.mk (number (Position.x p)) (number (Position.y p)) (Position.room p).

Definition note (n : Note.t) : Note.t :=
  Note.mk (Note.id n) (Note.title n) (Note.content n) (Note.type n) (Note.domain n)
    (Note.tags n) (jsonDate (Note.createdAt n)) (jsonDate (Note.updatedAt n))
    (position (Note.position n)) (Note.isCollected n)
    (reviewData (Note.reviewData n)) (Note.metadata n).

Definition link (l : NoteLink.t) : NoteLink.t :=
  NoteLink.mk (NoteLink.id l) (NoteLink.sourceId l) (NoteLink.targetId l)
    (NoteLink.type l) (NoteLink.strength l) (jsonDate (NoteLink.createdAt l))
    (NoteLink.context l).

Definition tag (t : Tag.t) : Tag.t :=
  Tag.mk (Tag.id t) (Tag.name t) (Tag.color t) (Tag.description t)
    (Tag.noteCount t) (jsonDate (Tag.createdAt t)).

Definition quest (q : KnowledgeQuest.t) : KnowledgeQuest.t :=
  KnowledgeQuest.mk (KnowledgeQuest.id q) (KnowledgeQuest.title q)
    (KnowledgeQuest.description q) (KnowledgeQuest.objective q)
    (KnowledgeQuest.domain q) (KnowledgeQuest.requiredNotes q)
    (KnowledgeQuest.reward q) (KnowledgeQuest.difficulty q)
    (KnowledgeQuest.isCompleted q) (KnowledgeQuest.progress q)
    (jsonDate (KnowledgeQuest.createdAt q))
    (option_map jsonDate (KnowledgeQuest.completedAt q)).

Definition pair (p : Js.number * Js.number) : Js.number * Js.number :=
  (number (fst p), number (snd p)).

Definition notePosition (p : NotePosition.t) : NotePosition.t :=
  NotePosition.mk (NotePosition.noteId p) (number (NotePosition.x p))
    (number (NotePosition.y p)) (NotePosition.collected p) (NotePosition.visualType p).

Definition furniture (f : Furniture.t) : Furniture.t :=
  Furniture.mk (Furniture.id f) (Furniture.type f) (pair (Furniture.position f))
    (pair (Furniture.size f)) (Furniture.contains f) (Furniture.isInteractable f)
    (Furniture.interactionType f).

Definition room (r : Room.t) : Room.t :=
  Room.mk (Room.id r) (Room.name r) (Room.domain r) (Room.description r)
    (pair (Room.position r)) (pair (Room.size r)) (Room.colorScheme r)
    (Room.isUnlocked r) (Room.unlockRequirement r)
    (map notePosition (Room.notePositions r)) (map furniture (Room.furniture r)).

Definition activity (a : ActivityItem.t) : ActivityItem.t :=
  ActivityItem.mk (ActivityItem.id a) (ActivityItem.type a)
    (jsonDate (ActivityItem.timestamp a)) (ActivityItem.description a)
    (ActivityItem.points a).

Definition stats (s : PKMStats.t) : PKMStats.t :=
  PKMStats.mk (PKMStats.totalNotes s) (PKMStats.collectedNotes s) (PKMStats.totalLinks s)
    (PKMStats.reviewStreak s) (PKMStats.wisdomPoints s) (PKMStats.completedQuests s)
    (number (PKMStats.averageReviewAccuracy s)) (PKMStats.mostProductiveDomain s)
    (map activity (PKMStats.recentActivity s)).

Definition snapshot (d : Snapshot.t) : Snapshot.t :=
  Snapshot.mk (Snapshot.version d) (jsonDate (Snapshot.timestamp d))
    (option_map (map note) (Snapshot.notes d)) (option_map (map link) (Snapshot.links d))
    (option_map (map tag) (Snapshot.tags d)) (option_map (map quest) (Snapshot.quests d))
    (option_map (map room) (Snapshot.rooms d)) (option_map stats (Snapshot.stats d))
    (Snapshot.settings d).

End Json.

Module PKMStorageSnapshot.
Import PKMStorage.

(** [exportData()].  The result stands for the text
    [JSON.stringify(exportData, null, 2)]: it is the document that text
    denotes, that is, what [JSON.parse] returns on it. *)
Definition exportData (now : Z) : Action Snapshot.t :=
  let! notes := getAllNotes in
  let! links := getAllLinks in
  let! tags := getAllTags in
  let! quests := getAllQuests in
  let! rooms := getAllRooms in
  let! stats := getStats in
  let! settings := getSettings in
  ret (Json.snapshot
         (Snapshot.mk "1.0" (DateObj now) (Some notes) (Some links) (Some tags)
            (Some quests) (Some rooms) stats settings)).

(** The loop [for (const v of l) store.add(v)]. *)
Fixpoint addAll {V} (key : V -> string) (l : list V) (m : gmap string V)
  : Outcome (gmap string V) :=
  match l with
  | [] => Returned m
  | v :: l' =>
      match add (key v) v m with
      | Returned m' => addAll key l' m'
      | Thrown e => Thrown e
      end
  end.

Definition addAllTo {V} (key : V -> string) (l : option (list V))
    (setter : (gmap string V -> gmap string V) -> DB.t -> DB.t)
    (getter : DB.t -> gmap string V) : Action unit :=
  let! db := ensureDB in
  match addAll key (default [] l) (getter db) with
  | Returned m => write (setter (fun _ => m))
  | Thrown e => throw e
  end.

(** [importData(jsonData)], on [data = JSON.parse(jsonData)]. *)
Definition importData (data : Snapshot.t) : Action unit :=
  let! _ := clearAllData in
  let! _ := ensureDB in
  transaction (
    let! _ := addAllTo Note.id (Snapshot.notes data) DB.set_notes DB.notes in
    let! _ := addAllTo NoteLink.id (Snapshot.links data) DB.set_links DB.links in
    let! _ := addAllTo Tag.id (Snapshot.tags data) DB.set_tags DB.tags in
    let! _ := addAllTo KnowledgeQuest.id (Snapshot.quests data) DB.set_quests DB.quests in
    let! _ := addAllTo Room.id (Snapshot.rooms data) DB.set_rooms DB.rooms in
    let! _ := match Snapshot.stats data with
              | Some s => write (DB.set_stats (Some s))
              | None => ret tt
              end in
    match Snapshot.settings data with
    | Some s => write (DB.set_settings (Some s))
    | None => ret tt
    end).

End PKMStorageSnapshot.

(** ** [usePKMStore] ([src/game/engine/pkmStore.ts]) *)

Definition defaultSettings : PKMSettings.t :=
  PKMSettings.mk true personal true 10 retro_snes true true false.

Definition defaultStats : PKMStats.t :=
  PKMStats.mk 0 0 0 0 0 0 (Js.of_Z 0) personal [].

Definition defaultRooms : list Room.t :=
  [ Room.mk "main_hall" "Main Hall" personal "The central hub of your mystical house"
      (Js.of_Z 0, Js.of_Z 0) (Js.of_Z 640, Js.of_Z 400)
      (RoomColorScheme.mk "#4A90E2" "#7ED321" "#F5A623" "#E6F0FF" atm_mystical)
      true None []
      [ Furniture.mk "main_desk" desk (Js.of_Z 220, Js.of_Z 80) (Js.of_Z 120, Js.of_Z 24)
          [] true i_open ] ].

(** [content.split(/\s+/).filter(word => word.length > 0).length] *)
Definition wordCountOf (content : string) : Z :=
  Z.of_nat (length (filter (fun word => JsString.nonempty word = true)
                           (JsString.split_whitespace content))).

(** [Math.ceil(content.length / 200)], on the integer [content.length]. *)
Definition readingTimeOf (content : string) : Z :=
  (Z.of_nat (String.length content) + 199) / 200.

(** [x * 24 * 60 * 60 * 1000], multiplied from left to right. *)
Definition days_to_ms (x : Js.number) : Js.number :=
  Js.mul (Js.mul (Js.mul (Js.mul x (Js.of_Z 24)) (Js.of_Z 60)) (Js.of_Z 60)) (Js.of_Z 1000).

(** [{ ...stats, ...updates }] *)
Definition mergeStats (s : PKMStats.t) (u : PartialStats.t) : PKMStats.t :=
  PKMStats.mk
    (default (PKMStats.totalNotes s) (PartialStats.totalNotes u))
    (default (PKMStats.collectedNotes s) (PartialStats.collectedNotes u))
    (default (PKMStats.totalLinks s) (PartialStats.totalLinks u))
    (default (PKMStats.reviewStreak s) (PartialStats.reviewStreak u))
    (default (PKMStats.wisdomPoints s) (PartialStats.wisdomPoints u))
    (default (PKMStats.completedQuests s) (PartialStats.completedQuests u))
    (default (PKMStats.averageReviewAccuracy s) (PartialStats.averageReviewAccuracy u))
    (default (PKMStats.mostProductiveDomain s) (PartialStats.mostProductiveDomain u))
    (default (PKMStats.recentActivity s) (PartialStats.recentActivity u)).

(** [{ ...settings, ...updates }] *)
Definition mergeSettings (s : PKMSettings.t) (u : PartialSettings.t) : PKMSettings.t :=
  PKMSettings.mk
    (default (PKMSettings.autoSave s) (PartialSettings.autoSave u))
    (default (PKMSettings.defaultDomain s) (PartialSettings.defaultDomain u))
    (default (PKMSettings.reviewReminders s) (PartialSettings.reviewReminders u))
    (default (PKMSettings.dailyReviewGoal s) (PartialSettings.dailyReviewGoal u))
    (default (PKMSettings.theme s) (PartialSettings.theme u))
    (default (PKMSettings.soundEffects s) (PartialSettings.soundEffects u))
    (default (PKMSettings.showBacklinks s) (PartialSettings.showBacklinks u))
    (default (PKMSettings.autoLinkSimilar s) (PartialSettings.autoLinkSimilar u)).

(** A whole [PKMStats] passed where [Partial<PKMStats>] is expected. *)
Definition allStats (s : PKMStats.t) : PartialStats.t :=
  PartialStats.mk
    (Some (PKMStats.totalNotes s)) (Some (PKMStats.collectedNotes s))
    (Some (PKMStats.totalLinks s)) (Some (PKMStats.reviewStreak s))
    (Some (PKMStats.wisdomPoints s)) (Some (PKMStats.completedQuests s))
    (Some (PKMStats.averageReviewAccuracy s)) (Some (PKMStats.mostProductiveDomain s))
    (Some (PKMStats.recentActivity s)).

(** [{ ...tag, ...updates }] *)
Definition mergeTag (t : Tag.t) (u : PartialTag.t) : Tag.t :=
  Tag.mk
    (default (Tag.id t) (PartialTag.id u))
    (default (Tag.name t) (PartialTag.name u))
    (default (Tag.color t) (PartialTag.color u))
    (match PartialTag.description u with Some d => Some d | None => Tag.description t end)
    (default (Tag.noteCount t) (PartialTag.noteCount u))
    (default (Tag.createdAt t) (PartialTag.createdAt u)).

(** The object [updateNote] builds:
    [{ ...note, ...updates, updatedAt: new Date(),
       metadata: { ...note.metadata, wordCount: ..., readingTime: ... } }].
    The [metadata] property written last replaces the one [...updates] may
    have carried, and it is built from the metadata of the note in the store.
    [updates.content ? a : b] takes [a] when [content] is present and is not
    the empty string. *)
Definition updatedNoteOf (old : Note.t) (updates : PartialNote.t) (now : Z) : Note.t :=
  let contentGiven :=
    match PartialNote.content updates with
    | Some c => if JsString.truthy c then Some c else None
    | None => None
    end in
  Note.mk
    (default (Note.id old) (PartialNote.id updates))
    (default (Note.title old) (PartialNote.title updates))
    (default (Note.content old) (PartialNote.content updates))
    (default (Note.type old) (PartialNote.type updates))
    (default (Note.domain old) (PartialNote.domain updates))
    (default (Note.tags old) (PartialNote.tags updates))
    (default (Note.createdAt old) (PartialNote.createdAt updates))
    (DateObj now)
    (default (Note.position old) (PartialNote.position updates))
    (default (Note.isCollected old) (PartialNote.isCollected updates))
    (default (Note.reviewData old) (PartialNote.reviewData updates))
    (NoteMetadata.mk
       (match contentGiven with
        | Some c => wordCountOf c
        | None => NoteMetadata.wordCount (Note.metadata old)
        end)
       (match contentGiven with
        | Some c => readingTimeOf c
        | None => NoteMetadata.readingTime (Note.metadata old)
        end)
       (NoteMetadata.links (Note.metadata old))
       (NoteMetadata.backlinks (Note.metadata old))
       (NoteMetadata.attachments (Note.metadata old))
       (NoteMetadata.importance (Note.metadata old))).

(** [{ ...metadata, links: l }] and [{ ...metadata, backlinks: l }] *)
Definition withLinks (m : NoteMetadata.t) (l : list string) : NoteMetadata.t :=
  NoteMetadata.mk (NoteMetadata.wordCount m) (NoteMetadata.readingTime m) l
    (NoteMetadata.backlinks m) (NoteMetadata.attachments m) (NoteMetadata.importance m).
Definition withBacklinks (m : NoteMetadata.t) (l : list string) : NoteMetadata.t :=
  NoteMetadata.mk (NoteMetadata.wordCount m) (NoteMetadata.readingTime m)
    (NoteMetadata.links m) l (NoteMetadata.attachments m) (NoteMetadata.importance m).

(** [{ metadata: m }] and [{ reviewData: r }] as [Partial<Note>] *)
Definition metadataUpdate (m : NoteMetadata.t) : PartialNote.t :=
  PartialNote.mk None None None None None None None None None None None (Some m).
Definition reviewDataUpdate (r : ReviewData.t) : PartialNote.t :=
  PartialNote.mk None None None None None None None None None None (Some r) None.

(** [{ ...note, isCollected: true }] *)
Definition collected (n : Note.t) : Note.t :=
  Note.mk (Note.id n) (Note.title n) (Note.content n) (Note.type n) (Note.domain n)
    (Note.tags n) (Note.createdAt n) (Note.updatedAt n) (Note.position n) true
    (Note.reviewData n) (Note.metadata n).

(** *** The scheduling step of [reviewNote] *)

Module Review.
Import SPACED_REPETITION.

(** The [switch (quality)]: the new ease factor and the new interval. *)
Definition newEaseFactor (reviewData : ReviewData.t) (quality : Quality) : Js.number :=
  match quality with
  | again => Js.Math_max MIN_EASE (Js.mul (ReviewData.easeFactor reviewData) AGAIN_MULTIPLIER)
  | hard => Js.Math_max MIN_EASE (Js.mul (ReviewData.easeFactor reviewData) HARD_MULTIPLIER)
  | good => ReviewData.easeFactor reviewData
  | easy => Js.Math_min MAX_EASE (Js.mul (ReviewData.easeFactor reviewData) EASY_MULTIPLIER)
  end.

Definition newInterval (reviewData : ReviewData.t) (quality : Quality) : Js.number :=
  match quality with
  | again => INITIAL_INTERVAL
  | hard =>
      Js.Math_max (Js.of_Z 1)
        (Js.Math_floor (Js.mul (ReviewData.interval reviewData) HARD_MULTIPLIER))
  | good =>
      Js.Math_max GRADUATING_INTERVAL
        (Js.Math_floor (Js.mul (Js.mul (ReviewData.interval reviewData) GOOD_MULTIPLIER)
                               (ReviewData.easeFactor reviewData)))
  | easy =>
      Js.Math_floor (Js.mul (Js.mul (ReviewData.interval reviewData) EASY_MULTIPLIER)
                            (ReviewData.easeFactor reviewData))
  end.

Definition newStatus (reviewData : ReviewData.t) (quality : Quality) : ReviewStatus :=
  match quality with
  | again => st_learning
  | _ => if 20 <=? ReviewData.reviewCount reviewData then st_mastered else st_reviewing
  end.

Definition updatedReviewData (reviewData : ReviewData.t) (quality : Quality) (now : Z)
  : ReviewData.t :=
  ReviewData.mk
    (newStatus reviewData quality)
    (newEaseFactor reviewData quality)
    (newInterval reviewData quality)
    (newDate (Js.add (Js.of_Z now) (days_to_ms (newInterval reviewData quality))))
    (ReviewData.reviewCount reviewData + 1)
    (DateObj now)
    (match quality with again => 0 | _ => ReviewData.correctStreak reviewData + 1 end)
    (ReviewData.totalReviews reviewData + 1).

Definition accuracy (quality : Quality) : Js.number :=
  match quality with
  | again => Js.of_Z 0
  | hard => Js.div (Js.of_Z 5) (Js.of_Z 10)
  | good => Js.div (Js.of_Z 8) (Js.of_Z 10)
  | easy => Js.of_Z 1
  end.

Definition points (quality : Quality) : Z :=
  match quality with
  | easy => 15
  | good => 10
  | hard => 5
  | again => 2
  end.
End Review.

(** *** The actions *)

Module usePKMStore.

Definition hasId (id : string) (note : Note.t) : Prop := Note.id note = id.
#[global] Instance hasId_dec id note : Decision (hasId id note).
Proof. unfold hasId. apply _. Defined.

(** [notes.find(n => n.id === id)] *)
Definition findNote (id : string) (notes : list Note.t) : option Note.t :=
  snd <$> list_find (hasId id) notes.

(** [notes.map(note => note.id === id ? updatedNote : note)] *)
Definition replaceNote (id : string) (updatedNote : Note.t) (notes : list Note.t)
  : list Note.t :=
  map (fun note => if decide (Note.id note = id) then updatedNote else note) notes.

(** [updateStats(updates)] *)
Definition updateStats (updates : PartialStats.t) : Action unit :=
  let! state := get in
  let newStats := mergeStats (PKMStore.stats state) updates in
  let! _ := PKMStorage.updateStats newStats in
  set (PKMStore.set_stats newStats).

(** [initializePKM()]; [initOk] tells whether [indexedDB.open] succeeds. *)
Definition init (initOk : bool) : Action unit :=
  fun w => if initOk then (Returned tt, World.mk true (World.idb w) (World.store w))
           else (Thrown NotInitialized, w).

Definition initializePKM (initOk : bool) : Action unit :=
  fun w =>
    let load :=
      let! _ := init initOk in
      let! notes := PKMStorage.getAllNotes in
      let! links := PKMStorage.getAllLinks in
      let! tags := PKMStorage.getAllTags in
      let! quests := PKMStorage.getAllQuests in
      let! rooms := PKMStorage.getAllRooms in
      let! stats := PKMStorage.getStats in
      let! settings := PKMStorage.getSettings in
      set (fun s =>
        PKMStore.mk notes links tags quests
          (if (0 <? length rooms)%nat then rooms else defaultRooms)
          (default defaultStats stats) (default defaultSettings settings)
          (PKMStore.currentRoom s) (PKMStore.selectedNote s) (PKMStore.searchQuery s)
          (PKMStore.searchResults s) (PKMStore.isNotesOverlayOpen s)
          (PKMStore.isCreatingNote s) (PKMStore.isReviewMode s)) in
    match load w with
    | (Returned _, w') => (Returned tt, w')
    | (Thrown _, w') =>
        set (fun s =>
          PKMStore.mk (PKMStore.notes s) (PKMStore.links s) (PKMStore.tags s)
            (PKMStore.quests s) defaultRooms defaultStats defaultSettings
            (PKMStore.currentRoom s) (PKMStore.selectedNote s) (PKMStore.searchQuery s)
            (PKMStore.searchResults s) (PKMStore.isNotesOverlayOpen s)
            (PKMStore.isCreatingNote s) (PKMStore.isReviewMode s)) w'
    end.

(** [x || d] on a string: the empty string is falsy. *)
Definition orString (x : option string) (d : string) : string :=
  match x with
  | Some s => if JsString.truthy s then s else d
  | None => d
  end.

(** [createNote(noteData)].  [newId] is the id built from [Date.now()] and
    [Math.random()], [now] the time of [new Date()], [rx] and [ry] the two
    values of [Math.random()] for the position, [activityId] the id of the
    activity item. *)
Definition createNote (noteData : PartialNote.t)
    (newId : string) (now : Z) (rx ry : Js.number) (activityId : string) : Action unit :=
  let! state := get in
  let settings := PKMStore.settings state in
  let content := default "" (PartialNote.content noteData) in
  let newNote :=
    Note.mk newId
      (orString (PartialNote.title noteData) "Untitled Note")
      content
      (default concept (PartialNote.type noteData))
      (default (PKMSettings.defaultDomain settings) (PartialNote.domain noteData))
      (default [] (PartialNote.tags noteData))
      (DateObj now) (DateObj now)
      (default (Position.mk (Js.mul rx (Js.of_Z 600)) (Js.mul ry (Js.of_Z 350))
                  (orString (PKMStore.currentRoom state) "main_hall"))
               (PartialNote.position noteData))
      (default false (PartialNote.isCollected noteData))
      (ReviewData.mk st_new SPACED_REPETITION.INITIAL_EASE
         SPACED_REPETITION.INITIAL_INTERVAL
         (newDate (Js.add (Js.of_Z now) (days_to_ms SPACED_REPETITION.INITIAL_INTERVAL)))
         0 DateNull 0 0)
      (NoteMetadata.mk (wordCountOf content) (readingTimeOf content) [] [] [] 3) in
  let! _ := PKMStorage.createNote newNote in
  let! _ := set (PKMStore.set_notes (fun notes => notes ++ [newNote])) in
  let! state := get in
  let stats := PKMStore.stats state in
  let updatedStats :=
    PKMStats.mk (PKMStats.totalNotes stats + 1) (PKMStats.collectedNotes stats)
      (PKMStats.totalLinks stats) (PKMStats.reviewStreak stats)
      (PKMStats.wisdomPoints stats) (PKMStats.completedQuests stats)
      (PKMStats.averageReviewAccuracy stats) (PKMStats.mostProductiveDomain stats)
      (ActivityItem.mk activityId note_created (DateObj now)
         ("Created note: " +:+ Note.title newNote) (Some 10)
       :: take 9 (PKMStats.recentActivity stats)) in
  updateStats (allStats updatedStats).

(** [updateNote(id, updates)]; [now] is the time of [new Date()]. *)
Definition updateNote (id : string) (updates : PartialNote.t) (now : Z) : Action unit :=
  let! state := get in
  match list_find (hasId id) (PKMStore.notes state) with
  | None => ret tt
  | Some (noteIndex, old) =>
      let updatedNote := updatedNoteOf old updates now in
      let! _ := PKMStorage.updateNote updatedNote in
      set (PKMStore.set_notes (replaceNote id updatedNote))
  end.

(** [deleteNote(id)] *)
Definition deleteNote (id : string) : Action unit :=
  let! _ := PKMStorage.deleteNote id in
  let! _ := set (fun s =>
    PKMStore.set_links
      (filter (fun link => NoteLink.sourceId link <> id /\ NoteLink.targetId link <> id))
      (PKMStore.set_notes (filter (fun note => Note.id note <> id)) s)) in
  let! state := get in
  let stats := PKMStore.stats state in
  let updatedStats :=
    PKMStats.mk (Z.max 0 (PKMStats.totalNotes stats - 1)) (PKMStats.collectedNotes stats)
      (PKMStats.totalLinks stats) (PKMStats.reviewStreak stats)
      (PKMStats.wisdomPoints stats) (PKMStats.completedQuests stats)
      (PKMStats.averageReviewAccuracy stats) (PKMStats.mostProductiveDomain stats)
      (PKMStats.recentActivity stats) in
  updateStats (allStats updatedStats).

(** [collectNote(id)] *)
Definition collectNote (id : string) : Action unit :=
  let! state := get in
  match findNote id (PKMStore.notes state) with
  | None => ret tt
  | Some note =>
      if Note.isCollected note then ret tt
      else
        let updatedNote := collected note in
        let! _ := PKMStorage.updateNote updatedNote in
        let! _ := set (PKMStore.set_notes (replaceNote id updatedNote)) in
        let! state := get in
        let stats := PKMStore.stats state in
        let updatedStats :=
          PKMStats.mk (PKMStats.totalNotes stats) (PKMStats.collectedNotes stats + 1)
            (PKMStats.totalLinks stats) (PKMStats.reviewStreak stats)
            (PKMStats.wisdomPoints stats + 5) (PKMStats.completedQuests stats)
            (PKMStats.averageReviewAccuracy stats) (PKMStats.mostProductiveDomain stats)
            (PKMStats.recentActivity stats) in
        updateStats (allStats updatedStats)
  end.

(** [searchNotes(query)] *)
Definition searchNotes (query : string) : Action unit :=
  if JsString.truthy (JsString.trim query) then
    let! results := PKMStorage.searchNotes query in
    set (PKMStore.set_search query results)
  else set (PKMStore.set_search "" []).

(** [createLink(sourceId, targetId, type, context)].  [newId] is the id of
    the link, [now] the time of its [createdAt], [nowSource] and
    [nowTarget] the times read by the two calls of [updateNote]. *)
Definition createLink (sourceId targetId : string) (type : LinkType)
    (context : option string) (newId : string) (now nowSource nowTarget : Z)
  : Action unit :=
  let newLink := NoteLink.mk newId sourceId targetId type 5 (DateObj now) context in
  let! _ := PKMStorage.createLink newLink in
  let! _ := set (PKMStore.set_links (fun links => links ++ [newLink])) in
  let! state := get in
  let sourceNote := findNote sourceId (PKMStore.notes state) in
  let targetNote := findNote targetId (PKMStore.notes state) in
  let! _ :=
    match sourceNote with
    | Some sourceNote =>
        updateNote sourceId
          (metadataUpdate
             (withLinks (Note.metadata sourceNote)
                (filter (fun l => l <> targetId)
                        (NoteMetadata.links (Note.metadata sourceNote)) ++ [targetId])))
          nowSource
    | None => ret tt
    end in
  let! _ :=
    match targetNote with
    | Some targetNote =>
        updateNote targetId
          (metadataUpdate
             (withBacklinks (Note.metadata targetNote)
                (filter (fun l => l <> sourceId)
                        (NoteMetadata.backlinks (Note.metadata targetNote)) ++ [sourceId])))
          nowTarget
    | None => ret tt
    end in
  let! state := get in
  let stats := PKMStore.stats state in
  let updatedStats :=
    PKMStats.mk (PKMStats.totalNotes stats) (PKMStats.collectedNotes stats)
      (PKMStats.totalLinks stats + 1) (PKMStats.reviewStreak stats)
      (PKMStats.wisdomPoints stats) (PKMStats.completedQuests stats)
      (PKMStats.averageReviewAccuracy stats) (PKMStats.mostProductiveDomain stats)
      (PKMStats.recentActivity stats) in
  updateStats (allStats updatedStats).

(** [deleteLink(id)] *)
Definition deleteLink (id : string) (nowSource nowTarget : Z) : Action unit :=
  let! state := get in
  match snd <$> list_find (fun l => NoteLink.id l = id) (PKMStore.links state) with
  | None => ret tt
  | Some link =>
      let! _ := PKMStorage.deleteLink id in
      let! _ := set (PKMStore.set_links (filter (fun l => NoteLink.id l <> id))) in
      let sourceNote := findNote (NoteLink.sourceId link) (PKMStore.notes state) in
      let targetNote := findNote (NoteLink.targetId link) (PKMStore.notes state) in
      let! _ :=
        match sourceNote with
        | Some sourceNote =>
            updateNote (NoteLink.sourceId link)
              (metadataUpdate
                 (withLinks (Note.metadata sourceNote)
                    (filter (fun l => l <> NoteLink.targetId link)
                            (NoteMetadata.links (Note.metadata sourceNote)))))
              nowSource
        | None => ret tt
        end in
      let! _ :=
        match targetNote with
        | Some targetNote =>
            updateNote (NoteLink.targetId link)
              (metadataUpdate
                 (withBacklinks (Note.metadata targetNote)
                    (filter (fun l => l <> NoteLink.sourceId link)
                            (NoteMetadata.backlinks (Note.metadata targetNote)))))
              nowTarget
        | None => ret tt
        end in
      let! state := get in
      let stats := PKMStore.stats state in
      let updatedStats :=
        PKMStats.mk (PKMStats.totalNotes stats) (PKMStats.collectedNotes stats)
          (Z.max 0 (PKMStats.totalLinks stats - 1)) (PKMStats.reviewStreak stats)
          (PKMStats.wisdomPoints stats) (PKMStats.completedQuests stats)
          (PKMStats.averageReviewAccuracy stats) (PKMStats.mostProductiveDomain stats)
          (PKMStats.recentActivity stats) in
      updateStats (allStats updatedStats)
  end.

(** [createTag(name, color)] *)
Definition createTag (name color : string) (newId : string) (now : Z) : Action unit :=
  let newTag := Tag.mk newId name color (Some "") 0 (DateObj now) in
  let! _ := PKMStorage.createTag newTag in
  set (PKMStore.set_tags (fun tags => tags ++ [newTag])).

(** [updateTag(id, updates)] *)
Definition updateTag (id : string) (updates : PartialTag.t) : Action unit :=
  let! state := get in
  match list_find (fun tag => Tag.id tag = id) (PKMStore.tags state) with
  | None => ret tt
  | Some (tagIndex, old) =>
      let updatedTag := mergeTag old updates in
      let! _ := PKMStorage.updateTag updatedTag in
      set (PKMStore.set_tags
             (map (fun tag => if decide (Tag.id tag = id) then updatedTag else tag)))
  end.

(** [reviewNote(id, quality)].  [now] is the time of [new Date()],
    [nowUpdate] the time read by [updateNote], [activityId] the id of the
    activity item. *)
Definition reviewNote (id : string) (quality : Quality)
    (now nowUpdate : Z) (activityId : string) : Action unit :=
  let! state := get in
  match findNote id (PKMStore.notes state) with
  | None => ret tt
  | Some note =>
      let updatedReviewData := Review.updatedReviewData (Note.reviewData note) quality now in
      let! _ := updateNote id (reviewDataUpdate updatedReviewData) nowUpdate in
      let! state := get in
      let stats := PKMStore.stats state in
      let reviewed :=
        Js.of_Z (Z.of_nat (length (filter (fun a => ActivityItem.type a = note_reviewed)
                                          (PKMStats.recentActivity stats)))) in
      let updatedStats :=
        PKMStats.mk (PKMStats.totalNotes stats) (PKMStats.collectedNotes stats)
          (PKMStats.totalLinks stats) (PKMStats.reviewStreak stats)
          (PKMStats.wisdomPoints stats) (PKMStats.completedQuests stats)
          (Js.div (Js.add (Js.mul (PKMStats.averageReviewAccuracy stats) reviewed)
                          (Review.accuracy quality))
                  (Js.add reviewed (Js.of_Z 1)))
          (PKMStats.mostProductiveDomain stats)
          (ActivityItem.mk activityId note_reviewed (DateObj now)
             ("Reviewed note: " +:+ Note.title note) (Some (Review.points quality))
           :: take 9 (PKMStats.recentActivity stats)) in
      updateStats (allStats updatedStats)
  end.

(** [getNotesDueForReview()]; [now] is the time of [new Date()]. *)
Definition getNotesDueForReview (now : Z) : Action (list Note.t) :=
  PKMStorage.getNotesDueForReview now.

(** [updateSettings(updates)] *)
Definition updateSettings (updates : PartialSettings.t) : Action unit :=
  let! state := get in
  let newSettings := mergeSettings (PKMStore.settings state) updates in
  let! _ := PKMStorage.updateSettings newSettings in
  set (PKMStore.set_settings newSettings).

(** The setters of the user-interface state. *)
Definition setCurrentRoom (roomId : option string) : Action unit :=
  set (PKMStore.set_currentRoom roomId).
Definition setSelectedNote (note : option Note.t) : Action unit :=
  set (PKMStore.set_selectedNote note).
Definition setNotesOverlayOpen (open : bool) : Action unit :=
  set (PKMStore.set_isNotesOverlayOpen open).
Definition setCreatingNote (creating : bool) : Action unit :=
  set (PKMStore.set_isCreatingNote creating).
Definition setReviewMode (review : bool) : Action unit :=
  set (PKMStore.set_isReviewMode review).

(** [exportData()] and [importData(jsonData)] *)
Definition exportData (now : Z) : Action Snapshot.t :=
  PKMStorageSnapshot.exportData now.

Definition importData (data : Snapshot.t) (initOk : bool) : Action unit :=
  let! _ := PKMStorageSnapshot.importData data in
  initializePKM initOk.

End usePKMStore.

(** ** [NotesOverlay]: a caller of the store ([unnamed/part_002]) *)

Module NotesOverlay.

(** [handleReviewNote(noteId, quality)]: the review, then the notes due,
    which the overlay keeps as [notesDue].  [nowDue] is the time of
    [new Date()] in [getNotesDueForReview]. *)
Definition handleReviewNote (noteId : string) (quality : Quality)
    (now nowUpdate : Z) (activityId : string) (nowDue : Z) : Action (list Note.t) :=
  let! _ := usePKMStore.reviewNote noteId quality now nowUpdate activityId in
  usePKMStore.getNotesDueForReview nowDue.

End NotesOverlay.

(** ** Vocabulary of the statements *)

(** The note [reviewNote] writes back through [updateNote]. *)
Definition reviewedNote (note : Note.t) (quality : Quality) (now nowUpdate : Z) : Note.t :=
  updatedNoteOf note
    (reviewDataUpdate (Review.updatedReviewData (Note.reviewData note) quality now)) nowUpdate.

(** The statistics [collectNote] writes: one more collected note, five more
    wisdom points. *)
Definition collectedStats (stats : PKMStats.t) : PKMStats.t :=
  PKMStats.mk (PKMStats.totalNotes stats) (PKMStats.collectedNotes stats + 1)
    (PKMStats.totalLinks stats) (PKMStats.reviewStreak stats)
    (PKMStats.wisdomPoints stats + 5) (PKMStats.completedQuests stats)
    (PKMStats.averageReviewAccuracy stats) (PKMStats.mostProductiveDomain stats)
    (PKMStats.recentActivity stats).

(** The statistics [deleteNote] writes. *)
Definition afterDeleteStats (stats : PKMStats.t) : PKMStats.t :=
  PKMStats.mk (Z.max 0 (PKMStats.totalNotes stats - 1)) (PKMStats.collectedNotes stats)
    (PKMStats.totalLinks stats) (PKMStats.reviewStreak stats)
    (PKMStats.wisdomPoints stats) (PKMStats.completedQuests stats)
    (PKMStats.averageReviewAccuracy stats) (PKMStats.mostProductiveDomain stats)
    (PKMStats.recentActivity stats).

(** One call of [reviewNote] on a given note: the grade and what the
    environment supplies. *)
Module ReviewCall.
Record t : Type := mk {
quality : Quality;
now : Z;
nowUpdate : Z;
activityId : string
}.
End ReviewCall.

(** A finite sequence of [reviewNote] calls on the note [id], each run to its
    end (returned or thrown) before the next. *)
Definition reviewAll (id : string) (calls : list ReviewCall.t) (w : World.t) : World.t :=
  foldl (fun w c =>
           exec (usePKMStore.reviewNote id (ReviewCall.quality c) (ReviewCall.now c)
                   (ReviewCall.nowUpdate c) (ReviewCall.activityId c)) w)
        w calls.

(** The same sequence on the review data alone. *)
Definition scheduleAll (rd : ReviewData.t) (calls : list ReviewCall.t) : ReviewData.t :=
  foldl (fun rd c => Review.updatedReviewData rd (ReviewCall.quality c) (ReviewCall.now c))
        rd calls.

(** The doubles from [MIN_EASE] (mantissa 5854679515581645 at exponent -52)
    to [MAX_EASE] (mantissa 6755399441055744 at exponent -51), in canonical
    form: those of [1.3, 2) and those of [2, 3]. *)
Definition ease_in_range (x : Js.number) : Prop :=
  exists (m : positive) (e : Z), x = S754_finite false m e /\
    ((e = -52 /\ 5854679515581645 <= Z.pos m < 9007199254740992) \/
     (e = -51 /\ 4503599627370496 <= Z.pos m <= 6755399441055744)).

(** The number of non-empty white-space-delimited tokens of a string, as
    claim C8 words the word count: the maximal runs of characters that are
    not white space, counted where each begins.  [inside] tells whether the
    character before was part of a run. *)
Fixpoint count_tokens (inside : bool) (s : string) : nat :=
  match s with
  | EmptyString => 0
  | String c s' =>
      if JsString.is_whitespace c then count_tokens false s'
      else ((if inside then 0 else 1) + count_tokens true s')%nat
  end.

(** The string starts with a character that is not white space. *)
Definition starts_with_word (s : string) : bool :=
  match s with
  | EmptyString => false
  | String c _ => negb (JsString.is_whitespace c)
  end.

(** The records of an object store with [keyPath: 'id'] sit under their
    own id. *)
Definition keyed_by_id (m : gmap string NoteLink.t) : Prop :=
  forall k l, m !! k = Some l -> NoteLink.id l = k.

(** [t] occurs in [s]. *)
Definition is_substring (t s : string) : Prop :=
  exists pre post, s = pre +:+ t +:+ post.

(** The string is empty or made of white space only. *)
Fixpoint blank (s : string) : Prop :=
  match s with
  | EmptyString => True
  | String c s' => JsString.is_whitespace c = true /\ blank s'
  end.

(** The search terms as the amended claim C6 words them: split the query on
    the space character, lower-case each piece, drop the empty pieces. *)
Definition spec_searchTerms (query : string) : list string :=
  filter (fun term => term <> EmptyString)
         (map JsString.toLowerCase (JsString.split_space query)).

(** The search terms as claim C6 words them: split the query on white space,
    lower-case each piece, drop the empty pieces. *)
Definition spec_whitespaceTerms (query : string) : list string :=
  filter (fun term => term <> EmptyString)
         (map JsString.toLowerCase (JsString.split_whitespace query)).

(** ** Scenarios: worlds reached by running the actions *)

Module Scenario.

(** The store in its initial state over an opened, empty database. *)
Definition fresh : World.t :=
World.mk true DB.empty
  (PKMStore.mk [] [] [] [] defaultRooms defaultStats defaultSettings
     (Some "main_hall") None "" [] false false false).

(** [{ title, content }] *)
Definition noteData (title content : string) : PartialNote.t :=
PartialNote.mk None (Some title) (Some content) None None None None None None None None None.

(** [{ content }] *)
Definition contentUpdate (content : string) : PartialNote.t :=
PartialNote.mk None None (Some content) None None None None None None None None None.

Definition random0 : Js.number := Js.of_Z 0.

(** Two notes: ["b"] created first, then ["a"]. *)
Definition twoNotes : World.t :=
exec (usePKMStore.createNote (noteData "Quantum Mechanics" "particles and waves")
        "a" 1000 random0 random0 "activity_1000")
  (exec (usePKMStore.createNote (noteData "B" "") "b" 2000 random0 random0 "activity_2000")
     fresh).

(** The note ["a"] as [createNote] built it. *)
Definition noteA : Note.t :=
Note.mk "a" "Quantum Mechanics" "particles and waves" concept personal []
  (DateObj 1000) (DateObj 1000)
  (Position.mk (Js.of_Z 0) (Js.of_Z 0) "main_hall") false
  (ReviewData.mk st_new SPACED_REPETITION.INITIAL_EASE SPACED_REPETITION.INITIAL_INTERVAL
     (DateObj 86401000) 0 DateNull 0 0)
  (NoteMetadata.mk 3 1 [] [] [] 3).

(** The link ["l1"] from ["a"] to ["b"]. *)
Definition oneLink : World.t :=
exec (usePKMStore.createLink "a" "b" related None "l1" 3000 3001 3002) twoNotes.

(** A second link ["l2"] from ["a"] to ["b"]. *)
Definition twoLinks : World.t :=
exec (usePKMStore.createLink "a" "b" expands None "l2" 4000 4001 4002) oneLink.

(** The note ["a"] reviewed twice with [good]: interval 10, ease 2.5. *)
Definition reviewedTwice : World.t :=
reviewAll "a"
  [ReviewCall.mk good 5000 5001 "activity_5000";
   ReviewCall.mk good 6000 6001 "activity_6000"] twoNotes.

(** A TAB character, and a query whose two words it separates. *)
Definition tab : string := String (Ascii.ascii_of_N 9) EmptyString.
Definition tabQuery : string := "quantum" +:+ tab +:+ "waves".

(** Some grades. *)
Definition someCalls : list ReviewCall.t :=
[ReviewCall.mk easy 5000 5001 "r1"; ReviewCall.mk easy 6000 6001 "r2";
 ReviewCall.mk hard 7000 7001 "r3"; ReviewCall.mk again 8000 8001 "r4";
 ReviewCall.mk good 9000 9001 "r5"; ReviewCall.mk hard 9500 9501 "r6"].

(** Twenty reviews graded [again], one every ten seconds. *)
Definition twentyAgain : list ReviewCall.t :=
map (fun k => ReviewCall.mk again (10000 * Z.of_nat k) (10000 * Z.of_nat k + 1) "r")
  (seq 1 20).

End Scenario.

(** ** Calls of the store and what they keep *)

(** The records of an object store with [keyPath: 'id'] sit under their
    own key, whatever the type of the records. *)
Definition keyed {V} (key : V -> string) (m : gmap string V) : Prop :=
  forall k v, m !! k = Some v -> key v = k.

Definition records_keyed (d : DB.t) : Prop :=
  keyed Note.id (DB.notes d) /\ keyed NoteLink.id (DB.links d) /\
  keyed Tag.id (DB.tags d) /\ keyed KnowledgeQuest.id (DB.quests d) /\
  keyed Room.id (DB.rooms d).

(** A list of the store holds exactly the records of an object store. *)
Definition mirrors {V} (key : V -> string) (l : list V) (m : gmap string V) : Prop :=
  forall k v, m !! k = Some v <-> v ∈ l /\ key v = k.

(** The notes, links and tags of the store are those of the database. *)
Definition in_sync (w : World.t) : Prop :=
  mirrors Note.id (PKMStore.notes (World.store w)) (DB.notes (World.idb w)) /\
  mirrors NoteLink.id (PKMStore.links (World.store w)) (DB.links (World.idb w)) /\
  mirrors Tag.id (PKMStore.tags (World.store w)) (DB.tags (World.idb w)).

(** An action leaves a property of the world as it found it, whether it
    returns or throws. *)
Definition preserves {A} (P : World.t -> Prop) (m : Action A) : Prop :=
  forall w, P w -> P (exec m w).

(** One call of an action on notes, links, tags or reviews, with what the
    environment supplies to it. *)
Inductive Call : Type :=
  | CreateNote (noteData : PartialNote.t) (newId : string) (now : Z)
      (rx ry : Js.number) (activityId : string)
  | UpdateNote (id : string) (updates : PartialNote.t) (now : Z)
  | DeleteNote (id : string)
  | CollectNote (id : string)
  | SearchNotes (query : string)
  | CreateLink (sourceId targetId : string) (type : LinkType) (context : option string)
      (newId : string) (now nowSource nowTarget : Z)
  | DeleteLink (id : string) (nowSource nowTarget : Z)
  | CreateTag (name color newId : string) (now : Z)
  | UpdateTag (id : string) (updates : PartialTag.t)
  | ReviewNote (id : string) (quality : Quality) (now nowUpdate : Z) (activityId : string).

Definition action_of (c : Call) : Action unit :=
  match c with
  | CreateNote noteData newId now rx ry activityId =>
      usePKMStore.createNote noteData newId now rx ry activityId
  | UpdateNote id updates now => usePKMStore.updateNote id updates now
  | DeleteNote id => usePKMStore.deleteNote id
  | CollectNote id => usePKMStore.collectNote id
  | SearchNotes query => usePKMStore.searchNotes query
  | CreateLink sourceId targetId type context newId now nowSource nowTarget =>
      usePKMStore.createLink sourceId targetId type context newId now nowSource nowTarget
  | DeleteLink id nowSource nowTarget => usePKMStore.deleteLink id nowSource nowTarget
  | CreateTag name color newId now => usePKMStore.createTag name color newId now
  | UpdateTag id updates => usePKMStore.updateTag id updates
  | ReviewNote id quality now nowUpdate activityId =>
      usePKMStore.reviewNote id quality now nowUpdate activityId
  end.

(** A sequence of calls, each run to its end before the next. *)
Definition runAll (calls : list Call) (w : World.t) : World.t :=
  foldl (fun w c => exec (action_of c) w) w calls.

(** The call does not pass a new [id] in its updates. *)
Definition keeps_id (c : Call) : Prop :=
  match c with
  | UpdateNote _ updates _ => PartialNote.id updates = None
  | UpdateTag _ updates => PartialTag.id updates = None
  | _ => True
  end.

(** A property of the statistics the store shows. *)
Definition on_stats (R : PKMStats.t -> Prop) (w : World.t) : Prop :=
  R (PKMStore.stats (World.store w)).

(** A property of the notes: those the store lists and those the database
    holds. *)
Definition on_notes (Q : list Note.t -> gmap string Note.t -> Prop) (w : World.t) : Prop :=
  Q (PKMStore.notes (World.store w)) (DB.notes (World.idb w)).

(** The note lists no link and no backlink. *)
Definition unlinked (n : Note.t) : Prop :=
  NoteMetadata.links (Note.metadata n) = [] /\
  NoteMetadata.backlinks (Note.metadata n) = [].

(** No note lists a link or a backlink, in the store or in the database. *)
Definition all_unlinked : World.t -> Prop :=
  on_notes (fun notes m => Forall unlinked notes /\ map_Forall (fun _ n => unlinked n) m).

(** Two worlds differ in their notes at most. *)
Definition same_but_notes (w w' : World.t) : Prop :=
  World.opened w' = World.opened w /\
  PKMStore.set_notes (fun _ => []) (World.store w')
  = PKMStore.set_notes (fun _ => []) (World.store w) /\
  DB.set_notes (fun _ => ∅) (World.idb w') = DB.set_notes (fun _ => ∅) (World.idb w).

(** No list of the document holds an id twice. *)
Definition ids_distinct (data : Snapshot.t) : Prop :=
  NoDup (Note.id <$> default [] (Snapshot.notes data)) /\
  NoDup (NoteLink.id <$> default [] (Snapshot.links data)) /\
  NoDup (Tag.id <$> default [] (Snapshot.tags data)) /\
  NoDup (KnowledgeQuest.id <$> default [] (Snapshot.quests data)) /\
  NoDup (Room.id <$> default [] (Snapshot.rooms data)).

(** The database with every record replaced by what [JSON.parse] reads
    back from its [JSON.stringify]; the settings hold no dates and no
    numbers that change. *)
Definition jsonDB (d : DB.t) : DB.t :=
  DB.mk (Json.note <$> DB.notes d) (Json.link <$> DB.links d) (Json.tag <$> DB.tags d)
    (Json.quest <$> DB.quests d) (Json.room <$> DB.rooms d)
    (Json.stats <$> DB.stats d) (DB.settings d).

(** [JSON.stringify] prints NaN and the infinities as [null]: the numbers
    that come back as numbers are the finite ones. *)
Definition finite (v : Js.number) : bool :=
  match v with
  | S754_zero _ | S754_finite _ _ _ => true
  | _ => false
  end.

Definition finite_pair (p : Js.number * Js.number) : bool :=
  finite (fst p) && finite (snd p).

Definition finite_note (n : Note.t) : bool :=
  finite (ReviewData.easeFactor (Note.reviewData n)) &&
  finite (ReviewData.interval (Note.reviewData n)) &&
  finite (Position.x (Note.position n)) && finite (Position.y (Note.position n)).

Definition finite_room (r : Room.t) : bool :=
  finite_pair (Room.position r) && finite_pair (Room.size r) &&
  forallb (fun p => finite (NotePosition.x p) && finite (NotePosition.y p))
    (Room.notePositions r) &&
  forallb (fun f => finite_pair (Furniture.position f) && finite_pair (Furniture.size f))
    (Room.furniture r).

(** Every number field of the database holds a finite number. *)
Definition numbers_finite (d : DB.t) : Prop :=
  map_Forall (fun _ n => finite_note n = true) (DB.notes d) /\
  map_Forall (fun _ r => finite_room r = true) (DB.rooms d) /\
  (forall s, DB.stats d = Some s -> finite (PKMStats.averageReviewAccuracy s) = true).

(** The double [x] is the positive integer [z], below 2^53, in canonical
    form: a mantissa of 53 bits at an exponent from -52 to 0. *)
Definition whole (x : Js.number) (z : Z) : Prop :=
  exists (m : positive) (e : Z),
    x = S754_finite false m e /\ 2 ^ 52 <= Z.pos m < 2 ^ 53 /\ -52 <= e <= 0 /\
    Z.pos m = z * 2 ^ (- e).

(** The number of milliseconds in a day, and the last time value from which
    a day can be added within the range of [Date]. *)
Definition msPerDay : Z := 86400000.
Definition lastDayStart : Z := 8640000000000000 - msPerDay.

(** [Infinity], or a positive double in canonical form whose 53-bit
    mantissa sits at the exponent [lo] or higher. *)
Definition normal_from (lo : Z) (x : Js.number) : Prop :=
  x = S754_infinity false \/
  exists (m : positive) (e : Z),
    x = S754_finite false m e /\ 2 ^ 52 <= Z.pos m < 2 ^ 53 /\ lo <= e <= 971.

(** A double of at least one: the exponent of a 53-bit mantissa is -52 or
    higher. *)
Definition day_or_more (x : Js.number) : Prop := normal_from (-52) x.

(** ** A session: calls and documents to run the statements on *)

Module Session.

(** Two notes, a link between them, a review, a collection, a search, a
    tag, an update, and the deletion of the link and of a note. *)
Definition calls : list Call :=
[CreateNote (Scenario.noteData "Quantum Mechanics" "particles and waves") "a" 1000
   Scenario.random0 Scenario.random0 "activity_1000";
 CreateNote (Scenario.noteData "B" "") "b" 2000 Scenario.random0 Scenario.random0
   "activity_2000";
 CreateLink "a" "b" related None "l1" 3000 3001 3002;
 ReviewNote "a" good 5000 5001 "activity_5000";
 CollectNote "a";
 SearchNotes "quantum";
 CreateTag "physics" "#9F7AEA" "t1" 6000;
 UpdateNote "b" (Scenario.contentUpdate "waves") 7000;
 DeleteLink "l1" 8000 8001;
 DeleteNote "b"].

(** The same without the collection. *)
Definition quiet : list Call :=
[CreateNote (Scenario.noteData "Quantum Mechanics" "particles and waves") "a" 1000
   Scenario.random0 Scenario.random0 "activity_1000";
 CreateLink "a" "a" related None "l1" 3000 3001 3002;
 ReviewNote "a" easy 5000 5001 "activity_5000";
 DeleteNote "a"].

(** Two notes in the store, and the database closed. *)
Definition closed : World.t := exec PKMStorage.close Scenario.twoNotes.

(** [{ id: 'c' }] as [Partial<Note>], and [{ defaultDomain: 'science' }]
    as [Partial<PKMSettings>]. *)
Definition newId : PartialNote.t :=
PartialNote.mk (Some "c") None None None None None None None None None None None.
Definition scienceByDefault : PartialSettings.t :=
PartialSettings.mk None (Some science) None None None None None None.

(** A link from the note ["a"] to itself, beside the link ["l1"]. *)
Definition selfLink : World.t :=
exec (usePKMStore.createLink "a" "a" follows None "l0" 3500 3501 3502) Scenario.oneLink.


(** A document with one note, and one that lists the same note twice. *)
Definition doc : Snapshot.t :=
Snapshot.mk "1.0" (DateIso 9000) (Some [Json.note Scenario.noteA]) (Some []) None None None
  None None.
Definition twice : Snapshot.t :=
Snapshot.mk "1.0" (DateIso 9000) (Some [Json.note Scenario.noteA; Json.note Scenario.noteA])
  (Some []) None None None None None.

End Session.


(** * Rounding of binary64 products

    [SFmul] multiplies the mantissas exactly and rounds with
    [binary_round_aux].  For a product whose bit length is known the rounded
    mantissa is the quotient by a power of two or its successor, which is all
    the scheduler's bounds need. *)

Lemma shr_1_nonneg m r s :
  0 <= m -> shr_1 (Build_shr_record m r s) = Build_shr_record (Z.div2 m) (Z.odd m) (r || s).
Proof.
  intros Hm. destruct m as [|p|p]; [reflexivity| |lia].
  destruct p; reflexivity.
Qed.

Lemma pow2_double (p : positive) : 2 ^ Z.pos p~0 = 2 ^ Z.pos p * 2 ^ Z.pos p.
Proof.
  replace (Z.pos p~0) with (Z.pos p + Z.pos p) by lia.
  apply Z.pow_add_r; lia.
Qed.

Lemma pow2_double_succ (p : positive) : 2 ^ Z.pos p~1 = 2 * 2 ^ Z.pos p * 2 ^ Z.pos p.
Proof.
  replace (Z.pos p~1) with (1 + Z.pos p + Z.pos p) by lia.
  rewrite !Z.pow_add_r by lia. reflexivity.
Qed.

(** Shifting right by [p] bits divides the mantissa by [2^p]. *)
Lemma iter_shr_m p : forall mrs,
  0 <= shr_m mrs -> shr_m (SpecFloat.iter_pos shr_1 p mrs) = shr_m mrs / 2 ^ Z.pos p.
Proof.
  assert (step : forall mrs, 0 <= shr_m mrs ->
           shr_m (shr_1 mrs) = shr_m mrs / 2 /\ 0 <= shr_m (shr_1 mrs)).
  { intros [m r s] Hm. simpl in Hm. rewrite shr_1_nonneg by assumption. simpl.
    rewrite Z.div2_div. split; [reflexivity | apply Z.div_pos; lia]. }
  induction p as [p IH|p IH|]; intros mrs Hm; cbn [SpecFloat.iter_pos].
  - destruct (step mrs Hm) as [E1 P1].
    assert (P2 : 0 <= shr_m (SpecFloat.iter_pos shr_1 p (shr_1 mrs))).
    { rewrite IH by assumption. apply Z.div_pos; lia. }
    rewrite IH by assumption. rewrite IH by assumption. rewrite E1.
    rewrite !Z.div_div by lia. rewrite pow2_double_succ. f_equal. ring.
  - assert (P2 : 0 <= shr_m (SpecFloat.iter_pos shr_1 p mrs)).
    { rewrite IH by assumption. apply Z.div_pos; lia. }
    rewrite IH by assumption. rewrite IH by assumption.
    rewrite !Z.div_div by lia. rewrite pow2_double. reflexivity.
  - destruct (step mrs Hm) as [E1 _]. exact E1.
Qed.

(** When the bits shifted out are all zero, neither the round bit nor the
    sticky bit is set. *)
Lemma iter_shr_exact p : forall m,
  0 <= m -> m mod 2 ^ Z.pos p = 0 ->
  SpecFloat.iter_pos shr_1 p (Build_shr_record m false false)
  = Build_shr_record (m / 2 ^ Z.pos p) false false.
Proof.
  assert (step : forall m, 0 <= m -> m mod 2 = 0 ->
            shr_1 (Build_shr_record m false false) = Build_shr_record (m / 2) false false).
  { intros m Hm He. rewrite shr_1_nonneg by assumption. rewrite Z.div2_div.
    f_equal. rewrite <- Z.negb_even, Zeven_mod, He. reflexivity. }
  induction p as [p IH|p IH|]; intros m Hm Hd; cbn [SpecFloat.iter_pos].
  - rewrite pow2_double_succ in *.
    assert (Hp : 0 < 2 ^ Z.pos p) by (apply Z.pow_pos_nonneg; lia).
    apply Z.mod_divide in Hd; [|nia]. destruct Hd as [k Hk]. subst m.
    replace (k * (2 * 2 ^ Z.pos p * 2 ^ Z.pos p))
      with ((k * 2 ^ Z.pos p * 2 ^ Z.pos p) * 2) by ring.
    rewrite step; [| nia | apply Z_mod_mult].
    rewrite Z_div_mult by lia.
    rewrite IH; [| nia | apply Z_mod_mult].
    rewrite Z_div_mult by lia.
    rewrite IH; [| nia | apply Z_mod_mult].
    rewrite Z_div_mult by lia.
    f_equal. replace (k * 2 ^ Z.pos p * 2 ^ Z.pos p * 2)
      with (k * (2 * 2 ^ Z.pos p * 2 ^ Z.pos p)) by ring.
    rewrite Z_div_mult by nia. reflexivity.
  - rewrite pow2_double in *.
    assert (Hp : 0 < 2 ^ Z.pos p) by (apply Z.pow_pos_nonneg; lia).
    apply Z.mod_divide in Hd; [|nia]. destruct Hd as [k Hk]. subst m.
    replace (k * (2 ^ Z.pos p * 2 ^ Z.pos p)) with ((k * 2 ^ Z.pos p) * 2 ^ Z.pos p) by ring.
    rewrite IH; [| nia | apply Z_mod_mult].
    rewrite Z_div_mult by lia.
    rewrite IH; [| nia | apply Z_mod_mult].
    rewrite Z_div_mult by lia.
    f_equal. replace (k * 2 ^ Z.pos p * 2 ^ Z.pos p)
      with (k * (2 ^ Z.pos p * 2 ^ Z.pos p)) by ring.
    rewrite Z_div_mult by nia. reflexivity.
  - change (2 ^ 1) with 2 in *. apply step; assumption.
Qed.

Lemma digits2_pos_size p : digits2_pos p = Pos.size p.
Proof. induction p; simpl; congruence. Qed.

(** The bit length of a positive integer. *)
Lemma Zdigits2_bounds (M : positive) (d : positive) :
  2 ^ (Z.pos d - 1) <= Z.pos M < 2 ^ Z.pos d -> Zdigits2 (Z.pos M) = Z.pos d.
Proof.
  intros [Hlo Hhi]. simpl. rewrite digits2_pos_size. f_equal.
  assert (Hgt : Z.pos M < Z.pos (2 ^ Pos.size M)) by apply Pos2Z.pos_lt_pos, Pos.size_gt.
  assert (Hle : Z.pos (2 ^ Pos.size M) <= Z.pos M~0) by apply Pos2Z.pos_le_pos, Pos.size_le.
  rewrite Pos2Z.inj_pow in Hgt, Hle.
  destruct (Z.lt_trichotomy (Z.pos (Pos.size M)) (Z.pos d)) as [Hc|[Hc|Hc]].
  - exfalso.
    assert (2 ^ Z.pos (Pos.size M) <= 2 ^ (Z.pos d - 1)) by (apply Z.pow_le_mono_r; lia).
    lia.
  - congruence.
  - exfalso.
    assert (2 ^ Z.pos d <= 2 ^ (Z.pos (Pos.size M) - 1)) by (apply Z.pow_le_mono_r; lia).
    replace (Z.pos (Pos.size M)) with (Z.pos (Pos.size M) - 1 + 1) in Hle by lia.
    rewrite Z.pow_add_r in Hle by lia. change (2 ^ 1) with 2 in Hle. lia.
Qed.

Lemma round_nearest_even_cases m l :
  round_nearest_even m l = m \/ round_nearest_even m l = m + 1.
Proof.
  destruct l as [|[| |]]; simpl; auto. destruct (Z.even m); auto.
Qed.

(** A mantissa of 53 bits needs no further shift. *)
Lemma shr_fexp_fits (m : positive) (e : Z) :
  2 ^ 52 <= Z.pos m < 2 ^ 53 -> -1074 <= e ->
  shr_fexp 53 1024 (Z.pos m) e loc_Exact = (Build_shr_record (Z.pos m) false false, e).
Proof.
  intros Hm He. unfold shr_fexp.
  rewrite (Zdigits2_bounds m 53) by (simpl Z.sub; exact Hm).
  unfold fexp, emin. rewrite Z.max_l by lia.
  replace (53 + e - 53 - e) with 0 by lia. reflexivity.
Qed.

(** Rounding up to [2^53] carries into the exponent. *)
Lemma shr_fexp_carry (e : Z) :
  -1074 <= e ->
  shr_fexp 53 1024 (2 ^ 53) e loc_Exact
  = (Build_shr_record (2 ^ 52) false false, e + 1).
Proof.
  intros He. unfold shr_fexp.
  change (Zdigits2 (2 ^ 53)) with 54.
  unfold fexp, emin. rewrite Z.max_l by lia.
  replace (54 + e - 53 - e) with 1 by lia. reflexivity.
Qed.

(** Rounding an exact integer [M] of [53 + n] bits at exponent [E]: the
    result is [M / 2^n] or its successor at exponent [E + n], with a carry
    when the successor is [2^53]; it is the quotient when [2^n] divides [M]. *)
Lemma binary_round_aux_bounds (M : positive) (E : Z) (n : positive) :
  2 ^ (52 + Z.pos n) <= Z.pos M < 2 ^ (53 + Z.pos n) ->
  -1074 <= E + Z.pos n -> E + Z.pos n + 1 <= 971 ->
  exists m' : positive,
    Z.pos M / 2 ^ Z.pos n <= Z.pos m' <= Z.pos M / 2 ^ Z.pos n + 1 /\
    (Z.pos M mod 2 ^ Z.pos n = 0 -> Z.pos m' = Z.pos M / 2 ^ Z.pos n) /\
    ((Z.pos m' < 2 ^ 53 /\
      binary_round_aux 53 1024 false (Z.pos M) E loc_Exact
      = S754_finite false m' (E + Z.pos n)) \/
     (Z.pos m' = 2 ^ 53 /\
      binary_round_aux 53 1024 false (Z.pos M) E loc_Exact
      = S754_finite false 4503599627370496 (E + Z.pos n + 1))).
Proof.
  intros HM Hlo Hhi.
  assert (Hn : 0 < 2 ^ Z.pos n) by (apply Z.pow_pos_nonneg; lia).
  set (q := Z.pos M / 2 ^ Z.pos n).
  assert (Hq : 2 ^ 52 <= q < 2 ^ 53).
  { unfold q. rewrite !Z.pow_add_r in HM by lia. split.
    - apply Z.div_le_lower_bound; lia.
    - apply Z.div_lt_upper_bound; lia. }
  set (mrs := SpecFloat.iter_pos shr_1 n (Build_shr_record (Z.pos M) false false)).
  assert (Hmrs : shr_m mrs = q) by (apply iter_shr_m; simpl; lia).
  assert (Hfirst : shr_fexp 53 1024 (Z.pos M) E loc_Exact = (mrs, E + Z.pos n)).
  { unfold shr_fexp. rewrite (Zdigits2_bounds M (53 + n)).
    - unfold fexp, emin. rewrite Z.max_l by lia.
      replace (Z.pos (53 + n) + E - 53 - E) with (Z.pos n) by lia. reflexivity.
    - replace (Z.pos (53 + n) - 1) with (52 + Z.pos n) by lia.
      replace (Z.pos (53 + n)) with (53 + Z.pos n) by lia. exact HM. }
  set (m2 := round_nearest_even (shr_m mrs) (loc_of_shr_record mrs)).
  assert (Hexact : Z.pos M mod 2 ^ Z.pos n = 0 -> m2 = q).
  { intros Hd. unfold m2, mrs. rewrite iter_shr_exact by (assumption || lia). reflexivity. }
  assert (Hm2 : m2 = q \/ m2 = q + 1).
  { unfold m2. rewrite Hmrs. apply round_nearest_even_cases. }
  assert (Hpos : exists m' : positive, m2 = Z.pos m').
  { destruct m2 as [|p|p]; [lia | eauto | lia]. }
  destruct Hpos as [m' Hm'].
  exists m'. rewrite <- Hm'. split; [lia|]. split; [exact Hexact|].
  unfold binary_round_aux. rewrite Hfirst. fold m2.
  destruct (Z_lt_ge_dec m2 (2 ^ 53)) as [Hlt|Hge].
  - left. split; [exact Hlt|].
    rewrite Hm'. rewrite shr_fexp_fits by lia. simpl shr_m.
    replace (E + Z.pos n <=? 1024 - 53) with true by (symmetry; apply Z.leb_le; lia).
    reflexivity.
  - right. assert (Heq : m2 = 2 ^ 53) by lia. split; [exact Heq|].
    rewrite Heq. rewrite shr_fexp_carry by lia. simpl shr_m.
    replace (E + Z.pos n + 1 <=? 1024 - 53) with true by (symmetry; apply Z.leb_le; lia).
    reflexivity.
Qed.

Lemma mul_finite m e mc ec :
  Js.mul (S754_finite false m e) (S754_finite false mc ec)
  = binary_round_aux 53 1024 false (Z.pos (m * mc)) (e + ec) loc_Exact.
Proof. reflexivity. Qed.

(** The product of two positive doubles whose exact mantissa has [53 + n]
    bits. *)
Lemma mul_rounds (m mc : positive) (e ec : Z) (n : positive) :
  2 ^ (52 + Z.pos n) <= Z.pos m * Z.pos mc < 2 ^ (53 + Z.pos n) ->
  -1074 <= e + ec + Z.pos n <= 970 ->
  exists (m' : positive) (e' : Z),
    Js.mul (S754_finite false m e) (S754_finite false mc ec) = S754_finite false m' e' /\
    ((e' = e + ec + Z.pos n /\
      Z.pos m * Z.pos mc / 2 ^ Z.pos n <= Z.pos m' <= Z.pos m * Z.pos mc / 2 ^ Z.pos n + 1 /\
      Z.pos m' < 2 ^ 53 /\
      ((Z.pos m * Z.pos mc) mod 2 ^ Z.pos n = 0 ->
       Z.pos m' = Z.pos m * Z.pos mc / 2 ^ Z.pos n)) \/
     (e' = e + ec + Z.pos n + 1 /\ Z.pos m' = 2 ^ 52 /\
      2 ^ 53 - 1 <= Z.pos m * Z.pos mc / 2 ^ Z.pos n)).
Proof.
  intros HM He. rewrite mul_finite.
  destruct (binary_round_aux_bounds (m * mc) (e + ec) n)
    as (m' & Hb & Hex & [[Hlt ->]|[Heq ->]]);
    rewrite ?Pos2Z.inj_mul in *; try lia.
  - exists m', (e + ec + Z.pos n). split; [reflexivity|]. left. auto.
  - exists 4503599627370496%positive, (e + ec + Z.pos n + 1). split; [reflexivity|].
    right. split; [reflexivity|]. split; [reflexivity|]. lia.
Qed.

(** * The ease factor stays between [MIN_EASE] and [MAX_EASE] *)

(** The constants, bit for bit: 1.3 is [0x3FF4CCCCCCCCCCCD], 0.8 is
    [0x3FE999999999999A], 0.5, 2.5 and 3 are exact. *)
Example constants_bits :
  SPACED_REPETITION.MIN_EASE = S754_finite false 0x14CCCCCCCCCCCD (-52) /\
  SPACED_REPETITION.HARD_MULTIPLIER = S754_finite false 0x1999999999999A (-53) /\
  SPACED_REPETITION.AGAIN_MULTIPLIER = S754_finite false 0x10000000000000 (-53) /\
  SPACED_REPETITION.INITIAL_EASE = S754_finite false 0x14000000000000 (-51) /\
  SPACED_REPETITION.MAX_EASE = S754_finite false 0x18000000000000 (-51).
Proof. repeat split. Qed.

(** [Math.floor] on a few values: 32.5, 0.5, -0.5 and 39. *)
Example floor_values :
  Js.Math_floor (Js.div (Js.of_Z 65) (Js.of_Z 2)) = Js.of_Z 32 /\
  Js.Math_floor (Js.div (Js.of_Z 1) (Js.of_Z 2)) = S754_zero false /\
  Js.Math_floor (Js.div (Js.of_Z (-1)) (Js.of_Z 2)) = Js.of_Z (-1) /\
  Js.Math_floor (Js.of_Z 39) = Js.of_Z 39.
Proof. repeat split. Qed.

Lemma SFcompare_same_exp m1 m2 e :
  SFcompare (S754_finite false m1 e) (S754_finite false m2 e)
  = Some (Z.pos m1 ?= Z.pos m2).
Proof. simpl. rewrite Z.compare_refl. reflexivity. Qed.

Lemma SFcompare_exp_lt m1 e1 m2 e2 :
  e1 < e2 -> SFcompare (S754_finite false m1 e1) (S754_finite false m2 e2) = Some Lt.
Proof. intros H. simpl. rewrite (proj2 (Z.compare_lt_iff e1 e2) H). reflexivity. Qed.

Lemma SFcompare_exp_gt m1 e1 m2 e2 :
  e2 < e1 -> SFcompare (S754_finite false m1 e1) (S754_finite false m2 e2) = Some Gt.
Proof. intros H. simpl. rewrite (proj2 (Z.compare_gt_iff e1 e2) H). reflexivity. Qed.

(** A value in range compares as the claim says: [MIN_EASE <= x <= MAX_EASE]. *)
Lemma ease_in_range_bounds x :
  ease_in_range x ->
  Js.leb SPACED_REPETITION.MIN_EASE x = true /\ Js.leb x SPACED_REPETITION.MAX_EASE = true.
Proof.
  intros (m & e & -> & [[-> Hm]|[-> Hm]]); unfold Js.leb, SFleb,
    SPACED_REPETITION.MIN_EASE, SPACED_REPETITION.MAX_EASE.
  - rewrite SFcompare_same_exp, SFcompare_exp_lt by lia. split; [|reflexivity].
    destruct (Z.compare_spec 5854679515581645 (Z.pos m)); try reflexivity. lia.
  - rewrite SFcompare_exp_lt, SFcompare_same_exp by lia. split; [reflexivity|].
    destruct (Z.compare_spec (Z.pos m) 6755399441055744); try reflexivity. lia.
Qed.

(** [Math.max(MIN_EASE, y)] for a positive [y] below 3. *)
Lemma clamp_below (m' : positive) (e' : Z) :
  e' = -53 \/ (e' = -52 /\ Z.pos m' < 9007199254740992) \/
  (e' = -51 /\ 4503599627370496 <= Z.pos m' <= 6755399441055744) ->
  ease_in_range (Js.Math_max SPACED_REPETITION.MIN_EASE (S754_finite false m' e')).
Proof.
  unfold SPACED_REPETITION.MIN_EASE, Js.Math_max. intros [->|[[-> H]|[-> H]]].
  - rewrite SFcompare_exp_gt by lia.
    exists 5854679515581645%positive, (-52). split; [reflexivity|]. left. lia.
  - rewrite SFcompare_same_exp.
    destruct (Z.compare_spec 5854679515581645 (Z.pos m')).
    + exists 5854679515581645%positive, (-52). split; [reflexivity|]. left. lia.
    + exists m', (-52). split; [reflexivity|]. left. lia.
    + exists 5854679515581645%positive, (-52). split; [reflexivity|]. left. lia.
  - rewrite SFcompare_exp_lt by lia.
    exists m', (-51). split; [reflexivity|]. right. lia.
Qed.

(** [Math.min(MAX_EASE, y)] for a [y] of at least 1.3. *)
Lemma clamp_above (m' : positive) (e' : Z) :
  (e' = -52 /\ 5854679515581645 <= Z.pos m' < 9007199254740992) \/
  (e' = -51 /\ 4503599627370496 <= Z.pos m') ->
  ease_in_range (Js.Math_min SPACED_REPETITION.MAX_EASE (S754_finite false m' e')).
Proof.
  unfold SPACED_REPETITION.MAX_EASE, Js.Math_min. intros [[-> H]|[-> H]].
  - rewrite SFcompare_exp_gt by lia.
    exists m', (-52). split; [reflexivity|]. left. lia.
  - rewrite SFcompare_same_exp.
    destruct (Z.compare_spec 6755399441055744 (Z.pos m')).
    + exists 6755399441055744%positive, (-51). split; [reflexivity|]. right. lia.
    + exists 6755399441055744%positive, (-51). split; [reflexivity|]. right. lia.
    + exists m', (-51). split; [reflexivity|]. right. lia.
Qed.

(** Powers of two become numerals, quotients by numerals become linear. *)
Ltac pow2 :=
  repeat match goal with
         | |- context [2 ^ ?k] =>
             let v := eval vm_compute in (2 ^ k) in change (2 ^ k) with v
         | H : context [2 ^ ?k] |- _ =>
             let v := eval vm_compute in (2 ^ k) in change (2 ^ k) with v in H
         end.
Ltac arith := pow2; Z.div_mod_to_equations; lia.

Lemma ease_again x :
  ease_in_range x ->
  ease_in_range (Js.Math_max SPACED_REPETITION.MIN_EASE
                   (Js.mul x SPACED_REPETITION.AGAIN_MULTIPLIER)).
Proof.
  intros (m & e & -> & [[-> Hm]|[-> Hm]]); unfold SPACED_REPETITION.AGAIN_MULTIPLIER.
  - destruct (mul_rounds m 4503599627370496 (-52) (-53) 52)
      as (m' & e' & -> & [(-> & Hb & Hlt & Hex)|(-> & Hc & Hq)]); [arith | arith | |];
      apply clamp_below; arith.
  - destruct (mul_rounds m 4503599627370496 (-51) (-53) 52)
      as (m' & e' & -> & [(-> & Hb & Hlt & Hex)|(-> & Hc & Hq)]); [arith | arith | |];
      apply clamp_below; arith.
Qed.

Lemma ease_hard x :
  ease_in_range x ->
  ease_in_range (Js.Math_max SPACED_REPETITION.MIN_EASE
                   (Js.mul x SPACED_REPETITION.HARD_MULTIPLIER)).
Proof.
  intros (m & e & -> & [[-> Hm]|[-> Hm]]); unfold SPACED_REPETITION.HARD_MULTIPLIER.
  - destruct (mul_rounds m 7205759403792794 (-52) (-53) 53)
      as (m' & e' & -> & [(-> & Hb & Hlt & Hex)|(-> & Hc & Hq)]); [arith | arith | |];
      apply clamp_below; arith.
  - destruct (Z_lt_ge_dec (Z.pos m * 7205759403792794) (2 ^ 105)) as [Hd|Hd].
    + destruct (mul_rounds m 7205759403792794 (-51) (-53) 52)
        as (m' & e' & -> & [(-> & Hb & Hlt & Hex)|(-> & Hc & Hq)]); [arith | arith | |];
        apply clamp_below; arith.
    + destruct (mul_rounds m 7205759403792794 (-51) (-53) 53)
        as (m' & e' & -> & [(-> & Hb & Hlt & Hex)|(-> & Hc & Hq)]); [arith | arith | |];
        apply clamp_below; arith.
Qed.

Lemma ease_easy x :
  ease_in_range x ->
  ease_in_range (Js.Math_min SPACED_REPETITION.MAX_EASE
                   (Js.mul x SPACED_REPETITION.EASY_MULTIPLIER)).
Proof.
  intros (m & e & -> & [[-> Hm]|[-> Hm]]); unfold SPACED_REPETITION.EASY_MULTIPLIER.
  - destruct (Z_lt_ge_dec (Z.pos m * 5854679515581645) (2 ^ 105)) as [Hd|Hd].
    + destruct (mul_rounds m 5854679515581645 (-52) (-52) 52)
        as (m' & e' & -> & [(-> & Hb & Hlt & Hex)|(-> & Hc & Hq)]); [arith | arith | |];
        apply clamp_above; arith.
    + destruct (mul_rounds m 5854679515581645 (-52) (-52) 53)
        as (m' & e' & -> & [(-> & Hb & Hlt & Hex)|(-> & Hc & Hq)]); [arith | arith | |];
        apply clamp_above; arith.
  - destruct (mul_rounds m 5854679515581645 (-51) (-52) 52)
      as (m' & e' & -> & [(-> & Hb & Hlt & Hex)|(-> & Hc & Hq)]); [arith | arith | |];
      apply clamp_above; arith.
Qed.

Lemma ease_in_range_initial : ease_in_range SPACED_REPETITION.INITIAL_EASE.
Proof. exists 5629499534213120%positive, (-51). split; [reflexivity|]. right. lia. Qed.

Lemma ease_in_range_step rd quality :
  ease_in_range (ReviewData.easeFactor rd) ->
  ease_in_range (Review.newEaseFactor rd quality).
Proof.
  intros H. destruct quality; simpl.
  - apply ease_again, H.
  - apply ease_hard, H.
  - exact H.
  - apply ease_easy, H.
Qed.

Lemma ease_in_range_scheduleAll calls : forall rd,
  ease_in_range (ReviewData.easeFactor rd) ->
  ease_in_range (ReviewData.easeFactor (scheduleAll rd calls)).
Proof.
  unfold scheduleAll. induction calls as [|c calls IH]; intros rd H; simpl; [exact H|].
  apply IH. simpl. apply ease_in_range_step, H.
Qed.

(** * Strings *)

Lemma append_cons c s t : String c s +:+ t = String c (s +:+ t).
Proof. reflexivity. Qed.

Lemma starts_with_spec p s :
  JsString.starts_with p s = true <-> exists post, s = p +:+ post.
Proof.
  revert s. induction p as [|a p IH]; intros s; simpl.
  - split; [intros _; exists s; reflexivity | reflexivity].
  - destruct s as [|b s]; simpl.
    + split; [discriminate | intros [post H]; rewrite append_cons in H; discriminate].
    + destruct (Ascii.eqb_spec a b) as [->|Hne].
      * rewrite IH. split; intros [post H]; exists post;
          [rewrite H; reflexivity | rewrite append_cons in H; congruence].
      * split; [discriminate | intros [post H]; rewrite append_cons in H; congruence].
Qed.

(** [includes] decides occurrence as a substring. *)
Lemma includes_spec s t : JsString.includes s t = true <-> is_substring t s.
Proof.
  unfold is_substring. induction s as [|c s IH].
  - simpl. rewrite orb_false_r, starts_with_spec. split.
    + intros [post H]. exists EmptyString, post. exact H.
    + intros (pre & post & H).
      destruct pre; [exists post; exact H | rewrite append_cons in H; discriminate].
  - cbn [JsString.includes]. rewrite orb_true_iff, starts_with_spec, IH. split.
    + intros [[post H]|(pre & post & H)].
      * exists EmptyString, post. exact H.
      * exists (String c pre), post. rewrite append_cons, H. reflexivity.
    + intros (pre & post & H). destruct pre as [|c' pre].
      * left. exists post. exact H.
      * right. rewrite append_cons in H. injection H as -> H. eauto.
Qed.

Lemma trimEnd_empty t : JsString.trimEnd t = EmptyString <-> blank t.
Proof.
  induction t as [|c t IH]; simpl; [tauto|].
  destruct (JsString.trimEnd t) eqn:E.
  - destruct (JsString.is_whitespace c); split; try tauto; try discriminate.
    intros [H _]. discriminate.
  - split; [discriminate|]. intros [_ H]. apply IH in H. discriminate.
Qed.

Lemma trimStart_blank s : blank (JsString.trimStart s) <-> blank s.
Proof.
  induction s as [|c s IH]; simpl; [tauto|].
  destruct (JsString.is_whitespace c) eqn:E; simpl.
  - rewrite IH. tauto.
  - rewrite E. tauto.
Qed.

(** [!query.trim()] holds exactly of the blank queries. *)
Lemma trim_blank s : JsString.truthy (JsString.trim s) = false <-> blank s.
Proof.
  unfold JsString.truthy, JsString.nonempty, JsString.trim.
  rewrite <- trimStart_blank, <- trimEnd_empty.
  destruct (JsString.trimEnd (JsString.trimStart s)); cbn; split; intros H;
    try reflexivity; discriminate H.
Qed.

(** Lower-casing neither makes nor removes a space. *)
Lemma is_space_lower c : JsString.is_space (JsString.lower_char c) = JsString.is_space c.
Proof. destruct c as [[] [] [] [] [] [] [] []]; reflexivity. Qed.

Lemma split_space_lower s :
  JsString.split_space (JsString.toLowerCase s)
  = map JsString.toLowerCase (JsString.split_space s).
Proof.
  induction s as [|c s IH]; simpl; [reflexivity|].
  rewrite is_space_lower, IH. destruct (JsString.is_space c); [reflexivity|].
  destruct (JsString.split_space s); reflexivity.
Qed.

Lemma nonempty_iff s : JsString.nonempty s = true <-> s <> EmptyString.
Proof.
  destruct s; cbn; split; intros H; try reflexivity; try discriminate H; congruence.
Qed.

(** Splitting the lower-cased query gives the terms of the amended claim. *)
Lemma searchTerms_spec query term :
  term ∈ PKMStorage.searchTerms query <-> term ∈ spec_searchTerms query.
Proof.
  unfold PKMStorage.searchTerms, spec_searchTerms.
  rewrite split_space_lower, !list_elem_of_filter, nonempty_iff. reflexivity.
Qed.

Lemma matches_spec terms note :
  PKMStorage.matches terms note = true
  <-> forall term, term ∈ terms -> is_substring term (PKMStorage.searchableText note).
Proof.
  unfold PKMStorage.matches. rewrite forallb_forall. split.
  - intros H term Hin. apply includes_spec, H, list_elem_of_In, Hin.
  - intros H term Hin. apply includes_spec, H, list_elem_of_In, Hin.
Qed.


(** *** Counting words *)

(** The first piece of [split(/\s+/)] is non-empty exactly when the string
    starts with a character that is not white space. *)
Lemma split_whitespace_head s :
  exists h t, JsString.split_whitespace s = h :: t /\
              JsString.nonempty h = starts_with_word s.
Proof.
  induction s as [|c s (h & t & Hs & Hh)]; simpl.
  - exists EmptyString, []. split; reflexivity.
  - destruct (JsString.is_whitespace c) eqn:Hc; simpl.
    + destruct s as [|c' s']; simpl in *.
      * exists EmptyString, [EmptyString]. split; reflexivity.
      * destruct (JsString.is_whitespace c') eqn:Hc'; simpl in *.
        -- exists h, t. split; [exact Hs | exact Hh].
        -- eexists EmptyString, _. split; reflexivity.
    + rewrite Hs. simpl. exists (String c h), t. split; reflexivity.
Qed.

Lemma count_tokens_inside s :
  (count_tokens false s
   = (if starts_with_word s then 1 else 0) + count_tokens true s)%nat.
Proof.
  destruct s as [|c s]; simpl; [reflexivity|].
  destruct (JsString.is_whitespace c); reflexivity.
Qed.

(** The word count of the code is the number of maximal runs of characters
    that are not white space. *)
Lemma wordCountOf_tokens s : wordCountOf s = Z.of_nat (count_tokens false s).
Proof.
  unfold wordCountOf. f_equal.
  induction s as [|c s IH]; [reflexivity|].
  cbn [JsString.split_whitespace count_tokens].
  destruct (JsString.is_whitespace c) eqn:Hc.
  - destruct (JsString.starts_with_whitespace s); [exact IH|].
    rewrite filter_cons_False by (cbn; discriminate). exact IH.
  - destruct (split_whitespace_head s) as (h & t & Hs & Hh).
    rewrite Hs in *. cbn [JsString.cons_head].
    rewrite filter_cons_True by reflexivity. cbn [length Nat.add].
    rewrite count_tokens_inside in IH. rewrite <- Hh in IH.
    destruct (JsString.nonempty h) eqn:Hne.
    + rewrite filter_cons_True in IH by exact Hne. cbn [length] in IH. lia.
    + rewrite filter_cons_False in IH by (rewrite Hne; discriminate). lia.
Qed.

(** * The object stores *)

(** [getAll] lists exactly the records of the store. *)
Lemma elem_of_getAll {V} (m : gmap string V) (v : V) :
  v ∈ PKMStorage.getAll m <-> exists k, m !! k = Some v.
Proof.
  unfold PKMStorage.getAll. rewrite list_elem_of_fmap. split.
  - intros ([k v'] & -> & Hin). rewrite merge_sort_Permutation in Hin.
    apply elem_of_map_to_list in Hin. eauto.
  - intros [k Hk]. exists (k, v). split; [reflexivity|].
    rewrite merge_sort_Permutation. apply elem_of_map_to_list. exact Hk.
Qed.

Lemma storage_updateNote_open w note :
  World.opened w = true ->
  PKMStorage.updateNote note w
  = (Returned tt,
     World.mk true (DB.set_notes (insert (Note.id note) note) (World.idb w)) (World.store w)).
Proof.
  intros Ho. unfold PKMStorage.updateNote, bind, PKMStorage.ensureDB, PKMStorage.write.
  rewrite Ho. simpl. rewrite Ho. reflexivity.
Qed.

Lemma storage_updateNote_closed w note :
  World.opened w = false -> PKMStorage.updateNote note w = (Thrown NotInitialized, w).
Proof.
  intros Ho. unfold PKMStorage.updateNote, bind, PKMStorage.ensureDB. rewrite Ho. reflexivity.
Qed.

(** * The actions, step by step *)

Import usePKMStore.

Lemma mergeStats_all s s' : mergeStats s (allStats s') = s'.
Proof. destruct s'; reflexivity. Qed.

Lemma updateStats_open w s' :
  World.opened w = true ->
  updateStats (allStats s') w
  = (Returned tt,
     World.mk true (DB.set_stats (Some s') (World.idb w))
       (PKMStore.set_stats s' (World.store w))).
Proof.
  intros Ho. unfold updateStats, PKMStorage.updateStats, bind, get, set,
    PKMStorage.ensureDB, PKMStorage.write.
  simpl. rewrite Ho. simpl. rewrite ?Ho, mergeStats_all. reflexivity.
Qed.

Lemma findNote_Some id notes n :
  findNote id notes = Some n -> exists i, list_find (hasId id) notes = Some (i, n).
Proof.
  unfold findNote. destruct (list_find _ _) as [[i x]|]; simpl; [|discriminate].
  intros [= ->]. eauto.
Qed.

Lemma findNote_None id notes :
  findNote id notes = None -> list_find (hasId id) notes = None.
Proof.
  unfold findNote. destruct (list_find _ _) as [[i x]|]; simpl; [discriminate|reflexivity].
Qed.

Lemma findNote_id id notes n : findNote id notes = Some n -> Note.id n = id.
Proof.
  intros H. apply findNote_Some in H as [i H].
  apply list_find_Some in H as (_ & H & _). exact H.
Qed.

Lemma findNote_cons id n notes :
  findNote id (n :: notes) = if decide (Note.id n = id) then Some n else findNote id notes.
Proof.
  unfold findNote. cbn [list_find]. unfold hasId at 1.
  destruct (decide (Note.id n = id)); [reflexivity|].
  destruct (list_find _ notes) as [[i x]|]; reflexivity.
Qed.

(** After [notes.map(...)] the first note with the id is the updated one. *)
Lemma findNote_replaceNote id u notes n :
  findNote id notes = Some n -> Note.id u = id ->
  findNote id (replaceNote id u notes) = Some u.
Proof.
  intros Hf Hu. induction notes as [|x notes IH]; [discriminate|].
  rewrite findNote_cons in Hf. simpl. rewrite findNote_cons.
  destruct (decide (Note.id x = id)) as [Hx|Hx].
  - rewrite decide_True by assumption. reflexivity.
  - rewrite decide_False by assumption. apply IH. exact Hf.
Qed.

Lemma updateNote_missing w id updates now :
  list_find (hasId id) (PKMStore.notes (World.store w)) = None ->
  updateNote id updates now w = (Returned tt, w).
Proof.
  intros Hf. unfold updateNote, bind, get. simpl. rewrite Hf. reflexivity.
Qed.

Lemma updateNote_open w id updates now i old :
  World.opened w = true ->
  list_find (hasId id) (PKMStore.notes (World.store w)) = Some (i, old) ->
  updateNote id updates now w
  = (Returned tt,
     let u := updatedNoteOf old updates now in
     World.mk true (DB.set_notes (insert (Note.id u) u) (World.idb w))
       (PKMStore.set_notes (replaceNote id u) (World.store w))).
Proof.
  intros Ho Hf. unfold updateNote, bind, get. simpl. rewrite Hf.
  rewrite storage_updateNote_open by assumption. reflexivity.
Qed.

Lemma updateNote_closed w id updates now i old :
  World.opened w = false ->
  list_find (hasId id) (PKMStore.notes (World.store w)) = Some (i, old) ->
  updateNote id updates now w = (Thrown NotInitialized, w).
Proof.
  intros Ho Hf. unfold updateNote, bind, get. simpl. rewrite Hf.
  rewrite storage_updateNote_closed by assumption. reflexivity.
Qed.

(** [updateNote] rebuilds [metadata] from the stored note: the link lists a
    caller passes in [updates.metadata] never reach the note. *)
Lemma updatedNoteOf_keeps_links old updates now :
  NoteMetadata.links (Note.metadata (updatedNoteOf old updates now))
  = NoteMetadata.links (Note.metadata old) /\
  NoteMetadata.backlinks (Note.metadata (updatedNoteOf old updates now))
  = NoteMetadata.backlinks (Note.metadata old).
Proof. split; reflexivity. Qed.

(** [updateNote] recounts the words of a content that is not empty. *)
Lemma updatedNoteOf_recounts old updates now content :
  PartialNote.content updates = Some content -> content <> EmptyString ->
  Note.content (updatedNoteOf old updates now) = content /\
  NoteMetadata.wordCount (Note.metadata (updatedNoteOf old updates now))
  = wordCountOf content.
Proof.
  intros Hc Hne. unfold updatedNoteOf. rewrite Hc. simpl.
  destruct content; [contradiction|]. split; reflexivity.
Qed.

(** [updateTag] and [deleteLink] on an id that is not in the store. *)
Lemma updateTag_missing w id updates :
  list_find (fun tag => Tag.id tag = id) (PKMStore.tags (World.store w)) = None ->
  updateTag id updates w = (Returned tt, w).
Proof.
  intros Hf. unfold updateTag, bind, get. simpl. rewrite Hf. reflexivity.
Qed.

Lemma deleteLink_missing w id nowSource nowTarget :
  list_find (fun l => NoteLink.id l = id) (PKMStore.links (World.store w)) = None ->
  deleteLink id nowSource nowTarget w = (Returned tt, w).
Proof.
  intros Hf. unfold deleteLink, bind, get. simpl. rewrite Hf. reflexivity.
Qed.

(** [deleteNote] has no guard: on an opened database it returns, and the
    statistics it writes are the old ones with [totalNotes] decremented
    (not below zero) and [totalLinks] as it was, whatever the id. *)
Lemma deleteNote_stats w id :
  World.opened w = true ->
  fst (deleteNote id w) = Returned tt /\
  PKMStore.stats (World.store (exec (deleteNote id) w))
  = afterDeleteStats (PKMStore.stats (World.store w)).
Proof.
  intros Ho. unfold exec, deleteNote, PKMStorage.deleteNote, PKMStorage.transaction,
    bind, PKMStorage.ensureDB, PKMStorage.write, get, set.
  rewrite Ho. simpl.
  rewrite updateStats_open by exact Ho. split; reflexivity.
Qed.

(** [deleteNote] filters the links of the store in both directions. *)
Lemma deleteNote_links w id :
  World.opened w = true ->
  PKMStore.links (World.store (exec (deleteNote id) w))
  = filter (fun link => NoteLink.sourceId link <> id /\ NoteLink.targetId link <> id)
           (PKMStore.links (World.store w)).
Proof.
  intros Ho. unfold exec, deleteNote, PKMStorage.deleteNote, PKMStorage.transaction,
    bind, PKMStorage.ensureDB, PKMStorage.write, get, set.
  rewrite Ho. simpl.
  rewrite updateStats_open by exact Ho. reflexivity.
Qed.

(** *** The cascade of [deleteNote] in the database *)

Lemma lookup_deleteEach ls : forall (m : gmap string NoteLink.t) k,
  PKMStorage.deleteEach ls m !! k
  = if decide (k ∈ map NoteLink.id ls) then None else m !! k.
Proof.
  unfold PKMStorage.deleteEach.
  induction ls as [|l ls IH]; intros m k; cbn [foldl map].
  - destruct (decide (k ∈ [])) as [Hin|_]; [|reflexivity].
    apply not_elem_of_nil in Hin. contradiction.
  - rewrite IH.
    destruct (decide (k ∈ map NoteLink.id ls)) as [Hin|Hnin];
      destruct (decide (k ∈ NoteLink.id l :: map NoteLink.id ls)) as [Hin'|Hnin'];
      try reflexivity.
    + exfalso. apply Hnin'. apply list_elem_of_further. exact Hin.
    + apply elem_of_cons in Hin' as [Heq|Hin']; [|contradiction].
      subst k. apply lookup_delete_eq.
    + apply lookup_delete_ne. intros Heq. apply Hnin'. rewrite <- Heq.
      apply list_elem_of_here.
Qed.

(** Deleting by the id of each record found under an index value removes
    exactly the records with that value, when records sit under their id. *)
Lemma deleteEach_index (f : NoteLink.t -> string) (id : string)
    (m : gmap string NoteLink.t) (k : string) (l : NoteLink.t) :
  keyed_by_id m ->
  PKMStorage.deleteEach (filter (fun l => f l = id) (PKMStorage.getAll m)) m !! k = Some l
  <-> m !! k = Some l /\ f l <> id.
Proof.
  intros Hkeyed. rewrite lookup_deleteEach. split.
  - destruct (decide _) as [Hin|Hnin]; [discriminate|]. intros Hk. split; [exact Hk|].
    intros Hf. apply Hnin. apply list_elem_of_fmap. exists l. split.
    + symmetry. apply (Hkeyed k l Hk).
    + apply list_elem_of_filter. split; [exact Hf|]. apply elem_of_getAll. eauto.
  - intros [Hk Hf]. rewrite decide_False; [exact Hk|].
    intros Hin. apply list_elem_of_fmap in Hin as (l' & Hid & Hin).
    apply list_elem_of_filter in Hin as [Hf' Hin].
    apply elem_of_getAll in Hin as [k' Hk'].
    pose proof (Hkeyed k' l' Hk') as Hid'.
    assert (l' = l) by congruence. subst l'. contradiction.
Qed.

(** On an opened database whose links sit under their ids, [deleteNote(id)]
    keeps exactly the links that have [id] neither as source nor as target:
    both indexes are scanned. *)
Lemma deleteNote_cascade w id k l :
  World.opened w = true ->
  keyed_by_id (DB.links (World.idb w)) ->
  DB.links (World.idb (exec (deleteNote id) w)) !! k = Some l
  <-> DB.links (World.idb w) !! k = Some l /\
      NoteLink.sourceId l <> id /\ NoteLink.targetId l <> id.
Proof.
  intros Ho Hkeyed.
  assert (Hrun : DB.links (World.idb (exec (deleteNote id) w))
    = (fun links =>
         PKMStorage.deleteEach
           (filter (fun l => NoteLink.targetId l = id) (PKMStorage.getAll links)) links)
        (PKMStorage.deleteEach
           (filter (fun l => NoteLink.sourceId l = id)
                   (PKMStorage.getAll (DB.links (World.idb w))))
           (DB.links (World.idb w)))).
  { unfold exec, deleteNote, PKMStorage.deleteNote, PKMStorage.transaction,
      bind, PKMStorage.ensureDB, PKMStorage.write, get, set.
    rewrite Ho. simpl. rewrite updateStats_open by exact Ho. reflexivity. }
  rewrite Hrun. cbv beta.
  rewrite (deleteEach_index NoteLink.targetId).
  - rewrite (deleteEach_index NoteLink.sourceId) by exact Hkeyed. tauto.
  - intros k' l' Hk'. apply (deleteEach_index NoteLink.sourceId) in Hk' as [Hk' _];
      [|exact Hkeyed]. apply (Hkeyed k' l' Hk').
Qed.

Lemma reviewNote_missing w id quality now nowUpdate activityId :
  findNote id (PKMStore.notes (World.store w)) = None ->
  reviewNote id quality now nowUpdate activityId w = (Returned tt, w).
Proof.
  intros Hf. unfold reviewNote, bind, get. simpl. rewrite Hf. reflexivity.
Qed.

Lemma reviewNote_closed w id quality now nowUpdate activityId note :
  World.opened w = false ->
  findNote id (PKMStore.notes (World.store w)) = Some note ->
  reviewNote id quality now nowUpdate activityId w = (Thrown NotInitialized, w).
Proof.
  intros Ho Hf. destruct (findNote_Some _ _ _ Hf) as [i Hi].
  unfold reviewNote, bind, get. simpl. rewrite Hf.
  rewrite (updateNote_closed w id _ _ i note) by assumption. reflexivity.
Qed.

Lemma reviewNote_open w id quality now nowUpdate activityId note :
  World.opened w = true ->
  findNote id (PKMStore.notes (World.store w)) = Some note ->
  exists w',
    reviewNote id quality now nowUpdate activityId w = (Returned tt, w') /\
    World.opened w' = true /\
    PKMStore.notes (World.store w')
    = replaceNote id (reviewedNote note quality now nowUpdate)
        (PKMStore.notes (World.store w)) /\
    DB.notes (World.idb w')
    = <[id := reviewedNote note quality now nowUpdate]> (DB.notes (World.idb w)).
Proof.
  intros Ho Hf. destruct (findNote_Some _ _ _ Hf) as [i Hi].
  pose proof (findNote_id _ _ _ Hf) as Hid.
  unfold reviewNote, bind, get. simpl. rewrite Hf.
  rewrite (updateNote_open w id _ _ i note) by assumption. cbv zeta.
  rewrite updateStats_open by reflexivity.
  eexists. split; [reflexivity|]. simpl. repeat split.
  unfold reviewedNote. f_equal. exact Hid.
Qed.

(** One review on an opened database: the note found under the id
    afterwards, in the store and in the database, is the reviewed one. *)
Lemma reviewNote_step_open w id quality now nowUpdate activityId n :
  World.opened w = true ->
  findNote id (PKMStore.notes (World.store w)) = Some n ->
  let w' := exec (reviewNote id quality now nowUpdate activityId) w in
  World.opened w' = true /\
  findNote id (PKMStore.notes (World.store w')) = Some (reviewedNote n quality now nowUpdate) /\
  DB.notes (World.idb w') !! id = Some (reviewedNote n quality now nowUpdate).
Proof.
  intros Ho Hf.
  destruct (reviewNote_open w id quality now nowUpdate activityId n Ho Hf)
    as (w1 & Hrun & Ho1 & Hnotes & Hdb).
  unfold exec. rewrite Hrun. simpl. split; [exact Ho1|]. split.
  - rewrite Hnotes. apply (findNote_replaceNote id _ _ n); [exact Hf|].
    apply (findNote_id _ _ _ Hf).
  - rewrite Hdb. apply lookup_insert_eq.
Qed.

(** Without a database a review changes nothing. *)
Lemma reviewNote_step_closed w id quality now nowUpdate activityId :
  World.opened w = false ->
  exec (reviewNote id quality now nowUpdate activityId) w = w.
Proof.
  intros Ho. unfold exec.
  destruct (findNote id (PKMStore.notes (World.store w))) as [n|] eqn:Hf.
  - rewrite (reviewNote_closed w id _ _ _ _ n) by assumption. reflexivity.
  - rewrite reviewNote_missing by assumption. reflexivity.
Qed.

Lemma reviewAll_closed w id calls :
  World.opened w = false -> reviewAll id calls w = w.
Proof.
  intros Ho. unfold reviewAll. induction calls as [|c calls IH]; [reflexivity|].
  simpl. rewrite reviewNote_step_closed by assumption. exact IH.
Qed.

(** A sequence of reviews acts on the review data as [scheduleAll]. *)
Lemma reviewAll_open id calls : forall w n,
  World.opened w = true ->
  findNote id (PKMStore.notes (World.store w)) = Some n ->
  exists n',
    findNote id (PKMStore.notes (World.store (reviewAll id calls w))) = Some n' /\
    Note.reviewData n' = scheduleAll (Note.reviewData n) calls /\
    World.opened (reviewAll id calls w) = true.
Proof.
  unfold reviewAll, scheduleAll.
  induction calls as [|c calls IH]; intros w n Ho Hf; simpl.
  - exists n. auto.
  - destruct (reviewNote_step_open w id (ReviewCall.quality c) (ReviewCall.now c)
                (ReviewCall.nowUpdate c) (ReviewCall.activityId c) n Ho Hf)
      as (Ho1 & Hf1 & _).
    destruct (IH _ _ Ho1 Hf1) as (n' & Hf' & Hrd & Ho'). exists n'. auto.
Qed.

Lemma reviewCount_scheduleAll calls : forall rd,
  ReviewData.reviewCount (scheduleAll rd calls)
  = ReviewData.reviewCount rd + Z.of_nat (length calls).
Proof.
  unfold scheduleAll. induction calls as [|c calls IH]; intros rd; simpl; [lia|].
  rewrite IH. simpl. lia.
Qed.

Lemma scheduleAll_snoc rd calls c :
  scheduleAll rd (calls ++ [c])
  = Review.updatedReviewData (scheduleAll rd calls) (ReviewCall.quality c) (ReviewCall.now c).
Proof. unfold scheduleAll. rewrite foldl_app. reflexivity. Qed.

Lemma collectNote_missing w id :
  findNote id (PKMStore.notes (World.store w)) = None ->
  collectNote id w = (Returned tt, w).
Proof. intros Hf. unfold collectNote, bind, get. simpl. rewrite Hf. reflexivity. Qed.

Lemma collectNote_collected w id n :
  findNote id (PKMStore.notes (World.store w)) = Some n -> Note.isCollected n = true ->
  collectNote id w = (Returned tt, w).
Proof. intros Hf Hc. unfold collectNote, bind, get. simpl. rewrite Hf, Hc. reflexivity. Qed.

Lemma collectNote_closed w id n :
  World.opened w = false ->
  findNote id (PKMStore.notes (World.store w)) = Some n -> Note.isCollected n = false ->
  collectNote id w = (Thrown NotInitialized, w).
Proof.
  intros Ho Hf Hc. unfold collectNote, bind, get. simpl. rewrite Hf, Hc.
  rewrite storage_updateNote_closed by assumption. reflexivity.
Qed.

Lemma collectNote_open w id n :
  World.opened w = true ->
  findNote id (PKMStore.notes (World.store w)) = Some n -> Note.isCollected n = false ->
  collectNote id w
  = (Returned tt,
     World.mk true
       (DB.set_stats (Some (collectedStats (PKMStore.stats (World.store w))))
          (DB.set_notes (insert id (collected n)) (World.idb w)))
       (PKMStore.set_stats (collectedStats (PKMStore.stats (World.store w)))
          (PKMStore.set_notes (replaceNote id (collected n)) (World.store w)))).
Proof.
  intros Ho Hf Hc. pose proof (findNote_id _ _ _ Hf) as Hid.
  unfold collectNote, bind, get. simpl. rewrite Hf, Hc.
  rewrite storage_updateNote_open by assumption. unfold set. simpl.
  rewrite updateStats_open by reflexivity. simpl. rewrite Hid. reflexivity.
Qed.

(** What [searchNotes] leaves in [searchResults]. *)
Lemma searchNotes_results w query :
  World.opened w = true ->
  PKMStore.searchResults (World.store (exec (searchNotes query) w))
  = if JsString.truthy (JsString.trim query)
    then filter (fun note => PKMStorage.matches (PKMStorage.searchTerms query) note = true)
                (PKMStorage.getAll (DB.notes (World.idb w)))
    else [].
Proof.
  intros Ho. unfold exec, searchNotes.
  destruct (JsString.truthy (JsString.trim query)); [|reflexivity].
  unfold PKMStorage.searchNotes, PKMStorage.getAllNotes, bind, PKMStorage.ensureDB, ret, set.
  rewrite Ho. reflexivity.
Qed.

(** * The claims *)

(** ** Link bookkeeping *)

(** Claim C1 (the code departs from it).  [createLink("a", "b", 'related')]
    on two existing notes returns and stores the link, yet afterwards the
    note that [getNote("a")] returns does not have ["b"] in [metadata.links]
    and the note that [getNote("b")] returns does not have ["a"] in
    [metadata.backlinks] (both lists are empty), in the database and in the
    store alike: [updateNote] discards the metadata that [createLink] hands
    it (see [updatedNoteOf_keeps_links]). *)
Theorem C1_createLink_leaves_notes_unlinked :
  let w := Scenario.twoNotes in
  let w' := exec (createLink "a" "b" related None "l1" 3000 3001 3002) w in
  fst (createLink "a" "b" related None "l1" 3000 3001 3002 w) = Returned tt /\
  map NoteLink.id (PKMStorage.getAll (DB.links (World.idb w'))) = ["l1"] /\
  map NoteLink.id (PKMStore.links (World.store w')) = ["l1"] /\
  (exists a b,
     fst (PKMStorage.getNote "a" w') = Returned (Some a) /\
     fst (PKMStorage.getNote "b" w') = Returned (Some b) /\
     NoteMetadata.links (Note.metadata a) = [] /\
     NoteMetadata.backlinks (Note.metadata b) = [] /\
     ("b" ∉ NoteMetadata.links (Note.metadata a)) /\
     ("a" ∉ NoteMetadata.backlinks (Note.metadata b))) /\
  option_map (fun n => NoteMetadata.links (Note.metadata n))
    (findNote "a" (PKMStore.notes (World.store w'))) = Some [] /\
  option_map (fun n => NoteMetadata.backlinks (Note.metadata n))
    (findNote "b" (PKMStore.notes (World.store w'))) = Some [].
Proof.
  split; [vm_compute; reflexivity|]. split; [vm_compute; reflexivity|].
  split; [vm_compute; reflexivity|]. split; [|vm_compute; split; reflexivity].
  eexists. eexists.
  split; [vm_compute; reflexivity|]. split; [vm_compute; reflexivity|].
  split; [reflexivity|]. split; [reflexivity|].
  split; apply not_elem_of_nil.
Qed.

(** Claim C4 (the code departs from it).  In a world with two links from
    ["a"] to ["b"] and a link counter of 2, [deleteNote("a")] removes both
    links from the database and from the store, and leaves [totalLinks] at 2:
    only [totalNotes] is adjusted (see [deleteNote_stats]). *)
Theorem C4_deleteNote_keeps_link_counter :
  let w := Scenario.twoLinks in
  let w' := exec (deleteNote "a") w in
  map NoteLink.id (PKMStore.links (World.store w)) = ["l1"; "l2"] /\
  map NoteLink.sourceId (PKMStore.links (World.store w)) = ["a"; "a"] /\
  PKMStats.totalLinks (PKMStore.stats (World.store w)) = 2 /\
  fst (deleteNote "a" w) = Returned tt /\
  PKMStorage.getAll (DB.links (World.idb w')) = [] /\
  PKMStore.links (World.store w') = [] /\
  PKMStats.totalLinks (PKMStore.stats (World.store w')) = 2 /\
  option_map PKMStats.totalLinks (DB.stats (World.idb w')) = Some 2.
Proof. vm_compute. repeat split. Qed.

(** ** Snapshots *)

(** Claim C5 (the code departs from it).  The document exported from a
    database that holds the note ["a"], imported into a fresh database,
    brings the note back with its [createdAt] as the ISO string of the date
    where the original has the [Date]: the note read back is not the note
    that was exported. *)
Theorem C5_import_of_export_turns_dates_into_strings :
  exists doc,
    fst (exportData 9000 Scenario.twoNotes) = Returned doc /\
    let w' := exec (importData doc true) Scenario.fresh in
    fst (importData doc true Scenario.fresh) = Returned tt /\
    DB.notes (World.idb Scenario.twoNotes) !! "a" = Some Scenario.noteA /\
    Note.createdAt Scenario.noteA = DateObj 1000 /\
    option_map Note.createdAt (DB.notes (World.idb w') !! "a") = Some (DateIso 1000) /\
    option_map Note.createdAt (findNote "a" (PKMStore.notes (World.store w')))
    = Some (DateIso 1000) /\
    DB.notes (World.idb w') !! "a" <> Some Scenario.noteA.
Proof.
  eexists. split; [vm_compute; reflexivity|].
  vm_compute. repeat split. discriminate.
Qed.

(** ** Word count *)

(** Claim C8 (the code departs from it).  Updating the content of note ["a"]
    (three words) to the empty string stores the empty content and keeps the
    word count 3, where the empty content has no token at all: [updateNote]
    tests [updates.content] for truthiness, and the empty string is falsy. *)
Theorem C8_empty_content_keeps_word_count :
  let w := Scenario.twoNotes in
  let w' := exec (updateNote "a" (Scenario.contentUpdate "") 7000) w in
  fst (updateNote "a" (Scenario.contentUpdate "") 7000 w) = Returned tt /\
  option_map Note.content (findNote "a" (PKMStore.notes (World.store w'))) = Some "" /\
  option_map (fun n => NoteMetadata.wordCount (Note.metadata n))
    (findNote "a" (PKMStore.notes (World.store w'))) = Some 3 /\
  option_map Note.content (DB.notes (World.idb w') !! "a") = Some "" /\
  option_map (fun n => NoteMetadata.wordCount (Note.metadata n))
    (DB.notes (World.idb w') !! "a") = Some 3 /\
  count_tokens false "" = 0%nat /\
  wordCountOf "" = 0.
Proof. vm_compute. repeat split. Qed.

(** ** Ids that match nothing *)

(** Claim C9 (the code departs from it).  No note has the id ["ghost"] and
    no link mentions it, yet [deleteNote("ghost")] returns with [totalNotes]
    lowered from 2 to 1, in the store and in the database; the notes
    themselves are untouched.  [updateNote], [updateTag] and [deleteLink] do
    return at once on such an id ([updateNote_missing], [updateTag_missing],
    [deleteLink_missing]). *)
Theorem C9_deleteNote_of_unknown_id_changes_stats :
  let w := Scenario.twoNotes in
  let w' := exec (deleteNote "ghost") w in
  findNote "ghost" (PKMStore.notes (World.store w)) = None /\
  DB.notes (World.idb w) !! "ghost" = None /\
  PKMStore.links (World.store w) = [] /\
  fst (deleteNote "ghost" w) = Returned tt /\
  PKMStore.notes (World.store w') = PKMStore.notes (World.store w) /\
  PKMStats.totalNotes (PKMStore.stats (World.store w)) = 2 /\
  PKMStats.totalNotes (PKMStore.stats (World.store w')) = 1 /\
  option_map PKMStats.totalNotes (DB.stats (World.idb w')) = Some 1.
Proof. vm_compute. repeat split. Qed.

(** ** Spaced repetition *)

(** Claim C2, amended.  Reviewing with quality [easy] sets the ease factor to
    [min(MAX_EASE, e × EASY)] and the interval to [floor(i × EASY × e)],
    where [e] and [i] are the ease factor and the interval before the
    review: the interval is computed from the ease factor the note had, not
    from the new one. *)
Theorem C2_easy_interval_uses_previous_ease
    (w : World.t) (id : string) (n : Note.t) (now nowUpdate : Z) (activityId : string) :
  World.opened w = true ->
  findNote id (PKMStore.notes (World.store w)) = Some n ->
  exists n',
    findNote id
      (PKMStore.notes (World.store (exec (reviewNote id easy now nowUpdate activityId) w)))
    = Some n' /\
    ReviewData.easeFactor (Note.reviewData n')
    = Js.Math_min SPACED_REPETITION.MAX_EASE
        (Js.mul (ReviewData.easeFactor (Note.reviewData n))
                SPACED_REPETITION.EASY_MULTIPLIER) /\
    ReviewData.interval (Note.reviewData n')
    = Js.Math_floor
        (Js.mul (Js.mul (ReviewData.interval (Note.reviewData n))
                        SPACED_REPETITION.EASY_MULTIPLIER)
                (ReviewData.easeFactor (Note.reviewData n))).
Proof.
  intros Ho Hf.
  destruct (reviewNote_step_open w id easy now nowUpdate activityId n Ho Hf) as (_ & Hf' & _).
  exists (reviewedNote n easy now nowUpdate). split; [exact Hf'|]. split; reflexivity.
Qed.

Lemma C2_witness :
  World.opened Scenario.twoNotes = true /\
  findNote "a" (PKMStore.notes (World.store Scenario.twoNotes)) = Some Scenario.noteA /\
  exists n',
    findNote "a"
      (PKMStore.notes
         (World.store (exec (reviewNote "a" easy 5000 5001 "r1") Scenario.twoNotes)))
    = Some n' /\
    ReviewData.easeFactor (Note.reviewData n')
    = Js.Math_min SPACED_REPETITION.MAX_EASE
        (Js.mul (ReviewData.easeFactor (Note.reviewData Scenario.noteA))
                SPACED_REPETITION.EASY_MULTIPLIER) /\
    ReviewData.interval (Note.reviewData n')
    = Js.Math_floor
        (Js.mul (Js.mul (ReviewData.interval (Note.reviewData Scenario.noteA))
                        SPACED_REPETITION.EASY_MULTIPLIER)
                (ReviewData.easeFactor (Note.reviewData Scenario.noteA))).
Proof.
  split; [reflexivity|]. split; [vm_compute; reflexivity|].
  apply (C2_easy_interval_uses_previous_ease Scenario.twoNotes "a" Scenario.noteA);
    vm_compute; reflexivity.
Defined.

(** Claim C2 as stated fails.  A note with ease factor 2.5 and interval 10
    (a new note reviewed twice with [good]) reviewed with [easy] gets the
    ease factor 3 = min(3.0, 2.5 × 1.3) and the interval 32 =
    floor(10 × 1.3 × 2.5), whereas floor(10 × 1.3 × 3) is 39. *)
Lemma C2_counterexample :
  let w := Scenario.reviewedTwice in
  let w' := exec (reviewNote "a" easy 7000 7001 "activity_7000") w in
  exists n n',
    findNote "a" (PKMStore.notes (World.store w)) = Some n /\
    findNote "a" (PKMStore.notes (World.store w')) = Some n' /\
    ReviewData.easeFactor (Note.reviewData n) = Js.div (Js.of_Z 25) (Js.of_Z 10) /\
    ReviewData.interval (Note.reviewData n) = Js.of_Z 10 /\
    ReviewData.easeFactor (Note.reviewData n')
    = Js.Math_min SPACED_REPETITION.MAX_EASE
        (Js.mul (ReviewData.easeFactor (Note.reviewData n))
                SPACED_REPETITION.EASY_MULTIPLIER) /\
    ReviewData.easeFactor (Note.reviewData n') = Js.of_Z 3 /\
    ReviewData.interval (Note.reviewData n') = Js.of_Z 32 /\
    Js.Math_floor
      (Js.mul (Js.mul (ReviewData.interval (Note.reviewData n))
                      SPACED_REPETITION.EASY_MULTIPLIER)
              (ReviewData.easeFactor (Note.reviewData n'))) = Js.of_Z 39 /\
    ReviewData.interval (Note.reviewData n')
    <> Js.Math_floor
         (Js.mul (Js.mul (ReviewData.interval (Note.reviewData n))
                         SPACED_REPETITION.EASY_MULTIPLIER)
                 (ReviewData.easeFactor (Note.reviewData n'))).
Proof.
  eexists. eexists.
  split; [vm_compute; reflexivity|]. split; [vm_compute; reflexivity|].
  vm_compute. repeat split. discriminate.
Qed.

(** Claim C3, amended.  After a review the note is [learning] when the grade
    is [again]; otherwise it is [mastered] when the review count before the
    review was at least 20 and [reviewing] when it was below 20; the count
    itself grows by one whatever the grade, [again] included.  Hence, after
    any sequence of reviews, the note is [mastered] exactly when the last
    review was not graded [again] and at least 20 reviews of any grade came
    before it, those the note had before the sequence included: a note never
    reviewed before becomes [mastered] on its 21st review or later, whether
    or not the earlier ones were successful. *)
Theorem C3_status_after_review (w : World.t) (id : string) (n : Note.t) :
  World.opened w = true ->
  findNote id (PKMStore.notes (World.store w)) = Some n ->
  (forall quality now nowUpdate activityId,
     exists n',
       findNote id
         (PKMStore.notes
            (World.store (exec (reviewNote id quality now nowUpdate activityId) w)))
       = Some n' /\
       ReviewData.reviewCount (Note.reviewData n')
       = ReviewData.reviewCount (Note.reviewData n) + 1 /\
       (quality = again -> ReviewData.status (Note.reviewData n') = st_learning) /\
       (quality <> again ->
        (20 <= ReviewData.reviewCount (Note.reviewData n) ->
         ReviewData.status (Note.reviewData n') = st_mastered) /\
        (ReviewData.reviewCount (Note.reviewData n) < 20 ->
         ReviewData.status (Note.reviewData n') = st_reviewing))) /\
  (forall calls c,
     exists n',
       findNote id (PKMStore.notes (World.store (reviewAll id (calls ++ [c]) w)))
       = Some n' /\
       (ReviewData.status (Note.reviewData n') = st_mastered <->
        ReviewCall.quality c <> again /\
        20 <= ReviewData.reviewCount (Note.reviewData n) + Z.of_nat (length calls))).
Proof.
  intros Ho Hf. split.
  - intros quality now nowUpdate activityId.
    destruct (reviewNote_step_open w id quality now nowUpdate activityId n Ho Hf)
      as (_ & Hf' & _).
    exists (reviewedNote n quality now nowUpdate). split; [exact Hf'|].
    simpl. split; [reflexivity|]. split.
    + intros ->. reflexivity.
    + intros Hq. split; intros Hc; destruct quality; try congruence; simpl.
      all: destruct (Z.leb_spec 20 (ReviewData.reviewCount (Note.reviewData n)));
        try reflexivity; lia.
  - intros calls c.
    destruct (reviewAll_open id (calls ++ [c]) w n Ho Hf) as (n' & Hf' & Hrd & _).
    exists n'. split; [exact Hf'|]. rewrite Hrd, scheduleAll_snoc. simpl.
    unfold Review.newStatus. rewrite reviewCount_scheduleAll.
    destruct (ReviewCall.quality c) eqn:Hq.
    1: split; [discriminate | intros [Hne _]; congruence].
    all: destruct (Z.leb_spec 20
                     (ReviewData.reviewCount (Note.reviewData n) + Z.of_nat (length calls)))
           as [Hc|Hc].
    all: split; [intros Hs | intros [_ Hc']].
    all: try reflexivity; try discriminate; try lia.
    all: split; [discriminate | lia].
Qed.

Lemma C3_witness :
  World.opened Scenario.twoNotes = true /\
  findNote "a" (PKMStore.notes (World.store Scenario.twoNotes)) = Some Scenario.noteA /\
  exists n',
    findNote "a"
      (PKMStore.notes
         (World.store (exec (reviewNote "a" good 5000 5001 "r1") Scenario.twoNotes)))
    = Some n' /\
    ReviewData.reviewCount (Note.reviewData n') = 1 /\
    ReviewData.status (Note.reviewData n') = st_reviewing /\
    exists n'',
      findNote "a"
        (PKMStore.notes
           (World.store
              (reviewAll "a"
                 (Scenario.twentyAgain ++ [ReviewCall.mk good 300000 300001 "r21"])
                 Scenario.twoNotes)))
      = Some n'' /\
      (ReviewData.status (Note.reviewData n'') = st_mastered <->
       ReviewCall.quality (ReviewCall.mk good 300000 300001 "r21") <> again /\
       20 <= ReviewData.reviewCount (Note.reviewData Scenario.noteA)
             + Z.of_nat (length Scenario.twentyAgain)).
Proof.
  split; [reflexivity|]. split; [vm_compute; reflexivity|].
  destruct (C3_status_after_review Scenario.twoNotes "a" Scenario.noteA) as [Hone Hall];
    [reflexivity | vm_compute; reflexivity |].
  destruct (Hone good 5000 5001 "r1") as (n' & Hf & Hcount & _ & Hstatus).
  exists n'. split; [exact Hf|]. split; [exact Hcount|].
  split; [apply Hstatus; [discriminate | reflexivity]|].
  exact (Hall Scenario.twentyAgain (ReviewCall.mk good 300000 300001 "r21")).
Defined.

(** Claim C3 as stated fails.  The note ["a"], never reviewed, is graded
    [again] twenty times: its review count is 20 and it is [learning].  The
    next review, graded [good], is its first successful one, and it leaves
    the note [mastered]: the note did not wait for a 21st successful
    review. *)
Lemma C3_counterexample :
  let w := reviewAll "a" Scenario.twentyAgain Scenario.twoNotes in
  let w' := exec (reviewNote "a" good 300000 300001 "r21") w in
  exists n n',
    findNote "a" (PKMStore.notes (World.store Scenario.twoNotes)) = Some Scenario.noteA /\
    ReviewData.reviewCount (Note.reviewData Scenario.noteA) = 0 /\
    length Scenario.twentyAgain = 20%nat /\
    Forall (fun c => ReviewCall.quality c = again) Scenario.twentyAgain /\
    findNote "a" (PKMStore.notes (World.store w)) = Some n /\
    ReviewData.reviewCount (Note.reviewData n) = 20 /\
    ReviewData.correctStreak (Note.reviewData n) = 0 /\
    ReviewData.status (Note.reviewData n) = st_learning /\
    findNote "a" (PKMStore.notes (World.store w')) = Some n' /\
    ReviewData.reviewCount (Note.reviewData n') = 21 /\
    ReviewData.correctStreak (Note.reviewData n') = 1 /\
    ReviewData.status (Note.reviewData n') = st_mastered.
Proof.
  eexists. eexists.
  split; [vm_compute; reflexivity|]. split; [reflexivity|]. split; [reflexivity|].
  split; [repeat constructor|].
  split; [vm_compute; reflexivity|].
  split; [reflexivity|]. split; [reflexivity|]. split; [reflexivity|].
  split; [vm_compute; reflexivity|].
  split; [reflexivity|]. split; reflexivity.
Qed.

(** Claim C7.  Whatever the grades, after any finite sequence of
    [reviewNote] calls on a note whose ease factor is [INITIAL_EASE] = 2.5,
    the ease factor of the note is at least [MIN_EASE] = 1.3 and at most
    [MAX_EASE] = 3.0, in binary64 arithmetic. *)
Theorem C7_ease_factor_stays_in_range
    (w : World.t) (id : string) (n : Note.t) (calls : list ReviewCall.t) :
  findNote id (PKMStore.notes (World.store w)) = Some n ->
  ReviewData.easeFactor (Note.reviewData n) = SPACED_REPETITION.INITIAL_EASE ->
  exists n',
    findNote id (PKMStore.notes (World.store (reviewAll id calls w))) = Some n' /\
    Js.leb SPACED_REPETITION.MIN_EASE (ReviewData.easeFactor (Note.reviewData n')) = true /\
    Js.leb (ReviewData.easeFactor (Note.reviewData n')) SPACED_REPETITION.MAX_EASE = true.
Proof.
  intros Hf He. destruct (World.opened w) eqn:Ho.
  - destruct (reviewAll_open id calls w n Ho Hf) as (n' & Hf' & Hrd & _).
    exists n'. split; [exact Hf'|]. apply ease_in_range_bounds. rewrite Hrd.
    apply ease_in_range_scheduleAll. rewrite He. exact ease_in_range_initial.
  - rewrite reviewAll_closed by assumption. exists n. split; [exact Hf|].
    apply ease_in_range_bounds. rewrite He. exact ease_in_range_initial.
Qed.

Lemma C7_witness :
  findNote "a" (PKMStore.notes (World.store Scenario.twoNotes)) = Some Scenario.noteA /\
  ReviewData.easeFactor (Note.reviewData Scenario.noteA) = SPACED_REPETITION.INITIAL_EASE /\
  exists n',
    findNote "a"
      (PKMStore.notes (World.store (reviewAll "a" Scenario.someCalls Scenario.twoNotes)))
    = Some n' /\
    Js.leb SPACED_REPETITION.MIN_EASE (ReviewData.easeFactor (Note.reviewData n')) = true /\
    Js.leb (ReviewData.easeFactor (Note.reviewData n')) SPACED_REPETITION.MAX_EASE = true.
Proof.
  split; [vm_compute; reflexivity|]. split; [reflexivity|].
  apply (C7_ease_factor_stays_in_range Scenario.twoNotes "a" Scenario.noteA Scenario.someCalls);
    [vm_compute; reflexivity | reflexivity].
Defined.

(** ** Search *)

(** Claim C6, amended.  On an opened database [searchNotes(query)] leaves
    the empty result when the query is blank (empty or white space only).
    Otherwise its result holds exactly the stored notes whose lower-cased
    [title + ' ' + content + ' ' + tags.join(' ')] contains every term as a
    substring, the terms being the non-empty pieces of the query split on
    the space character U+0020 and lower-cased; other white space, such as a
    TAB, does not separate terms. *)
Theorem C6_search_splits_on_space (w : World.t) (query : string) :
  World.opened w = true ->
  let results := PKMStore.searchResults (World.store (exec (searchNotes query) w)) in
  (blank query -> results = []) /\
  (~ blank query ->
   forall note,
     note ∈ results <->
     (exists k, DB.notes (World.idb w) !! k = Some note) /\
     (forall term,
        term ∈ spec_searchTerms query ->
        is_substring term
          (JsString.toLowerCase
             (Note.title note +:+ " " +:+ Note.content note +:+ " " +:+
              JsString.join_space (Note.tags note))))).
Proof.
  intros Ho results. unfold results. rewrite searchNotes_results by assumption.
  destruct (JsString.truthy (JsString.trim query)) eqn:Ht.
  - assert (Hnb : ~ blank query).
    { intros Hb. apply trim_blank in Hb. congruence. }
    split; [intros Hb; contradiction|]. intros _ note.
    rewrite list_elem_of_filter, elem_of_getAll, matches_spec.
    split.
    + intros [Hm Hk]. split; [exact Hk|]. intros term Hin.
      apply Hm, searchTerms_spec, Hin.
    + intros [Hk Hm]. split; [|exact Hk]. intros term Hin.
      apply Hm, searchTerms_spec, Hin.
  - apply trim_blank in Ht. split; [reflexivity|]. intros Hnb. contradiction.
Qed.

Lemma C6_witness :
  World.opened Scenario.twoNotes = true /\
  ~ blank "quantum waves" /\
  Scenario.noteA
    ∈ PKMStore.searchResults
        (World.store (exec (searchNotes "quantum waves") Scenario.twoNotes)).
Proof.
  assert (Hnb : ~ blank "quantum waves") by (intros [H _]; discriminate H).
  split; [reflexivity|]. split; [exact Hnb|].
  destruct (C6_search_splits_on_space Scenario.twoNotes "quantum waves") as [_ Hsome];
    [reflexivity|].
  apply (Hsome Hnb). split.
  - exists "a". vm_compute. reflexivity.
  - apply Forall_forall.
    change (spec_searchTerms "quantum waves") with ["quantum"; "waves"].
    repeat constructor; apply includes_spec; vm_compute; reflexivity.
Defined.

(** Claim C6 as stated fails.  For the query made of [quantum], a TAB and
    [waves], splitting on white space gives the terms [quantum] and [waves],
    both of which occur in the text of the stored note ["a"] ("Quantum
    Mechanics", "particles and waves"); the query is not blank; and the
    result of [searchNotes] is empty. *)
Lemma C6_counterexample :
  let w := Scenario.twoNotes in
  let results :=
    PKMStore.searchResults (World.store (exec (searchNotes Scenario.tabQuery) w)) in
  ~ blank Scenario.tabQuery /\
  DB.notes (World.idb w) !! "a" = Some Scenario.noteA /\
  spec_whitespaceTerms Scenario.tabQuery = ["quantum"; "waves"] /\
  (forall term,
     term ∈ spec_whitespaceTerms Scenario.tabQuery ->
     is_substring term
       (JsString.toLowerCase
          (Note.title Scenario.noteA +:+ " " +:+ Note.content Scenario.noteA +:+ " " +:+
           JsString.join_space (Note.tags Scenario.noteA)))) /\
  results = [].
Proof.
  assert (Hterms : spec_whitespaceTerms Scenario.tabQuery = ["quantum"; "waves"])
    by (vm_compute; reflexivity).
  split; [intros [H _]; discriminate H|].
  split; [vm_compute; reflexivity|].
  split; [exact Hterms|].
  split; [|vm_compute; reflexivity].
  apply Forall_forall. rewrite Hterms.
  repeat constructor; apply includes_spec; vm_compute; reflexivity.
Qed.

(** ** Collecting a note *)

(** Claim C10.  [collectNote] returns at once, leaving the whole world as it
    was, when no note has the id or the note is already collected; the first
    collection of a note (on an opened database) adds 1 to [collectedNotes]
    and 5 to [wisdomPoints] and marks the note; and collecting twice leaves
    the world that collecting once leaves. *)
Theorem C10_collectNote_counts_once (w : World.t) (id : string) :
  ((findNote id (PKMStore.notes (World.store w)) = None \/
    exists n, findNote id (PKMStore.notes (World.store w)) = Some n /\
              Note.isCollected n = true) ->
   collectNote id w = (Returned tt, w)) /\
  (forall n,
     World.opened w = true ->
     findNote id (PKMStore.notes (World.store w)) = Some n ->
     Note.isCollected n = false ->
     let w' := exec (collectNote id) w in
     PKMStats.collectedNotes (PKMStore.stats (World.store w'))
     = PKMStats.collectedNotes (PKMStore.stats (World.store w)) + 1 /\
     PKMStats.wisdomPoints (PKMStore.stats (World.store w'))
     = PKMStats.wisdomPoints (PKMStore.stats (World.store w)) + 5 /\
     findNote id (PKMStore.notes (World.store w')) = Some (collected n)) /\
  exec (collectNote id) (exec (collectNote id) w) = exec (collectNote id) w.
Proof.
  assert (Hfirst : forall n,
     World.opened w = true ->
     findNote id (PKMStore.notes (World.store w)) = Some n ->
     Note.isCollected n = false ->
     findNote id (PKMStore.notes (World.store (exec (collectNote id) w)))
     = Some (collected n)).
  { intros n Ho Hf Hc. unfold exec. rewrite (collectNote_open w id n) by assumption. simpl.
    apply (findNote_replaceNote id (collected n) _ n); [assumption|].
    simpl. apply (findNote_id _ _ _ Hf). }
  split; [|split].
  - intros [Hf|(n & Hf & Hc)].
    + apply collectNote_missing, Hf.
    + apply (collectNote_collected w id n); assumption.
  - intros n Ho Hf Hc. split; [|split].
    + unfold exec. rewrite (collectNote_open w id n) by assumption. reflexivity.
    + unfold exec. rewrite (collectNote_open w id n) by assumption. reflexivity.
    + apply Hfirst; assumption.
  - destruct (findNote id (PKMStore.notes (World.store w))) as [n|] eqn:Hf.
    + destruct (Note.isCollected n) eqn:Hc.
      * unfold exec. rewrite (collectNote_collected w id n) by assumption. simpl.
        rewrite (collectNote_collected w id n) by assumption. reflexivity.
      * destruct (World.opened w) eqn:Ho.
        -- pose proof (Hfirst n eq_refl eq_refl Hc) as H2.
           unfold exec at 1.
           rewrite (collectNote_collected _ id (collected n));
             [reflexivity | exact H2 | reflexivity].
        -- unfold exec. rewrite (collectNote_closed w id n) by assumption. simpl.
           rewrite (collectNote_closed w id n) by assumption. reflexivity.
    + unfold exec. rewrite (collectNote_missing w id) by assumption. simpl.
      rewrite (collectNote_missing w id) by assumption. reflexivity.
Qed.

Lemma C10_witness :
  let w := Scenario.twoNotes in
  let w' := exec (collectNote "a") w in
  findNote "a" (PKMStore.notes (World.store w)) = Some Scenario.noteA /\
  PKMStats.collectedNotes (PKMStore.stats (World.store w')) = 1 /\
  PKMStats.wisdomPoints (PKMStore.stats (World.store w')) = 5 /\
  findNote "a" (PKMStore.notes (World.store w')) = Some (collected Scenario.noteA) /\
  exec (collectNote "a") w' = w'.
Proof.
  destruct (C10_collectNote_counts_once Scenario.twoNotes "a") as (_ & Hfirst & Hagain).
  destruct (Hfirst Scenario.noteA) as (Hc & Hp & Hf);
    [reflexivity | vm_compute; reflexivity | reflexivity |].
  split; [vm_compute; reflexivity|].
  split; [exact Hc|]. split; [exact Hp|]. split; [exact Hf|]. exact Hagain.
Defined.

(** * What every call keeps *)

(** ** Running actions *)

Lemma world_eta w : World.mk (World.opened w) (World.idb w) (World.store w) = w.
Proof. destruct w; reflexivity. Qed.

Lemma preserves_ret {A} P (a : A) : preserves P (ret a).
Proof. intros w HP. exact HP. Qed.

Lemma preserves_bind {A B} P (m : Action A) (k : A -> Action B) :
  preserves P m -> (forall a, preserves P (k a)) -> preserves P (bind m k).
Proof.
  intros Hm Hk w HP. specialize (Hm w HP). unfold exec, bind in *.
  destruct (m w) as [[a|e] w']; simpl in *; [apply Hk|]; exact Hm.
Qed.

(** What follows [get] sees the store of the world it runs on. *)
Lemma preserves_get {B} P (k : PKMStore.t -> Action B) :
  (forall w, P w -> P (exec (k (World.store w)) w)) -> preserves P (bind get k).
Proof. intros Hk w HP. apply (Hk w HP). Qed.

(** A request to the database followed by [set]: the request throws and
    leaves the world as it was, or it writes to the database and the store
    follows. *)
Lemma preserves_write_set P (m : Action unit) (f : PKMStore.t -> PKMStore.t) :
  (forall w, P w ->
     (exists e, m w = (Thrown e, w)) \/
     (exists d, m w = (Returned tt, World.mk (World.opened w) d (World.store w)) /\
                P (World.mk (World.opened w) d (f (World.store w))))) ->
  preserves P (bind m (fun _ => set f)).
Proof.
  intros Hm w HP. unfold exec, bind.
  destruct (Hm w HP) as [[e ->]|(d & -> & HP')]; simpl; assumption.
Qed.

Lemma preserves_write_set_then {B} P (m : Action unit) (f : PKMStore.t -> PKMStore.t)
    (k : Action B) :
  (forall w, P w ->
     (exists e, m w = (Thrown e, w)) \/
     (exists d, m w = (Returned tt, World.mk (World.opened w) d (World.store w)) /\
                P (World.mk (World.opened w) d (f (World.store w))))) ->
  preserves P k ->
  preserves P (bind m (fun _ => bind (set f) (fun _ => k))).
Proof.
  intros Hm Hk w HP. unfold exec, bind.
  destruct (Hm w HP) as [[e ->]|(d & -> & HP')]; simpl; [assumption|].
  apply (Hk _ HP').
Qed.

(** ** The requests of [PKMStorage], outcome by outcome *)

Lemma add_outcome {V} (k : string) (v : V) (m : gmap string V) :
  (m !! k = None /\ PKMStorage.add k v m = Returned (<[k := v]> m)) \/
  (is_Some (m !! k) /\ PKMStorage.add k v m = Thrown ConstraintError).
Proof. unfold PKMStorage.add. destruct (m !! k); [right|left]; eauto. Qed.

Lemma storage_createNote_outcome w note :
  (exists e, PKMStorage.createNote note w = (Thrown e, w)) \/
  (World.opened w = true /\ DB.notes (World.idb w) !! Note.id note = None /\
   PKMStorage.createNote note w
   = (Returned tt,
      World.mk (World.opened w) (DB.set_notes (insert (Note.id note) note) (World.idb w))
        (World.store w))).
Proof.
  unfold PKMStorage.createNote, PKMStorage.transaction, PKMStorage.ensureDB,
    PKMStorage.write, PKMStorage.add, bind, throw.
  destruct w as [[] d s]; simpl; [|left; eauto].
  destruct (DB.notes d !! Note.id note) eqn:Hk; simpl; [left; eauto|right; auto].
Qed.

Lemma storage_createLink_outcome w link :
  (exists e, PKMStorage.createLink link w = (Thrown e, w)) \/
  (World.opened w = true /\ DB.links (World.idb w) !! NoteLink.id link = None /\
   PKMStorage.createLink link w
   = (Returned tt,
      World.mk (World.opened w) (DB.set_links (insert (NoteLink.id link) link) (World.idb w))
        (World.store w))).
Proof.
  unfold PKMStorage.createLink, PKMStorage.transaction, PKMStorage.ensureDB,
    PKMStorage.write, PKMStorage.add, bind, throw.
  destruct w as [[] d s]; simpl; [|left; eauto].
  destruct (DB.links d !! NoteLink.id link) eqn:Hk; simpl; [left; eauto|right; auto].
Qed.

Lemma storage_createTag_outcome w tag :
  (exists e, PKMStorage.createTag tag w = (Thrown e, w)) \/
  (World.opened w = true /\ DB.tags (World.idb w) !! Tag.id tag = None /\
   PKMStorage.createTag tag w
   = (Returned tt,
      World.mk (World.opened w) (DB.set_tags (insert (Tag.id tag) tag) (World.idb w))
        (World.store w))).
Proof.
  unfold PKMStorage.createTag, PKMStorage.transaction, PKMStorage.ensureDB,
    PKMStorage.write, PKMStorage.add, bind, throw.
  destruct w as [[] d s]; simpl; [|left; eauto].
  destruct (DB.tags d !! Tag.id tag) eqn:Hk; simpl; [left; eauto|right; auto].
Qed.

(** A request that cannot fail on an opened database. *)
Lemma storage_write_outcome (m : Action unit) (g : DB.t -> DB.t) w :
  m = (let! _ := PKMStorage.ensureDB in PKMStorage.write g) ->
  (World.opened w = false /\ m w = (Thrown NotInitialized, w)) \/
  (World.opened w = true /\
   m w = (Returned tt, World.mk (World.opened w) (g (World.idb w)) (World.store w))).
Proof.
  intros ->. unfold PKMStorage.ensureDB, PKMStorage.write, bind.
  destruct w as [[] d s]; simpl; auto.
Qed.

Lemma storage_deleteNote_outcome w id :
  (World.opened w = false /\ PKMStorage.deleteNote id w = (Thrown NotInitialized, w)) \/
  (World.opened w = true /\
   PKMStorage.deleteNote id w
   = (Returned tt,
      World.mk (World.opened w)
        (DB.set_links (fun links =>
           PKMStorage.deleteEach
             (filter (fun l => NoteLink.targetId l = id) (PKMStorage.getAll links)) links)
           (DB.set_links (fun links =>
              PKMStorage.deleteEach
                (filter (fun l => NoteLink.sourceId l = id) (PKMStorage.getAll links)) links)
              (DB.set_notes (delete id) (World.idb w))))
        (World.store w))).
Proof.
  unfold PKMStorage.deleteNote, PKMStorage.transaction, PKMStorage.ensureDB,
    PKMStorage.write, bind.
  destruct w as [[] d s]; simpl; auto.
Qed.

(** [updateStats] with a whole [PKMStats]: both copies, or nothing. *)
Lemma exec_updateStats w s' :
  exec (updateStats (allStats s')) w
  = if World.opened w
    then World.mk true (DB.set_stats (Some s') (World.idb w))
           (PKMStore.set_stats s' (World.store w))
    else w.
Proof.
  destruct (World.opened w) eqn:Ho.
  - unfold exec. rewrite updateStats_open by exact Ho. reflexivity.
  - unfold exec, updateStats, PKMStorage.updateStats, bind, get,
      PKMStorage.ensureDB. simpl. rewrite Ho. reflexivity.
Qed.

(** ** Lists that mirror an object store *)

Lemma mirrors_keyed {V} (key : V -> string) l m : mirrors key l m -> keyed key m.
Proof. intros H k v Hk. apply H in Hk as [_ Hk]. exact Hk. Qed.

Lemma mirrors_snoc {V} (key : V -> string) l m v :
  mirrors key l m -> m !! key v = None ->
  mirrors key (l ++ [v]) (<[key v := v]> m).
Proof.
  intros H Hfresh k x. rewrite lookup_insert_Some, elem_of_app, list_elem_of_singleton, (H k x).
  split.
  - intros [[<- <-]|[Hne Hx]]; [auto|]. tauto.
  - intros [[Hin| ->] Hk]; [|auto].
    right. split; [|auto]. intros <-.
    assert (Hx : m !! key x = Some x) by (apply H; auto).
    rewrite <- Hk in Hfresh. congruence.
Qed.

Lemma mirrors_replace {V} (key : V -> string) l m id old u :
  mirrors key l m -> old ∈ l -> key old = id -> key u = id ->
  mirrors key (map (fun x => if decide (key x = id) then u else x) l) (<[id := u]> m).
Proof.
  intros H Hold Hoid Hu k x.
  rewrite lookup_insert_Some, (H k x), list_elem_of_fmap. split.
  - intros [[<- <-]|[Hne [Hin Hk]]].
    + split; [|exact Hu]. exists old. rewrite decide_True by exact Hoid. auto.
    + split; [|exact Hk]. exists x. rewrite decide_False by congruence. auto.
  - intros [(y & -> & Hin) Hk]. destruct (decide (key y = id)) as [Hy|Hy].
    + left. split; congruence.
    + right. split; [congruence|]. auto.
Qed.

Lemma mirrors_delete {V} (key : V -> string) l m id :
  mirrors key l m -> mirrors key (filter (fun x => key x <> id) l) (delete id m).
Proof.
  intros H k x. rewrite lookup_delete_Some, (H k x), list_elem_of_filter.
  split; [intros [Hne [Hin Hk]]|intros [[Hne Hin] Hk]]; repeat split; congruence.
Qed.

(** The cascade of [deleteNote] on the links, on both sides. *)
Lemma mirrors_cascade l m id :
  mirrors NoteLink.id l m ->
  mirrors NoteLink.id
    (filter (fun link => NoteLink.sourceId link <> id /\ NoteLink.targetId link <> id) l)
    (PKMStorage.deleteEach
       (filter (fun l => NoteLink.targetId l = id)
          (PKMStorage.getAll
             (PKMStorage.deleteEach
                (filter (fun l => NoteLink.sourceId l = id) (PKMStorage.getAll m)) m)))
       (PKMStorage.deleteEach
          (filter (fun l => NoteLink.sourceId l = id) (PKMStorage.getAll m)) m)).
Proof.
  intros H k x.
  assert (Hkeyed : keyed_by_id m) by (exact (mirrors_keyed _ _ _ H)).
  rewrite (deleteEach_index NoteLink.targetId).
  - rewrite (deleteEach_index NoteLink.sourceId) by exact Hkeyed.
    rewrite (H k x), list_elem_of_filter. tauto.
  - intros k' l' Hk'. apply (deleteEach_index NoteLink.sourceId) in Hk' as [Hk' _];
      [|exact Hkeyed]. apply (Hkeyed k' l' Hk').
Qed.

(** The first match by id is the record the object store has under it. *)
Lemma mirrors_find {V} (key : V -> string) l m id :
  mirrors key l m ->
  snd <$> list_find (fun v => key v = id) l = m !! id.
Proof.
  intros H. destruct (list_find _ l) as [[i v]|] eqn:Hf; simpl.
  - apply list_find_Some in Hf as (Hi & Hv & _). symmetry. apply H. split; [|exact Hv].
    apply list_elem_of_lookup. eauto.
  - destruct (m !! id) as [v|] eqn:Hm; [|reflexivity].
    apply H in Hm as [Hin Hk]. eapply list_find_None in Hf.
    rewrite Forall_forall in Hf. destruct (Hf v Hin Hk).
Qed.

Lemma mirrors_findNote notes m id :
  mirrors Note.id notes m -> findNote id notes = m !! id.
Proof. intros H. apply (mirrors_find Note.id notes m id H). Qed.

(** ** The store stays the mirror of the database *)

Lemma exec_bind_thrown {A B} (m : Action A) (k : A -> Action B) w e w' :
  m w = (Thrown e, w') -> exec (bind m k) w = w'.
Proof. intros H. unfold exec, bind. rewrite H. reflexivity. Qed.

Lemma exec_bind_returned {A B} (m : Action A) (k : A -> Action B) w a w' :
  m w = (Returned a, w') -> exec (bind m k) w = exec (k a) w'.
Proof. intros H. unfold exec, bind. rewrite H. reflexivity. Qed.

Lemma updatedNoteOf_id old updates now :
  PartialNote.id updates = None -> Note.id (updatedNoteOf old updates now) = Note.id old.
Proof. intros H. unfold updatedNoteOf. simpl. rewrite H. reflexivity. Qed.

Lemma in_sync_updateStats s' : preserves in_sync (updateStats (allStats s')).
Proof.
  intros w H. rewrite exec_updateStats. destruct (World.opened w); exact H.
Qed.

Lemma in_sync_updateNote id updates now :
  PartialNote.id updates = None -> preserves in_sync (updateNote id updates now).
Proof.
  intros Hid w H. unfold updateNote.
  rewrite (exec_bind_returned get _ w (World.store w) w) by reflexivity.
  destruct (list_find (hasId id) (PKMStore.notes (World.store w))) as [[i old]|] eqn:Hf;
    [|exact H].
  apply list_find_Some in Hf as (Hi & Hold & _).
  remember (updatedNoteOf old updates now) as u eqn:Eu.
  destruct (storage_write_outcome (PKMStorage.updateNote u) _ w eq_refl)
    as [[Ho Hm]|[Ho Hm]].
  - rewrite (exec_bind_thrown _ _ _ _ _ Hm). exact H.
  - rewrite (exec_bind_returned _ _ _ _ _ Hm).
    destruct H as (Hn & Hl & Ht). split; [|split; assumption].
    assert (Hu : Note.id u = id).
    { rewrite Eu, updatedNoteOf_id by exact Hid. exact Hold. }
    cbn. rewrite Hu.
    apply (mirrors_replace Note.id _ _ id old u Hn); [|exact Hold|exact Hu].
    apply list_elem_of_lookup. eauto.
Qed.

Lemma in_sync_createNote noteData newId now rx ry activityId :
  preserves in_sync (createNote noteData newId now rx ry activityId).
Proof.
  intros w H. unfold createNote.
  rewrite (exec_bind_returned get _ w (World.store w) w) by reflexivity. cbv zeta.
  match goal with |- context [PKMStorage.createNote ?n] => set (newNote := n) end.
  destruct (storage_createNote_outcome w newNote) as [[e Hm]|(Ho & Hfresh & Hm)].
  - rewrite (exec_bind_thrown _ _ _ _ _ Hm). exact H.
  - rewrite (exec_bind_returned _ _ _ _ _ Hm).
    erewrite exec_bind_returned by reflexivity.
    erewrite exec_bind_returned by reflexivity.
    apply in_sync_updateStats.
    destruct H as (Hn & Hl & Ht). split; [|split; assumption].
    apply (mirrors_snoc Note.id _ _ newNote Hn Hfresh).
Qed.

Lemma in_sync_deleteNote id : preserves in_sync (deleteNote id).
Proof.
  intros w H. unfold deleteNote.
  destruct (storage_deleteNote_outcome w id) as [[Ho Hm]|[Ho Hm]].
  - rewrite (exec_bind_thrown _ _ _ _ _ Hm). exact H.
  - rewrite (exec_bind_returned _ _ _ _ _ Hm).
    erewrite exec_bind_returned by reflexivity.
    erewrite exec_bind_returned by reflexivity.
    apply in_sync_updateStats.
    destruct H as (Hn & Hl & Ht). split; [|split; [|exact Ht]].
    + apply (mirrors_delete Note.id _ _ id Hn).
    + apply (mirrors_cascade _ _ id Hl).
Qed.

Lemma in_sync_collectNote id : preserves in_sync (collectNote id).
Proof.
  intros w H. unfold collectNote.
  rewrite (exec_bind_returned get _ w (World.store w) w) by reflexivity.
  destruct (findNote id (PKMStore.notes (World.store w))) as [n|] eqn:Hf; [|exact H].
  destruct (Note.isCollected n); [exact H|].
  pose proof (findNote_id _ _ _ Hf) as Hnid.
  apply findNote_Some in Hf as [i Hf]. apply list_find_Some in Hf as (Hi & _ & _).
  destruct (storage_write_outcome (PKMStorage.updateNote (collected n)) _ w eq_refl)
    as [[Ho Hm]|[Ho Hm]].
  - rewrite (exec_bind_thrown _ _ _ _ _ Hm). exact H.
  - rewrite (exec_bind_returned _ _ _ _ _ Hm).
    erewrite exec_bind_returned by reflexivity.
    erewrite exec_bind_returned by reflexivity.
    apply in_sync_updateStats.
    destruct H as (Hn & Hl & Ht). split; [|split; assumption].
    cbn. rewrite Hnid.
    apply (mirrors_replace Note.id _ _ id n (collected n) Hn); [|exact Hnid|exact Hnid].
    apply list_elem_of_lookup. eauto.
Qed.

Lemma in_sync_searchNotes query : preserves in_sync (searchNotes query).
Proof.
  intros w H. unfold searchNotes, PKMStorage.searchNotes, PKMStorage.getAllNotes,
    PKMStorage.ensureDB, exec, bind, set, ret.
  destruct (JsString.truthy _); [|exact H].
  destruct (World.opened w); exact H.
Qed.

Lemma in_sync_reviewNote id quality now nowUpdate activityId :
  preserves in_sync (reviewNote id quality now nowUpdate activityId).
Proof.
  intros w H. unfold reviewNote.
  rewrite (exec_bind_returned get _ w (World.store w) w) by reflexivity.
  destruct (findNote id (PKMStore.notes (World.store w))) as [n|]; [|exact H].
  revert w H. apply preserves_bind.
  - apply in_sync_updateNote. reflexivity.
  - intros _. apply preserves_get. intros w H. apply in_sync_updateStats. exact H.
Qed.

Lemma in_sync_createLink sourceId targetId type context newId now nowSource nowTarget :
  preserves in_sync
    (createLink sourceId targetId type context newId now nowSource nowTarget).
Proof.
  intros w H. unfold createLink. cbv zeta.
  match goal with |- context [PKMStorage.createLink ?n] => set (newLink := n) end.
  destruct (storage_createLink_outcome w newLink) as [[e Hm]|(Ho & Hfresh & Hm)].
  - rewrite (exec_bind_thrown _ _ _ _ _ Hm). exact H.
  - rewrite (exec_bind_returned _ _ _ _ _ Hm).
    erewrite exec_bind_returned by reflexivity.
    erewrite exec_bind_returned by reflexivity.
    match goal with |- in_sync (exec _ ?w1) => assert (H1 : in_sync w1) end.
    { destruct H as (Hn & Hl & Ht). split; [exact Hn|split; [|exact Ht]].
      apply (mirrors_snoc NoteLink.id _ _ newLink Hl Hfresh). }
    revert H1. apply preserves_bind.
    { destruct (findNote sourceId _); [|apply preserves_ret].
      apply in_sync_updateNote. reflexivity. }
    intros _. apply preserves_bind.
    { destruct (findNote targetId _); [|apply preserves_ret].
      apply in_sync_updateNote. reflexivity. }
    intros _. apply preserves_get. intros w' H'. apply in_sync_updateStats. exact H'.
Qed.

Lemma in_sync_deleteLink id nowSource nowTarget :
  preserves in_sync (deleteLink id nowSource nowTarget).
Proof.
  intros w H. unfold deleteLink.
  rewrite (exec_bind_returned get _ w (World.store w) w) by reflexivity.
  destruct (snd <$> list_find _ (PKMStore.links (World.store w))) as [link|]; [|exact H].
  destruct (storage_write_outcome (PKMStorage.deleteLink id) _ w eq_refl)
    as [[Ho Hm]|[Ho Hm]].
  - rewrite (exec_bind_thrown _ _ _ _ _ Hm). exact H.
  - rewrite (exec_bind_returned _ _ _ _ _ Hm).
    erewrite exec_bind_returned by reflexivity.
    match goal with |- in_sync (exec _ ?w1) => assert (H1 : in_sync w1) end.
    { destruct H as (Hn & Hl & Ht). split; [exact Hn|split; [|exact Ht]].
      apply (mirrors_delete NoteLink.id _ _ id Hl). }
    revert H1. apply preserves_bind.
    { destruct (findNote (NoteLink.sourceId link) _); [|apply preserves_ret].
      apply in_sync_updateNote. reflexivity. }
    intros _. apply preserves_bind.
    { destruct (findNote (NoteLink.targetId link) _); [|apply preserves_ret].
      apply in_sync_updateNote. reflexivity. }
    intros _. apply preserves_get. intros w' H'. apply in_sync_updateStats. exact H'.
Qed.

Lemma in_sync_createTag name color newId now :
  preserves in_sync (createTag name color newId now).
Proof.
  intros w H. unfold createTag. cbv zeta.
  match goal with |- context [PKMStorage.createTag ?n] => set (newTag := n) end.
  destruct (storage_createTag_outcome w newTag) as [[e Hm]|(Ho & Hfresh & Hm)].
  - rewrite (exec_bind_thrown _ _ _ _ _ Hm). exact H.
  - rewrite (exec_bind_returned _ _ _ _ _ Hm).
    destruct H as (Hn & Hl & Ht). split; [exact Hn|split; [exact Hl|]].
    apply (mirrors_snoc Tag.id _ _ newTag Ht Hfresh).
Qed.

Lemma in_sync_updateTag id updates :
  PartialTag.id updates = None -> preserves in_sync (updateTag id updates).
Proof.
  intros Hid w H. unfold updateTag.
  rewrite (exec_bind_returned get _ w (World.store w) w) by reflexivity.
  destruct (list_find _ (PKMStore.tags (World.store w))) as [[i old]|] eqn:Hf; [|exact H].
  apply list_find_Some in Hf as (Hi & Hold & _).
  remember (mergeTag old updates) as u eqn:Eu.
  destruct (storage_write_outcome (PKMStorage.updateTag u) _ w eq_refl)
    as [[Ho Hm]|[Ho Hm]].
  - rewrite (exec_bind_thrown _ _ _ _ _ Hm). exact H.
  - rewrite (exec_bind_returned _ _ _ _ _ Hm).
    destruct H as (Hn & Hl & Ht). split; [exact Hn|split; [exact Hl|]].
    assert (Hu : Tag.id u = id).
    { rewrite Eu. unfold mergeTag. simpl. rewrite Hid. exact Hold. }
    cbn. rewrite Hu.
    apply (mirrors_replace Tag.id _ _ id old u Ht); [|exact Hold|exact Hu].
    apply list_elem_of_lookup. eauto.
Qed.

Lemma in_sync_call c : keeps_id c -> preserves in_sync (action_of c).
Proof.
  destruct c; simpl; intros Hk.
  - apply in_sync_createNote.
  - apply in_sync_updateNote. exact Hk.
  - apply in_sync_deleteNote.
  - apply in_sync_collectNote.
  - apply in_sync_searchNotes.
  - apply in_sync_createLink.
  - apply in_sync_deleteLink.
  - apply in_sync_createTag.
  - apply in_sync_updateTag. exact Hk.
  - apply in_sync_reviewNote.
Qed.

(** Property X1.  After any sequence of calls that pass no new id, the notes, links
    and tags of the store are exactly the records of the database. *)
Theorem store_mirrors_database (calls : list Call) (w : World.t) :
  Forall keeps_id calls -> in_sync w -> in_sync (runAll calls w).
Proof.
  intros Hall. revert w. induction Hall as [|c calls Hc _ IH]; intros w H; [exact H|].
  apply IH. apply (in_sync_call c Hc w H).
Qed.

(** ** What the calls do to the statistics *)

Lemma preserves_throw {A} P e : preserves P (@throw A e).
Proof. intros w HP. exact HP. Qed.

(** What follows [get] keeps the property whatever state it was handed. *)
Lemma preserves_get_any {B} P (k : PKMStore.t -> Action B) :
  (forall s, preserves P (k s)) -> preserves P (bind get k).
Proof. intros Hk w HP. apply (Hk (World.store w) w HP). Qed.

(** The requests of [PKMStorage] never touch the store. *)
Lemma storage_keeps_store {A} (m : Action A) (R : PKMStats.t -> Prop) :
  (forall w, World.store (exec m w) = World.store w) ->
  preserves (on_stats R) m.
Proof. intros Hm w H. unfold on_stats. rewrite Hm. exact H. Qed.

Lemma store_after_add {V} (k : string) (v : V) (m : gmap string V)
    (setter : (gmap string V -> gmap string V) -> DB.t -> DB.t) w :
  World.store
    (exec (PKMStorage.transaction
             match PKMStorage.add k v m with
             | Returned m' => PKMStorage.write (setter (fun _ => m'))
             | Thrown e => throw e
             end) w)
  = World.store w.
Proof.
  unfold exec, PKMStorage.transaction, PKMStorage.add, PKMStorage.write, throw.
  destruct (m !! k); reflexivity.
Qed.

Lemma store_after_createNote note w :
  World.store (exec (PKMStorage.createNote note) w) = World.store w.
Proof.
  unfold PKMStorage.createNote, PKMStorage.ensureDB.
  destruct (World.opened w) eqn:Ho.
  - erewrite exec_bind_returned by (rewrite Ho; reflexivity). apply store_after_add.
  - erewrite exec_bind_thrown by (rewrite Ho; reflexivity). reflexivity.
Qed.

Lemma store_after_createLink link w :
  World.store (exec (PKMStorage.createLink link) w) = World.store w.
Proof.
  unfold PKMStorage.createLink, PKMStorage.ensureDB.
  destruct (World.opened w) eqn:Ho.
  - erewrite exec_bind_returned by (rewrite Ho; reflexivity). apply store_after_add.
  - erewrite exec_bind_thrown by (rewrite Ho; reflexivity). reflexivity.
Qed.

Lemma store_after_createTag tag w :
  World.store (exec (PKMStorage.createTag tag) w) = World.store w.
Proof.
  unfold PKMStorage.createTag, PKMStorage.ensureDB.
  destruct (World.opened w) eqn:Ho.
  - erewrite exec_bind_returned by (rewrite Ho; reflexivity). apply store_after_add.
  - erewrite exec_bind_thrown by (rewrite Ho; reflexivity). reflexivity.
Qed.

Lemma store_after_write g w :
  World.store (exec (let! _ := PKMStorage.ensureDB in PKMStorage.write g) w)
  = World.store w.
Proof.
  unfold exec, bind, PKMStorage.ensureDB, PKMStorage.write.
  destruct (World.opened w); reflexivity.
Qed.

Lemma store_after_deleteNote id w :
  World.store (exec (PKMStorage.deleteNote id) w) = World.store w.
Proof.
  unfold exec, PKMStorage.deleteNote, PKMStorage.transaction, bind,
    PKMStorage.ensureDB, PKMStorage.write.
  destruct (World.opened w); reflexivity.
Qed.

Lemma store_after_searchNotes query w :
  World.store (exec (PKMStorage.searchNotes query) w) = World.store w.
Proof.
  unfold exec, PKMStorage.searchNotes, PKMStorage.getAllNotes, bind, ret,
    PKMStorage.ensureDB.
  destruct (World.opened w); reflexivity.
Qed.

(** One step through an action, for a property of the statistics. *)
Ltac stats_step :=
  lazymatch goal with
  | |- preserves _ (ret _) => apply preserves_ret
  | |- preserves _ (throw _) => apply preserves_throw
  | |- preserves _ (set _) => let w := fresh "w" in let H := fresh "H" in
                              intros w H; exact H
  | |- preserves _ (PKMStorage.createNote _) =>
      apply storage_keeps_store; apply store_after_createNote
  | |- preserves _ (PKMStorage.createLink _) =>
      apply storage_keeps_store; apply store_after_createLink
  | |- preserves _ (PKMStorage.createTag _) =>
      apply storage_keeps_store; apply store_after_createTag
  | |- preserves _ (PKMStorage.deleteNote _) =>
      apply storage_keeps_store; apply store_after_deleteNote
  | |- preserves _ (PKMStorage.searchNotes _) =>
      apply storage_keeps_store; apply store_after_searchNotes
  | |- preserves _ (PKMStorage.updateNote _) =>
      apply storage_keeps_store; apply store_after_write
  | |- preserves _ (PKMStorage.updateTag _) =>
      apply storage_keeps_store; apply store_after_write
  | |- preserves _ (PKMStorage.deleteLink _) =>
      apply storage_keeps_store; apply store_after_write
  | |- preserves _ (bind get (fun _ => updateStats _)) =>
      let w := fresh "w" in let H := fresh "H" in
      apply preserves_get; intros w H; rewrite exec_updateStats;
      destruct (World.opened w); [unfold on_stats in *; cbn|exact H]
  | |- preserves _ (bind get _) => apply preserves_get_any; intros ?
  | |- preserves _ (bind _ _) => apply preserves_bind; [|intros ?]
  | |- preserves _ (match ?x with _ => _ end) => destruct x
  end.

Ltac stats_steps := cbv zeta; repeat stats_step.

Lemma stats_updateNote (R : PKMStats.t -> Prop) id updates now :
  preserves (on_stats R) (updateNote id updates now).
Proof. unfold updateNote. stats_steps. Qed.

(** Every call of the list, for a property of the statistics that each
    kind of write respects. *)
Ltac stats_action finish :=
  cbn [action_of];
  unfold createNote, updateNote, deleteNote, collectNote, searchNotes, createLink,
    deleteLink, createTag, updateTag, reviewNote;
  stats_steps; try apply stats_updateNote; finish.

Lemma capped_call c :
  preserves (on_stats (fun s => (length (PKMStats.recentActivity s) <= 10)%nat))
    (action_of c).
Proof.
  destruct c; stats_action ltac:(try (rewrite ?length_take; lia)).
Qed.

Lemma runAll_preserves P calls :
  Forall (fun c => preserves P (action_of c)) calls ->
  preserves P (fun w => (Returned tt, runAll calls w)).
Proof.
  intros Hall. induction Hall as [|c calls Hc _ IH]; intros w H; [exact H|].
  apply (IH (exec (action_of c) w)). apply (Hc w H).
Qed.

(** Property X2.  Whatever the calls, the activity log of the statistics never holds
    more than ten entries once it holds at most ten. *)
Theorem activity_log_capped (calls : list Call) (w : World.t) :
  (length (PKMStats.recentActivity (PKMStore.stats (World.store w))) <= 10)%nat ->
  (length (PKMStats.recentActivity (PKMStore.stats (World.store (runAll calls w))))
   <= 10)%nat.
Proof.
  intros H.
  apply (runAll_preserves
           (on_stats (fun s => (length (PKMStats.recentActivity s) <= 10)%nat)) calls);
    [|exact H].
  apply Forall_forall. intros c _. apply capped_call.
Qed.

Lemma untouched_call r q d c :
  preserves (on_stats (fun s => PKMStats.reviewStreak s = r /\
                                PKMStats.completedQuests s = q /\
                                PKMStats.mostProductiveDomain s = d))
    (action_of c).
Proof.
  destruct c; stats_action ltac:(try assumption).
Qed.

(** Property X3.  No call on notes, links, tags or reviews ever changes the review
    streak, the number of completed quests or the most productive domain:
    not even [reviewNote] moves the streak. *)
Theorem streak_and_quests_never_change (calls : list Call) (w : World.t) :
  let s := PKMStore.stats (World.store w) in
  let s' := PKMStore.stats (World.store (runAll calls w)) in
  PKMStats.reviewStreak s' = PKMStats.reviewStreak s /\
  PKMStats.completedQuests s' = PKMStats.completedQuests s /\
  PKMStats.mostProductiveDomain s' = PKMStats.mostProductiveDomain s.
Proof.
  cbv zeta.
  apply (runAll_preserves
           (on_stats (fun s' =>
              PKMStats.reviewStreak s' = PKMStats.reviewStreak (PKMStore.stats (World.store w)) /\
              PKMStats.completedQuests s'
              = PKMStats.completedQuests (PKMStore.stats (World.store w)) /\
              PKMStats.mostProductiveDomain s'
              = PKMStats.mostProductiveDomain (PKMStore.stats (World.store w))))
           calls).
  - apply Forall_forall. intros c _. apply untouched_call.
  - repeat split.
Qed.

Lemma wisdom_call p k c :
  (forall id, c <> CollectNote id) ->
  preserves (on_stats (fun s => PKMStats.wisdomPoints s = p /\
                                PKMStats.collectedNotes s = k))
    (action_of c).
Proof.
  intros Hc. destruct c; try (exfalso; eapply Hc; reflexivity);
    stats_action ltac:(try assumption).
Qed.

(** Property X4.  Of the calls on notes, links, tags and reviews ([createNote],
    [updateNote], [deleteNote], [collectNote], [searchNotes], [createLink],
    [deleteLink], [createTag], [updateTag], [reviewNote]), [collectNote] is
    the only one that changes the wisdom points or the number of collected
    notes: creating or reviewing a note logs an activity with points, and
    the points are never added to the total.  ([updateStats] and
    [importData] write the statistics they are given and are not among
    these calls.) *)
Theorem wisdom_only_by_collecting (calls : list Call) (w : World.t) :
  Forall (fun c => forall id, c <> CollectNote id) calls ->
  PKMStats.wisdomPoints (PKMStore.stats (World.store (runAll calls w)))
  = PKMStats.wisdomPoints (PKMStore.stats (World.store w)) /\
  PKMStats.collectedNotes (PKMStore.stats (World.store (runAll calls w)))
  = PKMStats.collectedNotes (PKMStore.stats (World.store w)).
Proof.
  intros Hall.
  apply (runAll_preserves
           (on_stats (fun s' =>
              PKMStats.wisdomPoints s' = PKMStats.wisdomPoints (PKMStore.stats (World.store w)) /\
              PKMStats.collectedNotes s'
              = PKMStats.collectedNotes (PKMStore.stats (World.store w))))
           calls).
  - eapply Forall_impl; [exact Hall|]. intros c Hc. apply wisdom_call. exact Hc.
  - split; reflexivity.
Qed.

(** ** Without a database *)

Lemma createNote_closed w noteData newId now rx ry activityId :
  World.opened w = false ->
  createNote noteData newId now rx ry activityId w = (Thrown NotInitialized, w).
Proof.
  intros Ho. unfold createNote, PKMStorage.createNote, PKMStorage.ensureDB, bind, get.
  simpl. rewrite Ho. reflexivity.
Qed.

Lemma deleteNote_closed w id :
  World.opened w = false -> deleteNote id w = (Thrown NotInitialized, w).
Proof.
  intros Ho. unfold deleteNote, PKMStorage.deleteNote, PKMStorage.ensureDB, bind.
  rewrite Ho. reflexivity.
Qed.

Lemma createLink_closed w sourceId targetId type context newId now nowSource nowTarget :
  World.opened w = false ->
  createLink sourceId targetId type context newId now nowSource nowTarget w
  = (Thrown NotInitialized, w).
Proof.
  intros Ho. unfold createLink, PKMStorage.createLink, PKMStorage.ensureDB, bind.
  rewrite Ho. reflexivity.
Qed.

Lemma deleteLink_closed w id nowSource nowTarget link :
  World.opened w = false ->
  snd <$> list_find (fun l => NoteLink.id l = id) (PKMStore.links (World.store w))
  = Some link ->
  deleteLink id nowSource nowTarget w = (Thrown NotInitialized, w).
Proof.
  intros Ho Hf. unfold deleteLink, bind, get. simpl. rewrite Hf.
  unfold PKMStorage.deleteLink, PKMStorage.ensureDB, bind. rewrite Ho. reflexivity.
Qed.

Lemma createTag_closed w name color newId now :
  World.opened w = false -> createTag name color newId now w = (Thrown NotInitialized, w).
Proof.
  intros Ho. unfold createTag, PKMStorage.createTag, PKMStorage.ensureDB, bind.
  rewrite Ho. reflexivity.
Qed.

Lemma updateTag_closed w id updates i old :
  World.opened w = false ->
  list_find (fun tag => Tag.id tag = id) (PKMStore.tags (World.store w)) = Some (i, old) ->
  updateTag id updates w = (Thrown NotInitialized, w).
Proof.
  intros Ho Hf. unfold updateTag, bind, get. simpl. rewrite Hf.
  unfold PKMStorage.updateTag, PKMStorage.ensureDB, bind. rewrite Ho. reflexivity.
Qed.

Lemma searchNotes_closed w query :
  World.opened w = false ->
  searchNotes query w
  = if JsString.truthy (JsString.trim query) then (Thrown NotInitialized, w)
    else (Returned tt,
          World.mk false (World.idb w) (PKMStore.set_search "" [] (World.store w))).
Proof.
  intros Ho. unfold searchNotes. destruct (JsString.truthy _).
  - unfold PKMStorage.searchNotes, PKMStorage.getAllNotes, PKMStorage.ensureDB, bind.
    rewrite Ho. reflexivity.
  - unfold set. rewrite Ho. reflexivity.
Qed.

(** Property X5.  While the database is not opened, a call writes nothing: it returns
    without effect when the record it names is not in the store, and throws
    'Database not initialized' before it touches the store otherwise.  The
    one exception is a search for a blank query, which clears the search
    state and needs no database. *)
Theorem nothing_happens_without_database (c : Call) (w : World.t) :
  World.opened w = false ->
  (action_of c w = (Returned tt, w) \/ action_of c w = (Thrown NotInitialized, w)) \/
  (exists query,
     c = SearchNotes query /\ blank query /\
     action_of c w
     = (Returned tt,
        World.mk false (World.idb w) (PKMStore.set_search "" [] (World.store w)))).
Proof.
  intros Ho. destruct c; cbn [action_of].
  - left. right. apply createNote_closed. exact Ho.
  - left.
    destruct (list_find (hasId id) (PKMStore.notes (World.store w))) as [[i old]|] eqn:Hf.
    + right. apply (updateNote_closed _ _ _ _ i old Ho Hf).
    + left. apply updateNote_missing. exact Hf.
  - left. right. apply deleteNote_closed. exact Ho.
  - left. destruct (findNote id (PKMStore.notes (World.store w))) as [n|] eqn:Hf.
    + destruct (Note.isCollected n) eqn:Hc.
      * left. apply (collectNote_collected _ _ n Hf Hc).
      * right. apply (collectNote_closed _ _ n Ho Hf Hc).
    + left. apply collectNote_missing. exact Hf.
  - rewrite searchNotes_closed by exact Ho.
    destruct (JsString.truthy (JsString.trim query)) eqn:Ht.
    + left. right. reflexivity.
    + right. exists query. split; [reflexivity|]. split; [|reflexivity].
      apply trim_blank. exact Ht.
  - left. right. apply createLink_closed. exact Ho.
  - left.
    destruct (snd <$> list_find (fun l => NoteLink.id l = id)
                        (PKMStore.links (World.store w))) as [link|] eqn:Hf.
    + right. apply (deleteLink_closed _ _ _ _ link Ho Hf).
    + left. apply deleteLink_missing.
      destruct (list_find _ _) as [[i l]|]; [discriminate|reflexivity].
  - left. right. apply createTag_closed. exact Ho.
  - left.
    destruct (list_find (fun tag => Tag.id tag = id) (PKMStore.tags (World.store w)))
      as [[i old]|] eqn:Hf.
    + right. apply (updateTag_closed _ _ _ i old Ho Hf).
    + left. apply updateTag_missing. exact Hf.
  - left. destruct (findNote id (PKMStore.notes (World.store w))) as [n|] eqn:Hf.
    + right. apply (reviewNote_closed _ _ _ _ _ _ n Ho Hf).
    + left. apply reviewNote_missing. exact Hf.
Qed.

(** ** [createNote] *)

(** Property X6.  On an opened database that has no record under the new id,
    [createNote] returns; the note is the last of the store and sits under
    its id in the database; it is new, with the initial ease and interval,
    never reviewed, unlinked, its word count is the number of tokens of its
    content, a missing or empty title reads 'Untitled Note'; the statistics
    count one more note, in the store and in the database. *)
Theorem createNote_adds_the_note
    (w : World.t) (noteData : PartialNote.t) (newId : string) (now : Z)
    (rx ry : Js.number) (activityId : string) :
  World.opened w = true ->
  DB.notes (World.idb w) !! newId = None ->
  let w' := exec (createNote noteData newId now rx ry activityId) w in
  exists n,
    fst (createNote noteData newId now rx ry activityId w) = Returned tt /\
    PKMStore.notes (World.store w') = PKMStore.notes (World.store w) ++ [n] /\
    DB.notes (World.idb w') = <[newId := n]> (DB.notes (World.idb w)) /\
    Note.id n = newId /\
    Note.title n
    = match PartialNote.title noteData with
      | Some (String c t) => String c t
      | _ => "Untitled Note"
      end /\
    Note.content n = default "" (PartialNote.content noteData) /\
    Note.createdAt n = DateObj now /\ Note.updatedAt n = DateObj now /\
    ReviewData.status (Note.reviewData n) = st_new /\
    ReviewData.easeFactor (Note.reviewData n) = Js.div (Js.of_Z 25) (Js.of_Z 10) /\
    ReviewData.interval (Note.reviewData n) = Js.of_Z 1 /\
    ReviewData.reviewCount (Note.reviewData n) = 0 /\
    ReviewData.lastReviewed (Note.reviewData n) = DateNull /\
    NoteMetadata.wordCount (Note.metadata n)
    = Z.of_nat (count_tokens false (default "" (PartialNote.content noteData))) /\
    NoteMetadata.links (Note.metadata n) = [] /\
    NoteMetadata.backlinks (Note.metadata n) = [] /\
    PKMStats.totalNotes (PKMStore.stats (World.store w'))
    = PKMStats.totalNotes (PKMStore.stats (World.store w)) + 1 /\
    DB.stats (World.idb w') = Some (PKMStore.stats (World.store w')).
Proof.
  intros Ho Hfresh. cbv zeta. unfold exec, createNote, bind, get, set. cbv zeta.
  match goal with
  | |- context [PKMStorage.createNote ?n] => remember n as newNote eqn:En
  end.
  assert (Hid : Note.id newNote = newId) by (rewrite En; reflexivity).
  destruct (storage_createNote_outcome w newNote) as [[e Hm]|(_ & _ & Hm)].
  - exfalso. revert Hm.
    unfold PKMStorage.createNote, PKMStorage.transaction, PKMStorage.ensureDB,
      PKMStorage.write, PKMStorage.add, bind, throw.
    rewrite Ho, Hid. simpl. rewrite Hfresh. discriminate.
  - exists newNote. rewrite Hm. cbv beta iota.
    rewrite updateStats_open by exact Ho. cbn [fst snd]. rewrite Hid.
    repeat split; try reflexivity; try (rewrite En; reflexivity).
    + rewrite En. unfold orString. cbn [Note.title].
      destruct (PartialNote.title noteData) as [[|c t]|]; reflexivity.
    + rewrite En. cbn [Note.metadata NoteMetadata.wordCount].
      apply wordCountOf_tokens.
Qed.

(** Property X7.  [createNote] never overwrites: when the database already has a
    record under the id, the call throws the [ConstraintError] of [add], and
    the database and the store are as they were. *)
Theorem createNote_refuses_existing_id
    (w : World.t) (noteData : PartialNote.t) (newId : string) (now : Z)
    (rx ry : Js.number) (activityId : string) :
  World.opened w = true ->
  is_Some (DB.notes (World.idb w) !! newId) ->
  createNote noteData newId now rx ry activityId w = (Thrown ConstraintError, w).
Proof.
  intros Ho [x Hx]. unfold createNote, PKMStorage.createNote, PKMStorage.transaction,
    PKMStorage.ensureDB, PKMStorage.write, PKMStorage.add, bind, get, throw.
  destruct w as [o d s]. cbn in *. subst o. rewrite Hx. reflexivity.
Qed.

(** ** The link lists of the notes *)

Lemma storage_keeps_notes {A} (m : Action A) Q :
  (forall w, World.store (exec m w) = World.store w /\
             DB.notes (World.idb (exec m w)) = DB.notes (World.idb w)) ->
  preserves (on_notes Q) m.
Proof. intros Hm w H. unfold on_notes. destruct (Hm w) as [-> ->]. exact H. Qed.

Lemma notes_after_createLink link w :
  World.store (exec (PKMStorage.createLink link) w) = World.store w /\
  DB.notes (World.idb (exec (PKMStorage.createLink link) w)) = DB.notes (World.idb w).
Proof.
  destruct (storage_createLink_outcome w link) as [[e Hm]|(_ & _ & Hm)];
    unfold exec; rewrite Hm; split; reflexivity.
Qed.

Lemma notes_after_createTag tag w :
  World.store (exec (PKMStorage.createTag tag) w) = World.store w /\
  DB.notes (World.idb (exec (PKMStorage.createTag tag) w)) = DB.notes (World.idb w).
Proof.
  destruct (storage_createTag_outcome w tag) as [[e Hm]|(_ & _ & Hm)];
    unfold exec; rewrite Hm; split; reflexivity.
Qed.

Lemma notes_after_deleteLink id w :
  World.store (exec (PKMStorage.deleteLink id) w) = World.store w /\
  DB.notes (World.idb (exec (PKMStorage.deleteLink id) w)) = DB.notes (World.idb w).
Proof.
  destruct (storage_write_outcome (PKMStorage.deleteLink id) _ w eq_refl)
    as [[_ Hm]|[_ Hm]]; unfold exec; rewrite Hm; split; reflexivity.
Qed.

Lemma notes_after_updateTag tag w :
  World.store (exec (PKMStorage.updateTag tag) w) = World.store w /\
  DB.notes (World.idb (exec (PKMStorage.updateTag tag) w)) = DB.notes (World.idb w).
Proof.
  destruct (storage_write_outcome (PKMStorage.updateTag tag) _ w eq_refl)
    as [[_ Hm]|[_ Hm]]; unfold exec; rewrite Hm; split; reflexivity.
Qed.

Lemma notes_after_searchNotes query w :
  World.store (exec (PKMStorage.searchNotes query) w) = World.store w /\
  DB.notes (World.idb (exec (PKMStorage.searchNotes query) w)) = DB.notes (World.idb w).
Proof.
  unfold exec, PKMStorage.searchNotes, PKMStorage.getAllNotes, bind, ret,
    PKMStorage.ensureDB.
  destruct (World.opened w); split; reflexivity.
Qed.

Lemma notes_updateStats Q s' : preserves (on_notes Q) (updateStats (allStats s')).
Proof.
  intros w H. rewrite exec_updateStats. destruct (World.opened w); exact H.
Qed.

(** One step through an action, for a property of the notes; the steps
    that write notes are left to the property. *)
Ltac notes_step :=
  lazymatch goal with
  | |- preserves _ (ret _) => apply preserves_ret
  | |- preserves _ (throw _) => apply preserves_throw
  | |- preserves _ (set (PKMStore.set_links _)) =>
      let w := fresh "w" in let H := fresh "H" in intros w H; exact H
  | |- preserves _ (set (PKMStore.set_tags _)) =>
      let w := fresh "w" in let H := fresh "H" in intros w H; exact H
  | |- preserves _ (set (PKMStore.set_search _ _)) =>
      let w := fresh "w" in let H := fresh "H" in intros w H; exact H
  | |- preserves _ (PKMStorage.createLink _) =>
      apply storage_keeps_notes; apply notes_after_createLink
  | |- preserves _ (PKMStorage.createTag _) =>
      apply storage_keeps_notes; apply notes_after_createTag
  | |- preserves _ (PKMStorage.deleteLink _) =>
      apply storage_keeps_notes; apply notes_after_deleteLink
  | |- preserves _ (PKMStorage.updateTag _) =>
      apply storage_keeps_notes; apply notes_after_updateTag
  | |- preserves _ (PKMStorage.searchNotes _) =>
      apply storage_keeps_notes; apply notes_after_searchNotes
  | |- preserves _ (updateStats _) => apply notes_updateStats
  | |- preserves _ (bind get _) => apply preserves_get_any; intros ?
  | |- preserves _ (bind _ _) => apply preserves_bind; [|intros ?]
  | |- preserves _ (match ?x with _ => _ end) => destruct x
  end.

Ltac notes_steps := cbv zeta; repeat notes_step.

Lemma unlinked_updatedNoteOf old updates now :
  unlinked old -> unlinked (updatedNoteOf old updates now).
Proof.
  intros [Hl Hb]. destruct (updatedNoteOf_keeps_links old updates now) as [Hl' Hb'].
  split; congruence.
Qed.

Lemma Forall_replaceNote (P : Note.t -> Prop) id u notes :
  P u -> Forall P notes -> Forall P (replaceNote id u notes).
Proof.
  intros Hu Hall. unfold replaceNote. apply Forall_fmap.
  eapply Forall_impl; [exact Hall|]. intros x Hx. simpl.
  destruct (decide (Note.id x = id)); assumption.
Qed.

Lemma Forall_filter_keep {A} (P Q : A -> Prop) `{forall x, Decision (Q x)} (l : list A) :
  Forall P l -> Forall P (filter Q l).
Proof.
  rewrite !Forall_forall. intros Hall x Hx.
  apply list_elem_of_filter in Hx as [_ Hx]. apply Hall. exact Hx.
Qed.

Lemma unlinked_updateNote id updates now :
  preserves all_unlinked (updateNote id updates now).
Proof.
  intros w H. unfold updateNote.
  rewrite (exec_bind_returned get _ w (World.store w) w) by reflexivity.
  destruct (list_find (hasId id) (PKMStore.notes (World.store w))) as [[i old]|] eqn:Hf;
    [|exact H].
  apply list_find_Some in Hf as (Hi & _ & _).
  destruct H as [Hs Hd].
  assert (Hu : unlinked (updatedNoteOf old updates now)).
  { apply unlinked_updatedNoteOf. rewrite Forall_forall in Hs. apply Hs.
    apply list_elem_of_lookup. eauto. }
  destruct (storage_write_outcome
              (PKMStorage.updateNote (updatedNoteOf old updates now)) _ w eq_refl)
    as [[Ho Hm]|[Ho Hm]].
  - rewrite (exec_bind_thrown _ _ _ _ _ Hm). split; assumption.
  - rewrite (exec_bind_returned _ _ _ _ _ Hm). split.
    + apply Forall_replaceNote; assumption.
    + apply map_Forall_insert_2; assumption.
Qed.

Lemma unlinked_createNote noteData newId now rx ry activityId :
  preserves all_unlinked (createNote noteData newId now rx ry activityId).
Proof.
  intros w H. unfold createNote.
  rewrite (exec_bind_returned get _ w (World.store w) w) by reflexivity. cbv zeta.
  match goal with
  | |- context [PKMStorage.createNote ?n] => remember n as newNote eqn:En
  end.
  assert (Hu : unlinked newNote) by (rewrite En; split; reflexivity).
  destruct (storage_createNote_outcome w newNote) as [[e Hm]|(Ho & Hfresh & Hm)].
  - rewrite (exec_bind_thrown _ _ _ _ _ Hm). exact H.
  - rewrite (exec_bind_returned _ _ _ _ _ Hm).
    erewrite exec_bind_returned by reflexivity.
    erewrite exec_bind_returned by reflexivity.
    apply notes_updateStats. destruct H as [Hs Hd]. split.
    + apply Forall_app. split; [exact Hs|]. apply Forall_singleton. exact Hu.
    + apply map_Forall_insert_2; assumption.
Qed.

Lemma unlinked_deleteNote id : preserves all_unlinked (deleteNote id).
Proof.
  intros w H. unfold deleteNote.
  destruct (storage_deleteNote_outcome w id) as [[Ho Hm]|[Ho Hm]].
  - rewrite (exec_bind_thrown _ _ _ _ _ Hm). exact H.
  - rewrite (exec_bind_returned _ _ _ _ _ Hm).
    erewrite exec_bind_returned by reflexivity.
    erewrite exec_bind_returned by reflexivity.
    apply notes_updateStats. destruct H as [Hs Hd]. split.
    + apply Forall_filter_keep. exact Hs.
    + apply map_Forall_delete. exact Hd.
Qed.

Lemma unlinked_collectNote id : preserves all_unlinked (collectNote id).
Proof.
  intros w H. unfold collectNote.
  rewrite (exec_bind_returned get _ w (World.store w) w) by reflexivity.
  destruct (findNote id (PKMStore.notes (World.store w))) as [n|] eqn:Hf; [|exact H].
  destruct (Note.isCollected n); [exact H|].
  apply findNote_Some in Hf as [i Hf]. apply list_find_Some in Hf as (Hi & _ & _).
  destruct H as [Hs Hd].
  assert (Hu : unlinked (collected n)).
  { rewrite Forall_forall in Hs. apply (Hs n). apply list_elem_of_lookup. eauto. }
  destruct (storage_write_outcome (PKMStorage.updateNote (collected n)) _ w eq_refl)
    as [[Ho Hm]|[Ho Hm]].
  - rewrite (exec_bind_thrown _ _ _ _ _ Hm). split; assumption.
  - rewrite (exec_bind_returned _ _ _ _ _ Hm).
    erewrite exec_bind_returned by reflexivity.
    erewrite exec_bind_returned by reflexivity.
    apply notes_updateStats. split.
    + apply Forall_replaceNote; assumption.
    + apply map_Forall_insert_2; assumption.
Qed.

Lemma unlinked_call c : preserves all_unlinked (action_of c).
Proof.
  destruct c; cbn [action_of].
  - apply unlinked_createNote.
  - apply unlinked_updateNote.
  - apply unlinked_deleteNote.
  - apply unlinked_collectNote.
  - unfold searchNotes. notes_steps.
  - unfold createLink. notes_steps; apply unlinked_updateNote.
  - unfold deleteLink. notes_steps; apply unlinked_updateNote.
  - unfold createTag. notes_steps.
  - unfold updateTag. notes_steps.
  - unfold reviewNote. notes_steps. apply unlinked_updateNote.
Qed.

(** Property X8.  No call ever gives a note a link or a backlink.  [createLink] and
    [deleteLink] hand [updateNote] a new [metadata], and so may any caller,
    but [updateNote] writes back the link lists of the stored note: when no
    note lists a link or a backlink, in the store or in the database, none
    does after any sequence of calls. *)
Theorem link_lists_stay_empty (calls : list Call) (w : World.t) :
  all_unlinked w -> all_unlinked (runAll calls w).
Proof.
  apply (runAll_preserves all_unlinked calls).
  apply Forall_forall. intros c _. apply unlinked_call.
Qed.

(** ** Links *)

Lemma NoDup_getAll {V} (key : V -> string) (m : gmap string V) :
  keyed key m -> NoDup (PKMStorage.getAll m).
Proof.
  intros Hk. unfold PKMStorage.getAll.
  apply NoDup_fmap_2_strong.
  - intros [k1 v1] [k2 v2] H1 H2 Hv. simpl in Hv. subst v2.
    rewrite merge_sort_Permutation in H1, H2.
    apply elem_of_map_to_list in H1, H2.
    rewrite <- (Hk _ _ H1), <- (Hk _ _ H2). reflexivity.
  - rewrite merge_sort_Permutation. apply NoDup_map_to_list.
Qed.

(** Property X9.  On an opened database whose links sit under their ids,
    [getLinksForNote(id)] returns the stored links that have [id] as source
    or as target, and it returns a link twice exactly when the link goes
    from the note to itself. *)
Theorem getLinksForNote_repeats_self_links (w : World.t) (id : string) :
  World.opened w = true ->
  keyed NoteLink.id (DB.links (World.idb w)) ->
  exists ls,
    PKMStorage.getLinksForNote id w = (Returned ls, w) /\
    (forall l, l ∈ ls <->
       (exists k, DB.links (World.idb w) !! k = Some l) /\
       (NoteLink.sourceId l = id \/ NoteLink.targetId l = id)) /\
    (NoDup ls <->
     ~ exists k l, DB.links (World.idb w) !! k = Some l /\
                   NoteLink.sourceId l = id /\ NoteLink.targetId l = id).
Proof.
  intros Ho Hk. eexists. split; [|split].
  - unfold PKMStorage.getLinksForNote, PKMStorage.ensureDB, bind, ret.
    rewrite Ho. reflexivity.
  - intros l. rewrite elem_of_app, !list_elem_of_filter, elem_of_getAll. tauto.
  - pose proof (NoDup_getAll NoteLink.id _ Hk) as Hnd.
    rewrite NoDup_app. split.
    + intros (_ & Hdisj & _) (k & l & Hl & Hs & Ht).
      apply (Hdisj l); apply list_elem_of_filter; (split; [assumption|]);
        apply elem_of_getAll; eauto.
    + intros Hno. split; [apply NoDup_filter; exact Hnd|].
      split; [|apply NoDup_filter; exact Hnd].
      intros l Hs Ht. apply list_elem_of_filter in Hs as [Hs Hin].
      apply list_elem_of_filter in Ht as [Ht _].
      apply elem_of_getAll in Hin as [k Hin]. apply Hno. eauto.
Qed.

Lemma findNote_filter_out id notes :
  findNote id (filter (fun note => Note.id note <> id) notes) = None.
Proof.
  unfold findNote. destruct (list_find _ _) as [[i n]|] eqn:Hf; [|reflexivity].
  apply list_find_Some in Hf as (Hi & Hn & _).
  assert (Hin : n ∈ filter (fun note => Note.id note <> id) notes)
    by (apply list_elem_of_lookup; eauto).
  apply list_elem_of_filter in Hin as [Hne _]. destruct (Hne Hn).
Qed.

(** Property X10.  On an opened database whose links sit under their ids,
    [deleteNote(id)] returns and leaves no trace of the note: the database
    and the store have no note under the id, and neither holds a link that
    has the id as source or as target. *)
Theorem deleteNote_leaves_no_trace (w : World.t) (id : string) :
  World.opened w = true ->
  keyed NoteLink.id (DB.links (World.idb w)) ->
  let w' := exec (deleteNote id) w in
  fst (deleteNote id w) = Returned tt /\
  fst (PKMStorage.getNote id w') = Returned None /\
  findNote id (PKMStore.notes (World.store w')) = None /\
  fst (PKMStorage.getLinksForNote id w') = Returned [] /\
  Forall (fun l => NoteLink.sourceId l <> id /\ NoteLink.targetId l <> id)
    (PKMStore.links (World.store w')).
Proof.
  intros Ho Hk. cbv zeta.
  pose proof (deleteNote_cascade w id) as Hcascade.
  pose proof (deleteNote_links w id Ho) as Hlinks.
  destruct (deleteNote_stats w id Ho) as [Hret _].
  assert (Hrun : exists d s,
    exec (deleteNote id) w = World.mk true d s /\
    DB.notes d = delete id (DB.notes (World.idb w)) /\
    PKMStore.notes s = filter (fun note => Note.id note <> id)
                         (PKMStore.notes (World.store w))).
  { unfold exec, deleteNote, PKMStorage.deleteNote, PKMStorage.transaction,
      bind, PKMStorage.ensureDB, PKMStorage.write, get, set.
    rewrite Ho. simpl. rewrite updateStats_open by exact Ho.
    eexists _, _. split; [reflexivity|]. split; reflexivity. }
  destruct Hrun as (d & s & Hw' & Hd & Hs).
  rewrite Hw' in *. cbn [World.idb World.store] in *.
  split; [exact Hret|]. split; [|split; [|split]].
  - unfold PKMStorage.getNote, PKMStorage.ensureDB, bind, ret. cbn.
    rewrite Hd, lookup_delete_eq. reflexivity.
  - rewrite Hs. apply findNote_filter_out.
  - unfold PKMStorage.getLinksForNote, PKMStorage.ensureDB, bind, ret. cbn.
    f_equal. apply elem_of_nil_inv. intros l Hl.
    apply elem_of_app in Hl as [Hl|Hl]; apply list_elem_of_filter in Hl as [Hl Hin];
      apply elem_of_getAll in Hin as [k Hin];
      apply (Hcascade k l Ho Hk) in Hin as (_ & Hs' & Ht'); contradiction.
  - rewrite Hlinks. apply Forall_forall. intros l Hl.
    apply list_elem_of_filter in Hl as [Hl _]. exact Hl.
Qed.

(** ** [createLink] and [deleteLink] *)

Lemma same_but_notes_refl w : same_but_notes w w.
Proof. repeat split. Qed.

Lemma same_but_notes_trans w1 w2 w3 :
  same_but_notes w1 w2 -> same_but_notes w2 w3 -> same_but_notes w1 w3.
Proof.
  intros (Ho & Hs & Hd) (Ho' & Hs' & Hd'). repeat split; congruence.
Qed.

(** On an opened database [updateNote] returns, and it changes notes only. *)
Lemma updateNote_opened w id updates now :
  World.opened w = true ->
  exists w', updateNote id updates now w = (Returned tt, w') /\ same_but_notes w w'.
Proof.
  intros Ho.
  destruct (list_find (hasId id) (PKMStore.notes (World.store w))) as [[i old]|] eqn:Hf.
  - rewrite (updateNote_open w id updates now i old Ho Hf). eexists. split; [reflexivity|].
    cbv zeta. split; [symmetry; exact Ho|]. split; reflexivity.
  - rewrite (updateNote_missing w id updates now Hf). eexists. split; [reflexivity|].
    apply same_but_notes_refl.
Qed.

Lemma maybe_updateNote_opened w (o : option Note.t) id (updates : Note.t -> PartialNote.t)
    now :
  World.opened w = true ->
  exists w',
    match o with
    | Some note => updateNote id (updates note) now
    | None => ret tt
    end w = (Returned tt, w') /\ same_but_notes w w'.
Proof.
  intros Ho. destruct o as [note|].
  - apply updateNote_opened. exact Ho.
  - eexists. split; [reflexivity|]. apply same_but_notes_refl.
Qed.

Lemma same_but_notes_links w w' :
  same_but_notes w w' ->
  World.opened w' = World.opened w /\
  PKMStore.links (World.store w') = PKMStore.links (World.store w) /\
  PKMStore.stats (World.store w') = PKMStore.stats (World.store w) /\
  DB.links (World.idb w') = DB.links (World.idb w).
Proof.
  intros (Ho & Hs & Hd). split; [exact Ho|].
  split; [exact (f_equal PKMStore.links Hs)|].
  split; [exact (f_equal PKMStore.stats Hs)|].
  exact (f_equal DB.links Hd).
Qed.

(** What [createLink] does to the links on an opened database that has no
    record under the new id. *)
Lemma createLink_open w sourceId targetId type context newId now nowSource nowTarget :
  World.opened w = true ->
  DB.links (World.idb w) !! newId = None ->
  let newLink := NoteLink.mk newId sourceId targetId type 5 (DateObj now) context in
  exists w',
    createLink sourceId targetId type context newId now nowSource nowTarget w
    = (Returned tt, w') /\
    World.opened w' = true /\
    PKMStore.links (World.store w') = PKMStore.links (World.store w) ++ [newLink] /\
    DB.links (World.idb w') = <[newId := newLink]> (DB.links (World.idb w)) /\
    PKMStats.totalLinks (PKMStore.stats (World.store w'))
    = PKMStats.totalLinks (PKMStore.stats (World.store w)) + 1.
Proof.
  intros Ho Hfresh newLink. unfold createLink. cbv zeta. fold newLink.
  destruct (storage_createLink_outcome w newLink) as [[e Hm]|(_ & _ & Hm)].
  { exfalso. revert Hm.
    unfold PKMStorage.createLink, PKMStorage.transaction, PKMStorage.ensureDB,
      PKMStorage.write, PKMStorage.add, bind, throw.
    rewrite Ho. cbn. rewrite Hfresh. discriminate. }
  unfold bind at 1. rewrite Hm. unfold bind at 1, set at 1.
  unfold bind at 1, get at 1. cbn [World.store World.idb World.opened]. rewrite Ho.
  match goal with
  | |- context [bind (match ?o with Some n => updateNote ?id (@?u n) ?t | None => _ end) _ ?w1] =>
      destruct (maybe_updateNote_opened w1 o id u t eq_refl) as (w2 & Hr2 & Hf2)
  end.
  unfold bind at 1. rewrite Hr2.
  apply same_but_notes_links in Hf2 as (Ho2 & Hl2 & Hs2 & Hd2).
  cbn [World.store World.idb World.opened] in Ho2, Hl2, Hs2, Hd2.
  match goal with
  | |- context [bind (match ?o with Some n => updateNote ?id (@?u n) ?t | None => _ end) _ ?w1] =>
      destruct (maybe_updateNote_opened w1 o id u t Ho2) as (w3 & Hr3 & Hf3)
  end.
  unfold bind at 1. rewrite Hr3.
  apply same_but_notes_links in Hf3 as (Ho3 & Hl3 & Hs3 & Hd3).
  unfold bind, get. rewrite updateStats_open by congruence.
  eexists. split; [reflexivity|]. cbn. rewrite Hs3, Hs2, Hl3, Hl2, Hd3, Hd2.
  repeat split.
Qed.

Lemma findLink_Some id links link :
  snd <$> list_find (fun l => NoteLink.id l = id) links = Some link ->
  link ∈ links /\ NoteLink.id link = id.
Proof.
  destruct (list_find _ _) as [[i l]|] eqn:Hf; [|discriminate].
  intros [= <-]. apply list_find_Some in Hf as (Hi & Hl & _).
  split; [|exact Hl]. apply list_elem_of_lookup. eauto.
Qed.

(** What [deleteLink] does to the links on an opened database, for a link
    the store lists. *)
Lemma deleteLink_open w id nowSource nowTarget link :
  World.opened w = true ->
  snd <$> list_find (fun l => NoteLink.id l = id) (PKMStore.links (World.store w))
  = Some link ->
  exists w',
    deleteLink id nowSource nowTarget w = (Returned tt, w') /\
    World.opened w' = true /\
    PKMStore.links (World.store w')
    = filter (fun l => NoteLink.id l <> id) (PKMStore.links (World.store w)) /\
    DB.links (World.idb w') = delete id (DB.links (World.idb w)) /\
    PKMStats.totalLinks (PKMStore.stats (World.store w'))
    = Z.max 0 (PKMStats.totalLinks (PKMStore.stats (World.store w)) - 1).
Proof.
  intros Ho Hf. unfold deleteLink. unfold bind at 1, get at 1.
  cbn [World.store]. rewrite Hf.
  destruct (storage_write_outcome (PKMStorage.deleteLink id) _ w eq_refl)
    as [[Ho' _]|[_ Hm]]; [congruence|].
  unfold bind at 1. rewrite Hm. unfold bind at 1, set at 1.
  cbn [World.store World.idb World.opened]. rewrite Ho.
  match goal with
  | |- context [bind (match ?o with Some n => updateNote ?id (@?u n) ?t | None => _ end) _ ?w1] =>
      destruct (maybe_updateNote_opened w1 o id u t eq_refl) as (w2 & Hr2 & Hf2)
  end.
  unfold bind at 1. rewrite Hr2.
  apply same_but_notes_links in Hf2 as (Ho2 & Hl2 & Hs2 & Hd2).
  cbn [World.store World.idb World.opened] in Ho2, Hl2, Hs2, Hd2.
  match goal with
  | |- context [bind (match ?o with Some n => updateNote ?id (@?u n) ?t | None => _ end) _ ?w1] =>
      destruct (maybe_updateNote_opened w1 o id u t Ho2) as (w3 & Hr3 & Hf3)
  end.
  unfold bind at 1. rewrite Hr3.
  apply same_but_notes_links in Hf3 as (Ho3 & Hl3 & Hs3 & Hd3).
  unfold bind, get. rewrite updateStats_open by congruence.
  eexists. split; [reflexivity|]. cbn. rewrite Hs3, Hs2, Hl3, Hl2, Hd3, Hd2.
  repeat split.
Qed.

Lemma filter_all {A} (P : A -> Prop) `{forall x, Decision (P x)} (l : list A) :
  Forall P l -> filter P l = l.
Proof.
  induction 1 as [|x l Hx _ IH]; [reflexivity|].
  rewrite filter_cons, decide_True by exact Hx. f_equal. exact IH.
Qed.

(** Property X11.  In a world whose store mirrors its opened database, and whose link
    counter is not negative, creating a link under an id the database does
    not have and deleting it again gives back the links of the store, the
    links of the database and the link counter. *)
Theorem deleteLink_undoes_createLink
    (w : World.t) (sourceId targetId : string) (type : LinkType) (context : option string)
    (newId : string) (now nowSource nowTarget nowSource' nowTarget' : Z) :
  World.opened w = true ->
  in_sync w ->
  DB.links (World.idb w) !! newId = None ->
  0 <= PKMStats.totalLinks (PKMStore.stats (World.store w)) ->
  let w1 := exec (createLink sourceId targetId type context newId now nowSource nowTarget) w in
  let w2 := exec (deleteLink newId nowSource' nowTarget') w1 in
  fst (createLink sourceId targetId type context newId now nowSource nowTarget w)
  = Returned tt /\
  fst (deleteLink newId nowSource' nowTarget' w1) = Returned tt /\
  PKMStore.links (World.store w2) = PKMStore.links (World.store w) /\
  DB.links (World.idb w2) = DB.links (World.idb w) /\
  PKMStats.totalLinks (PKMStore.stats (World.store w2))
  = PKMStats.totalLinks (PKMStore.stats (World.store w)).
Proof.
  intros Ho (_ & Hsync & _) Hfresh Hpos. cbv zeta. unfold exec.
  destruct (createLink_open w sourceId targetId type context newId now nowSource nowTarget
              Ho Hfresh) as (w1 & Hr1 & Ho1 & Hl1 & Hd1 & Ht1).
  rewrite Hr1. cbn [fst snd].
  assert (Hnone : Forall (fun l => NoteLink.id l <> newId) (PKMStore.links (World.store w))).
  { apply Forall_forall. intros l Hl Hid.
    assert (Hin : DB.links (World.idb w) !! newId = Some l) by (apply Hsync; auto).
    congruence. }
  assert (Hfind : snd <$> list_find (fun l => NoteLink.id l = newId)
                            (PKMStore.links (World.store w1))
                  = Some (NoteLink.mk newId sourceId targetId type 5 (DateObj now) context)).
  { rewrite Hl1. destruct (list_find _ _) as [[i l]|] eqn:Hf.
    - apply list_find_Some in Hf as (Hi & Hl & _).
      assert (Hin : l ∈ PKMStore.links (World.store w)
                        ++ [NoteLink.mk newId sourceId targetId type 5 (DateObj now) context])
        by (apply list_elem_of_lookup; eauto).
      apply elem_of_app in Hin as [Hin|Hin].
      + rewrite Forall_forall in Hnone. destruct (Hnone l Hin Hl).
      + apply list_elem_of_singleton in Hin. subst l. reflexivity.
    - exfalso. eapply list_find_None in Hf. rewrite Forall_app, Forall_singleton in Hf.
      destruct Hf as [_ Hf]. apply Hf. reflexivity. }
  destruct (deleteLink_open w1 newId nowSource' nowTarget' _ Ho1 Hfind)
    as (w2 & Hr2 & Ho2 & Hl2 & Hd2 & Ht2).
  rewrite Hr2. cbn [fst snd]. split; [reflexivity|]. split; [reflexivity|].
  split; [|split].
  - rewrite Hl2, Hl1, filter_app, filter_all by exact Hnone.
    rewrite filter_cons, decide_False by (intros Hne; apply Hne; reflexivity).
    rewrite filter_nil. apply app_nil_r.
  - rewrite Hd2, Hd1. apply delete_insert_id. exact Hfresh.
  - rewrite Ht2, Ht1. lia.
Qed.

(** ** [updateNote] with a new id *)

Lemma findNote_replaced_away id u notes :
  Note.id u <> id -> findNote id (replaceNote id u notes) = None.
Proof.
  intros Hu. unfold findNote.
  destruct (list_find _ _) as [[i n]|] eqn:Hf; [|reflexivity].
  apply list_find_Some in Hf as (Hi & Hn & _). exfalso.
  unfold replaceNote in Hi. rewrite list_lookup_fmap in Hi.
  destruct (notes !! i) as [x|]; [|discriminate]. simpl in Hi.
  destruct (decide (Note.id x = id)) as [Hx|Hx]; injection Hi as <-; contradiction.
Qed.

(** Property X12.  [updateNote(id, updates)] with an [id] among the updates writes the
    updated note under the new id and leaves the old record in the
    database: on an opened database that the store mirrors, the database
    then holds the note twice, under both ids, the store no longer finds it
    under the old one, and the store has stopped mirroring the database. *)
Theorem updateNote_with_new_id_leaves_old_record
    (w : World.t) (id id2 : string) (updates : PartialNote.t) (now : Z) (old : Note.t) :
  World.opened w = true ->
  in_sync w ->
  findNote id (PKMStore.notes (World.store w)) = Some old ->
  PartialNote.id updates = Some id2 ->
  id2 <> id ->
  let w' := exec (updateNote id updates now) w in
  fst (updateNote id updates now w) = Returned tt /\
  DB.notes (World.idb w') !! id = Some old /\
  DB.notes (World.idb w') !! id2 = Some (updatedNoteOf old updates now) /\
  findNote id (PKMStore.notes (World.store w')) = None /\
  ~ in_sync w'.
Proof.
  intros Ho Hsync Hf Hid Hne. cbv zeta.
  pose proof Hf as Hdb. rewrite (mirrors_findNote _ _ id (proj1 Hsync)) in Hdb.
  apply findNote_Some in Hf as [i Hf].
  assert (Hu : Note.id (updatedNoteOf old updates now) = id2).
  { unfold updatedNoteOf. cbn. rewrite Hid. reflexivity. }
  unfold exec. rewrite (updateNote_open w id updates now i old Ho Hf).
  cbv zeta. cbn [fst snd World.idb World.store DB.notes DB.set_notes PKMStore.notes
                 PKMStore.set_notes].
  rewrite Hu.
  assert (Hgone : findNote id (replaceNote id (updatedNoteOf old updates now)
                                 (PKMStore.notes (World.store w))) = None).
  { apply findNote_replaced_away. rewrite Hu. exact Hne. }
  split; [reflexivity|]. split; [|split; [|split]].
  - rewrite lookup_insert_ne by exact Hne. exact Hdb.
  - apply lookup_insert_eq.
  - exact Hgone.
  - intros (Hn & _). pose proof (mirrors_findNote _ _ id Hn) as E.
    cbn [World.store World.idb PKMStore.notes PKMStore.set_notes DB.notes DB.set_notes]
      in E.
    rewrite Hgone, lookup_insert_ne in E by exact Hne. congruence.
Qed.

(** ** Search *)

Lemma is_whitespace_lower c :
  JsString.is_whitespace (JsString.lower_char c) = JsString.is_whitespace c.
Proof. destruct c as [[] [] [] [] [] [] [] []]; reflexivity. Qed.

Lemma blank_lower s : blank (JsString.toLowerCase s) <-> blank s.
Proof.
  induction s as [|c s IH]; simpl; [reflexivity|].
  rewrite is_whitespace_lower, IH. reflexivity.
Qed.

Lemma truthy_trim_lower s :
  JsString.truthy (JsString.trim (JsString.toLowerCase s))
  = JsString.truthy (JsString.trim s).
Proof.
  destruct (JsString.truthy (JsString.trim s)) eqn:Hs.
  - destruct (JsString.truthy (JsString.trim (JsString.toLowerCase s))) eqn:Hl;
      [reflexivity|].
    apply (proj1 (trim_blank _)), (proj1 (blank_lower _)), (proj2 (trim_blank _)) in Hl.
    congruence.
  - apply (proj2 (trim_blank _)), (proj2 (blank_lower _)), (proj1 (trim_blank _)).
    exact Hs.
Qed.

(** Property X13.  The search ignores the case of the query: two queries that are equal
    once lower-cased find the same notes, in the same order. *)
Theorem search_ignores_case_of_query (w : World.t) (query1 query2 : string) :
  World.opened w = true ->
  JsString.toLowerCase query1 = JsString.toLowerCase query2 ->
  PKMStore.searchResults (World.store (exec (searchNotes query1) w))
  = PKMStore.searchResults (World.store (exec (searchNotes query2) w)).
Proof.
  intros Ho Heq. rewrite !searchNotes_results by exact Ho.
  rewrite <- (truthy_trim_lower query1), <- (truthy_trim_lower query2), Heq.
  unfold PKMStorage.searchTerms. rewrite Heq. reflexivity.
Qed.

Lemma split_space_cons s : exists h t, JsString.split_space s = h :: t.
Proof.
  induction s as [|c s (h & t & IH)]; simpl; [eauto|].
  destruct (JsString.is_space c); [eauto|]. rewrite IH. simpl. eauto.
Qed.

Lemma split_space_app a b :
  JsString.split_space (a +:+ " " +:+ b)
  = JsString.split_space a ++ JsString.split_space b.
Proof.
  induction a as [|c a IH]; [reflexivity|].
  rewrite append_cons. cbn [JsString.split_space]. rewrite IH.
  destruct (JsString.is_space c); [reflexivity|].
  destruct (split_space_cons a) as (h & t & ->). reflexivity.
Qed.

Lemma toLowerCase_app a b :
  JsString.toLowerCase (a +:+ b) = JsString.toLowerCase a +:+ JsString.toLowerCase b.
Proof.
  induction a as [|c a IH]; [reflexivity|].
  rewrite append_cons. cbn [JsString.toLowerCase]. rewrite IH, append_cons. reflexivity.
Qed.

Lemma searchTerms_app a b :
  PKMStorage.searchTerms (a +:+ " " +:+ b)
  = PKMStorage.searchTerms a ++ PKMStorage.searchTerms b.
Proof.
  unfold PKMStorage.searchTerms.
  rewrite !toLowerCase_app. change (JsString.toLowerCase " ") with " ".
  rewrite split_space_app, filter_app. reflexivity.
Qed.

Lemma blank_app a b : blank (a +:+ b) <-> blank a /\ blank b.
Proof.
  induction a as [|c a IH]; [simpl; tauto|].
  rewrite append_cons. simpl. rewrite IH. tauto.
Qed.

(** Property X14.  A space in the query means "and": for two queries that are not
    blank, the notes found for the one, a space, and the other are the
    notes found for both. *)
Theorem search_space_means_and (w : World.t) (query1 query2 : string) (note : Note.t) :
  World.opened w = true ->
  ~ blank query1 -> ~ blank query2 ->
  note ∈ PKMStore.searchResults
           (World.store (exec (searchNotes (query1 +:+ " " +:+ query2)) w))
  <-> note ∈ PKMStore.searchResults (World.store (exec (searchNotes query1) w)) /\
      note ∈ PKMStore.searchResults (World.store (exec (searchNotes query2) w)).
Proof.
  intros Ho H1 H2. rewrite !searchNotes_results by exact Ho.
  assert (T1 : JsString.truthy (JsString.trim query1) = true).
  { apply not_false_iff_true. intros E. apply H1, trim_blank, E. }
  assert (T2 : JsString.truthy (JsString.trim query2) = true).
  { apply not_false_iff_true. intros E. apply H2, trim_blank, E. }
  assert (T : JsString.truthy (JsString.trim (query1 +:+ " " +:+ query2)) = true).
  { apply not_false_iff_true. intros E.
    apply (proj1 (trim_blank _)), (proj1 (blank_app _ _)) in E. tauto. }
  rewrite T1, T2, T, searchTerms_app, !list_elem_of_filter.
  unfold PKMStorage.matches. rewrite forallb_app, andb_true_iff. tauto.
Qed.

(** ** Export and import *)

Lemma addAll_ok {V} (key : V -> string) (l : list V) : forall (m : gmap string V),
  NoDup (key <$> l) -> (forall v, v ∈ l -> m !! key v = None) ->
  exists m', PKMStorageSnapshot.addAll key l m = Returned m' /\
             forall k v, m' !! k = Some v <-> m !! k = Some v \/ (v ∈ l /\ key v = k).
Proof.
  induction l as [|x l IH]; intros m Hnd Hfresh.
  - exists m. split; [reflexivity|]. intros k v. rewrite elem_of_nil. tauto.
  - rewrite fmap_cons in Hnd. apply NoDup_cons in Hnd as [Hx Hnd].
    cbn [PKMStorageSnapshot.addAll]. unfold PKMStorage.add.
    rewrite (Hfresh x) by apply list_elem_of_here.
    destruct (IH (<[key x := x]> m) Hnd) as (m' & Hm' & Hlook).
    { intros v Hv. rewrite lookup_insert_ne.
      - apply Hfresh. apply list_elem_of_further. exact Hv.
      - intros Heq. apply Hx. rewrite Heq. apply list_elem_of_fmap. eauto. }
    exists m'. split; [exact Hm'|]. intros k v.
    rewrite Hlook, lookup_insert_Some, elem_of_cons. split.
    + intros [[[<- <-]|[Hne Hk]]|[Hv Hk]]; auto.
    + intros [Hk|[[->|Hv] Hk]]; auto.
      left. right. split; [|exact Hk]. intros <-.
      rewrite (Hfresh x) in Hk by apply list_elem_of_here. discriminate.
Qed.

Lemma addAll_fail {V} (key : V -> string) (l : list V) : forall (m : gmap string V),
  ~ (NoDup (key <$> l) /\ forall v, v ∈ l -> m !! key v = None) ->
  PKMStorageSnapshot.addAll key l m = Thrown ConstraintError.
Proof.
  induction l as [|x l IH]; intros m Hno.
  - exfalso. apply Hno. split; [constructor|]. intros v Hv. apply elem_of_nil in Hv.
    destruct Hv.
  - cbn [PKMStorageSnapshot.addAll]. unfold PKMStorage.add.
    destruct (m !! key x) as [y|] eqn:Hx; [reflexivity|].
    apply IH. intros [Hnd Hfresh]. apply Hno.
    assert (Hnew : forall v, v ∈ l -> key v <> key x).
    { intros v Hv Heq. specialize (Hfresh v Hv).
      rewrite Heq, lookup_insert_eq in Hfresh. discriminate. }
    split.
    + rewrite fmap_cons. apply NoDup_cons. split; [|exact Hnd].
      intros Hin. apply list_elem_of_fmap in Hin as (v & Heq & Hv).
      apply (Hnew v Hv). symmetry. exact Heq.
    + intros v Hv. apply elem_of_cons in Hv as [->|Hv]; [exact Hx|].
      specialize (Hfresh v Hv). rewrite lookup_insert_ne in Hfresh; [exact Hfresh|].
      intros Heq. apply (Hnew v Hv). symmetry. exact Heq.
Qed.

Lemma addAll_empty_ok {V} (key : V -> string) (l : list V) :
  NoDup (key <$> l) ->
  exists m', PKMStorageSnapshot.addAll key l ∅ = Returned m' /\ mirrors key l m'.
Proof.
  intros Hnd. destruct (addAll_ok key l ∅ Hnd) as (m' & Hm' & Hlook).
  { intros v _. apply lookup_empty. }
  exists m'. split; [exact Hm'|]. intros k v. rewrite Hlook, lookup_empty.
  split; [intros [H|H]; [discriminate|exact H]|auto].
Qed.

Lemma addAll_empty_fail {V} (key : V -> string) (l : list V) :
  ~ NoDup (key <$> l) -> PKMStorageSnapshot.addAll key l ∅ = Thrown ConstraintError.
Proof. intros Hno. apply addAll_fail. intros [Hnd _]. exact (Hno Hnd). Qed.

(** [importData] of [PKMStorage] on an opened database: the lists of the
    document are added to emptied object stores. *)
Lemma storage_importData_ok w data :
  World.opened w = true -> ids_distinct data ->
  exists d,
    PKMStorageSnapshot.importData data w = (Returned tt, World.mk true d (World.store w)) /\
    mirrors Note.id (default [] (Snapshot.notes data)) (DB.notes d) /\
    mirrors NoteLink.id (default [] (Snapshot.links data)) (DB.links d) /\
    mirrors Tag.id (default [] (Snapshot.tags data)) (DB.tags d) /\
    mirrors KnowledgeQuest.id (default [] (Snapshot.quests data)) (DB.quests d) /\
    mirrors Room.id (default [] (Snapshot.rooms data)) (DB.rooms d) /\
    DB.stats d = Snapshot.stats data /\
    DB.settings d = Snapshot.settings data.
Proof.
  intros Ho (Hn & Hl & Ht & Hq & Hr).
  destruct (addAll_empty_ok Note.id _ Hn) as (mn & En & Mn).
  destruct (addAll_empty_ok NoteLink.id _ Hl) as (ml & El & Ml).
  destruct (addAll_empty_ok Tag.id _ Ht) as (mt & Et & Mt).
  destruct (addAll_empty_ok KnowledgeQuest.id _ Hq) as (mq & Eq & Mq).
  destruct (addAll_empty_ok Room.id _ Hr) as (mr & Er & Mr).
  exists (DB.mk mn ml mt mq mr (Snapshot.stats data) (Snapshot.settings data)).
  split; [|split_and!; assumption || reflexivity].
  destruct w as [o d s]. cbn in Ho. subst o.
  unfold PKMStorageSnapshot.importData, PKMStorage.clearAllData, PKMStorage.transaction,
    PKMStorageSnapshot.addAllTo, PKMStorage.ensureDB, PKMStorage.write, bind, ret, throw.
  cbn. rewrite En. cbn. rewrite El. cbn. rewrite Et. cbn. rewrite Eq. cbn. rewrite Er. cbn.
  destruct (Snapshot.stats data), (Snapshot.settings data); reflexivity.
Qed.

Lemma storage_importData_fail w data :
  World.opened w = true -> ~ ids_distinct data ->
  PKMStorageSnapshot.importData data w
  = (Thrown ConstraintError, World.mk true DB.empty (World.store w)).
Proof.
  intros Ho Hno.
  destruct w as [o d s]. cbn in Ho. subst o.
  unfold PKMStorageSnapshot.importData, PKMStorage.clearAllData, PKMStorage.transaction,
    PKMStorageSnapshot.addAllTo, PKMStorage.ensureDB, PKMStorage.write, bind, ret, throw.
  cbn.
  destruct (decide (NoDup (Note.id <$> default [] (Snapshot.notes data)))) as [Hn|Hn];
    [|rewrite (addAll_empty_fail _ _ Hn); reflexivity].
  destruct (addAll_empty_ok Note.id _ Hn) as (mn & -> & _). cbn.
  destruct (decide (NoDup (NoteLink.id <$> default [] (Snapshot.links data)))) as [Hl|Hl];
    [|rewrite (addAll_empty_fail _ _ Hl); reflexivity].
  destruct (addAll_empty_ok NoteLink.id _ Hl) as (ml & -> & _). cbn.
  destruct (decide (NoDup (Tag.id <$> default [] (Snapshot.tags data)))) as [Ht|Ht];
    [|rewrite (addAll_empty_fail _ _ Ht); reflexivity].
  destruct (addAll_empty_ok Tag.id _ Ht) as (mt & -> & _). cbn.
  destruct (decide (NoDup (KnowledgeQuest.id <$> default [] (Snapshot.quests data))))
    as [Hq|Hq]; [|rewrite (addAll_empty_fail _ _ Hq); reflexivity].
  destruct (addAll_empty_ok KnowledgeQuest.id _ Hq) as (mq & -> & _). cbn.
  destruct (decide (NoDup (Room.id <$> default [] (Snapshot.rooms data)))) as [Hr|Hr];
    [|rewrite (addAll_empty_fail _ _ Hr); reflexivity].
  exfalso. apply Hno. repeat split; assumption.
Qed.

Lemma mirrors_getAll {V} (key : V -> string) (m : gmap string V) :
  keyed key m -> mirrors key (PKMStorage.getAll m) m.
Proof.
  intros Hk k v. rewrite elem_of_getAll. split.
  - intros Hv. split; [eauto|]. apply (Hk k v Hv).
  - intros [[k' Hv] Hkey]. assert (k' = k) as <-; [|exact Hv].
    rewrite <- Hkey. symmetry. apply (Hk k' v Hv).
Qed.

(** [initializePKM] when [indexedDB.open] succeeds. *)
Lemma initializePKM_ok w :
  initializePKM true w
  = (Returned tt,
     World.mk true (World.idb w)
       (PKMStore.mk
          (PKMStorage.getAll (DB.notes (World.idb w)))
          (PKMStorage.getAll (DB.links (World.idb w)))
          (PKMStorage.getAll (DB.tags (World.idb w)))
          (PKMStorage.getAll (DB.quests (World.idb w)))
          (if (0 <? length (PKMStorage.getAll (DB.rooms (World.idb w))))%nat
           then PKMStorage.getAll (DB.rooms (World.idb w)) else defaultRooms)
          (default defaultStats (DB.stats (World.idb w)))
          (default defaultSettings (DB.settings (World.idb w)))
          (PKMStore.currentRoom (World.store w)) (PKMStore.selectedNote (World.store w))
          (PKMStore.searchQuery (World.store w)) (PKMStore.searchResults (World.store w))
          (PKMStore.isNotesOverlayOpen (World.store w))
          (PKMStore.isCreatingNote (World.store w))
          (PKMStore.isReviewMode (World.store w)))).
Proof. reflexivity. Qed.


(** Property X15.  When [indexedDB.open] succeeds, [initializePKM] returns with the
    database opened and untouched and the store loaded from it: if the
    records of the database sit under their ids, the store mirrors the
    database; statistics and settings the database lacks are the defaults. *)
Theorem initializePKM_loads_the_database (w : World.t) :
  records_keyed (World.idb w) ->
  let w' := exec (initializePKM true) w in
  fst (initializePKM true w) = Returned tt /\
  World.opened w' = true /\
  World.idb w' = World.idb w /\
  in_sync w' /\
  PKMStore.stats (World.store w') = default defaultStats (DB.stats (World.idb w)) /\
  PKMStore.settings (World.store w') = default defaultSettings (DB.settings (World.idb w)).
Proof.
  intros (Hn & Hl & Ht & _ & _). cbv zeta. unfold exec. rewrite initializePKM_ok.
  cbn [fst snd World.opened World.idb World.store PKMStore.stats PKMStore.settings].
  split_and!; try reflexivity; split_and!; cbn; apply mirrors_getAll; assumption.
Qed.

Lemma importData_replaces_database_aux (w : World.t) (data : Snapshot.t) :
  World.opened w = true ->
  ids_distinct data ->
  let w' := exec (importData data true) w in
  fst (importData data true w) = Returned tt /\
  World.opened w' = true /\
  mirrors Note.id (default [] (Snapshot.notes data)) (DB.notes (World.idb w')) /\
  mirrors NoteLink.id (default [] (Snapshot.links data)) (DB.links (World.idb w')) /\
  mirrors Tag.id (default [] (Snapshot.tags data)) (DB.tags (World.idb w')) /\
  mirrors KnowledgeQuest.id (default [] (Snapshot.quests data)) (DB.quests (World.idb w')) /\
  mirrors Room.id (default [] (Snapshot.rooms data)) (DB.rooms (World.idb w')) /\
  DB.stats (World.idb w') = Snapshot.stats data /\
  DB.settings (World.idb w') = Snapshot.settings data.
Proof.
  intros Ho Hids. cbv zeta.
  destruct (storage_importData_ok w data Ho Hids)
    as (d & Hrun & Mn & Ml & Mt & Mq & Mr & Hs & Hg).
  unfold exec, importData, bind. rewrite Hrun, initializePKM_ok.
  cbn [fst snd World.opened World.idb World.store].
  split_and!; try assumption; reflexivity.
Qed.


(** Property X17.  On an opened database, [importData] of a document that holds an id
    twice in one of its lists throws the [ConstraintError] of [add]; the
    database is empty by then, for it was cleared in a transaction of its
    own, and the store still shows what it showed. *)
Theorem failed_import_empties_the_database
    (w : World.t) (data : Snapshot.t) (initOk : bool) :
  World.opened w = true ->
  ~ ids_distinct data ->
  importData data initOk w
  = (Thrown ConstraintError, World.mk true DB.empty (World.store w)).
Proof.
  intros Ho Hno. unfold importData, bind.
  rewrite (storage_importData_fail w data Ho Hno). reflexivity.
Qed.

(** ** An export read back *)

Lemma NoDup_keys_getAll {V} (key : V -> string) (m : gmap string V) :
  keyed key m -> NoDup (key <$> PKMStorage.getAll m).
Proof.
  intros Hk. apply NoDup_fmap_2_strong; [|apply (NoDup_getAll key _ Hk)].
  intros x y Hx Hy Hxy.
  apply elem_of_getAll in Hx as [kx Hx]. apply elem_of_getAll in Hy as [ky Hy].
  pose proof (Hk _ _ Hx). pose proof (Hk _ _ Hy). congruence.
Qed.

Lemma NoDup_keys_json {V} (key : V -> string) (f : V -> V) (m : gmap string V) :
  (forall x, key (f x) = key x) -> keyed key m ->
  NoDup (key <$> map f (PKMStorage.getAll m)).
Proof.
  intros Hf Hk. change (map f (PKMStorage.getAll m)) with (f <$> PKMStorage.getAll m).
  rewrite <- list_fmap_compose.
  rewrite (list_fmap_ext (key ∘ f) key (PKMStorage.getAll m));
    [apply NoDup_keys_getAll; exact Hk|].
  intros i x _. apply Hf.
Qed.

(** The object store that mirrors the image of the records of another is
    its image. *)
Lemma mirrors_image {V} (key : V -> string) (f : V -> V) (m m' : gmap string V) :
  (forall x, key (f x) = key x) -> keyed key m ->
  mirrors key (map f (PKMStorage.getAll m)) m' -> m' = f <$> m.
Proof.
  intros Hf Hk Hm. apply map_eq. intros k. apply option_eq. intros v.
  rewrite (Hm k v), lookup_fmap_Some.
  change (map f (PKMStorage.getAll m)) with (f <$> PKMStorage.getAll m).
  rewrite list_elem_of_fmap. split.
  - intros [(x & -> & Hx) Hkey]. apply elem_of_getAll in Hx as [k' Hx].
    exists x. split; [reflexivity|]. rewrite Hf in Hkey.
    rewrite <- Hkey, (Hk _ _ Hx). exact Hx.
  - intros (x & <- & Hx). split.
    + exists x. split; [reflexivity|]. apply elem_of_getAll. eauto.
    + rewrite Hf. apply (Hk _ _ Hx).
Qed.

Lemma exportData_open w now :
  World.opened w = true ->
  exportData now w
  = (Returned
       (Json.snapshot
          (Snapshot.mk "1.0" (DateObj now)
             (Some (PKMStorage.getAll (DB.notes (World.idb w))))
             (Some (PKMStorage.getAll (DB.links (World.idb w))))
             (Some (PKMStorage.getAll (DB.tags (World.idb w))))
             (Some (PKMStorage.getAll (DB.quests (World.idb w))))
             (Some (PKMStorage.getAll (DB.rooms (World.idb w))))
             (DB.stats (World.idb w)) (DB.settings (World.idb w)))), w).
Proof.
  intros Ho. destruct w as [o d s]. cbn in Ho. subst o. reflexivity.
Qed.

(** What an export of a database whose records sit under their ids gives
    back when it is imported. *)
Lemma import_of_export w1 w2 now :
  World.opened w1 = true -> records_keyed (World.idb w1) -> World.opened w2 = true ->
  exists doc,
    exportData now w1 = (Returned doc, w1) /\
    fst (importData doc true w2) = Returned tt /\
    World.opened (exec (importData doc true) w2) = true /\
    World.idb (exec (importData doc true) w2) = jsonDB (World.idb w1).
Proof.
  intros Ho1 (Kn & Kl & Kt & Kq & Kr) Ho2.
  eexists. split; [apply exportData_open; exact Ho1|].
  match goal with |- context [importData ?d true w2] => set (doc := d) end.
  assert (Hids : ids_distinct doc).
  { unfold ids_distinct, doc. cbn [Json.snapshot Snapshot.notes Snapshot.links
      Snapshot.tags Snapshot.quests Snapshot.rooms option_map default].
    split_and!; apply NoDup_keys_json; (reflexivity || assumption). }
  destruct (importData_replaces_database_aux w2 doc Ho2 Hids)
    as (Hret & Hopen & Mn & Ml & Mt & Mq & Mr & Hs & Hg).
  split; [exact Hret|]. split; [exact Hopen|].
  subst doc.
  cbn [Json.snapshot Snapshot.notes Snapshot.links Snapshot.tags Snapshot.quests
       Snapshot.rooms Snapshot.stats Snapshot.settings option_map default]
    in Mn, Ml, Mt, Mq, Mr, Hs, Hg.
  apply (mirrors_image Note.id Json.note) in Mn; [|reflexivity|exact Kn].
  apply (mirrors_image NoteLink.id Json.link) in Ml; [|reflexivity|exact Kl].
  apply (mirrors_image Tag.id Json.tag) in Mt; [|reflexivity|exact Kt].
  apply (mirrors_image KnowledgeQuest.id Json.quest) in Mq; [|reflexivity|exact Kq].
  apply (mirrors_image Room.id Json.room) in Mr; [|reflexivity|exact Kr].
  match goal with
  | |- World.idb ?w' = _ => remember (World.idb w') as d' eqn:E in *
  end.
  clear E. destruct d' as [n l t q r s g].
  cbn in Mn, Ml, Mt, Mq, Mr, Hs, Hg. subst n l t q r s g. unfold jsonDB.
  destruct (DB.stats (World.idb w1)); reflexivity.
Qed.

(** Property X18.  An export read back is the JSON image of the database.  For an
    opened database whose records sit under their ids and whose numbers are
    finite (JSON has neither NaN nor an infinity), [exportData] returns a
    document, and [importData] of that document into any opened database
    returns and leaves there, under the same ids, what [JSON.parse] reads
    back from the [JSON.stringify] of each record: every field as it was,
    but each [Date] as its ISO string. *)
Theorem export_then_import_gives_json_image (w1 w2 : World.t) (now : Z) :
  World.opened w1 = true ->
  records_keyed (World.idb w1) ->
  numbers_finite (World.idb w1) ->
  World.opened w2 = true ->
  exists doc,
    exportData now w1 = (Returned doc, w1) /\
    fst (importData doc true w2) = Returned tt /\
    World.idb (exec (importData doc true) w2) = jsonDB (World.idb w1) /\
    (forall k n, DB.notes (World.idb w1) !! k = Some n ->
                 DB.notes (World.idb (exec (importData doc true) w2)) !! k
                 = Some (Json.note n)).
Proof.
  intros Ho1 Hk _ Ho2.
  destruct (import_of_export w1 w2 now Ho1 Hk Ho2) as (doc & He & Hr & _ & Hd).
  exists doc. split_and!; try assumption.
  intros k n Hn. rewrite Hd. unfold jsonDB. cbn [DB.notes].
  rewrite lookup_fmap, Hn. reflexivity.
Qed.

Lemma jsonDate_idem d : jsonDate (jsonDate d) = jsonDate d.
Proof. destruct d; reflexivity. Qed.

Lemma json_number_idem v : Json.number (Json.number v) = Json.number v.
Proof. destruct v; reflexivity. Qed.

Lemma json_note_idem n : Json.note (Json.note n) = Json.note n.
Proof.
  unfold Json.note, Json.position, Json.reviewData. cbn.
  rewrite !jsonDate_idem, !json_number_idem. reflexivity.
Qed.

Lemma json_link_idem l : Json.link (Json.link l) = Json.link l.
Proof. unfold Json.link. cbn. rewrite jsonDate_idem. reflexivity. Qed.

Lemma json_tag_idem t : Json.tag (Json.tag t) = Json.tag t.
Proof. unfold Json.tag. cbn. rewrite jsonDate_idem. reflexivity. Qed.

Lemma json_quest_idem q : Json.quest (Json.quest q) = Json.quest q.
Proof.
  unfold Json.quest. cbn. rewrite jsonDate_idem.
  destruct (KnowledgeQuest.completedAt q); cbn; rewrite ?jsonDate_idem; reflexivity.
Qed.

Lemma map_idem {A} (f : A -> A) (l : list A) :
  (forall x, f (f x) = f x) -> map f (map f l) = map f l.
Proof. intros Hf. rewrite map_map. apply map_ext. exact Hf. Qed.

Lemma json_room_idem r : Json.room (Json.room r) = Json.room r.
Proof.
  unfold Json.room, Json.pair. cbn. rewrite !json_number_idem.
  rewrite !map_idem; [reflexivity| |].
  - intros f. unfold Json.furniture, Json.pair. cbn. rewrite !json_number_idem.
    reflexivity.
  - intros p. unfold Json.notePosition. cbn. rewrite !json_number_idem. reflexivity.
Qed.

Lemma json_stats_idem s : Json.stats (Json.stats s) = Json.stats s.
Proof.
  unfold Json.stats. cbn. rewrite json_number_idem, map_idem; [reflexivity|].
  intros a. unfold Json.activity. cbn. rewrite jsonDate_idem. reflexivity.
Qed.

Lemma fmap_idem {V} (f : V -> V) (m : gmap string V) :
  (forall x, f (f x) = f x) -> f <$> (f <$> m) = f <$> m.
Proof.
  intros Hf. rewrite <- map_fmap_compose. apply map_fmap_ext. intros k x _. apply Hf.
Qed.

Lemma jsonDB_idem d : jsonDB (jsonDB d) = jsonDB d.
Proof.
  unfold jsonDB. cbn.
  rewrite (fmap_idem _ _ json_note_idem), (fmap_idem _ _ json_link_idem),
    (fmap_idem _ _ json_tag_idem), (fmap_idem _ _ json_quest_idem),
    (fmap_idem _ _ json_room_idem).
  destruct (DB.stats d); cbn; rewrite ?json_stats_idem; reflexivity.
Qed.

Lemma keyed_fmap {V} (key : V -> string) (f : V -> V) (m : gmap string V) :
  (forall x, key (f x) = key x) -> keyed key m -> keyed key (f <$> m).
Proof.
  intros Hf Hk k v Hv. apply lookup_fmap_Some in Hv as (x & <- & Hx).
  rewrite Hf. apply (Hk k x Hx).
Qed.

Lemma records_keyed_jsonDB d : records_keyed d -> records_keyed (jsonDB d).
Proof.
  intros (Kn & Kl & Kt & Kq & Kr). unfold records_keyed, jsonDB. cbn.
  split_and!; apply keyed_fmap; (reflexivity || assumption).
Qed.

(** Property X19.  A second round trip changes nothing.  Export an opened database
    whose records sit under their ids and whose numbers are finite, import
    the document, export the result and import that: the database after the
    second import is the database after the first. *)
Theorem second_round_trip_is_exact (w1 w2 w3 : World.t) (now now' : Z) :
  World.opened w1 = true ->
  records_keyed (World.idb w1) ->
  numbers_finite (World.idb w1) ->
  World.opened w2 = true ->
  World.opened w3 = true ->
  exists doc doc',
    exportData now w1 = (Returned doc, w1) /\
    fst (exportData now' (exec (importData doc true) w2)) = Returned doc' /\
    fst (importData doc' true w3) = Returned tt /\
    World.idb (exec (importData doc' true) w3)
    = World.idb (exec (importData doc true) w2).
Proof.
  intros Ho1 Hk _ Ho2 Ho3.
  destruct (import_of_export w1 w2 now Ho1 Hk Ho2) as (doc & He & _ & Ho & Hd).
  assert (Hk' : records_keyed (World.idb (exec (importData doc true) w2))).
  { rewrite Hd. apply records_keyed_jsonDB. exact Hk. }
  destruct (import_of_export (exec (importData doc true) w2) w3 now' Ho Hk' Ho3)
    as (doc' & He' & Hr' & _ & Hd').
  exists doc, doc'. split; [exact He|]. split; [rewrite He'; reflexivity|].
  split; [exact Hr'|]. rewrite Hd', Hd. apply jsonDB_idem.
Qed.

(** ** The notes due for review *)

Lemma getNotesDueForReview_open w now :
  World.opened w = true ->
  exists due,
    getNotesDueForReview now w = (Returned due, w) /\
    forall note,
      note ∈ due <->
      (exists k, DB.notes (World.idb w) !! k = Some note) /\
      (exists t, ReviewData.nextReview (Note.reviewData note) = DateObj t /\ t <= now) /\
      ReviewData.status (Note.reviewData note) <> st_mastered.
Proof.
  intros Ho. eexists. split.
  - unfold getNotesDueForReview, PKMStorage.getNotesDueForReview, PKMStorage.ensureDB,
      bind, ret. rewrite Ho. reflexivity.
  - intros note. cbv zeta.
    rewrite list_elem_of_filter, merge_sort_Permutation, list_elem_of_filter,
      elem_of_getAll.
    unfold PKMStorage.inUpperBound, PKMStorage.reviewTime.
    destruct (ReviewData.nextReview (Note.reviewData note)) as [t| |t|].
    + rewrite Z.leb_le. split.
      * intros (Hs & Ht & Hk). split; [exact Hk|]. split; [eauto|exact Hs].
      * intros (Hk & (t' & [= <-] & Ht) & Hs). auto.
    + split; [intros (_ & [=] & _)|intros (_ & (t' & [=] & _) & _)].
    + split; [intros (_ & [=] & _)|intros (_ & (t' & [=] & _) & _)].
    + split; [intros (_ & [=] & _)|intros (_ & (t' & [=] & _) & _)].
Qed.

(** Property X20.  After an export has been read back, no note is ever due.  The index
    [nextReview] is queried with an upper bound that is a [Date], and the
    imported notes carry their next review as a string, which no [Date]
    bounds: [getNotesDueForReview] returns the empty list at every time,
    whatever the notes were. *)
Theorem nothing_is_due_after_a_restore (w1 w2 : World.t) (now nowDue : Z) :
  World.opened w1 = true ->
  records_keyed (World.idb w1) ->
  World.opened w2 = true ->
  exists doc,
    exportData now w1 = (Returned doc, w1) /\
    fst (importData doc true w2) = Returned tt /\
    fst (getNotesDueForReview nowDue (exec (importData doc true) w2)) = Returned [].
Proof.
  intros Ho1 Hk Ho2.
  destruct (import_of_export w1 w2 now Ho1 Hk Ho2) as (doc & He & Hr & Ho & Hd).
  exists doc. split; [exact He|]. split; [exact Hr|].
  destruct (getNotesDueForReview_open _ nowDue Ho) as (due & -> & Hdue).
  cbn [fst]. f_equal. apply elem_of_nil_inv. intros note Hin.
  apply Hdue in Hin as ((k & Hin) & (t & Ht & _) & _).
  rewrite Hd in Hin. unfold jsonDB in Hin. cbn [DB.notes] in Hin.
  apply lookup_fmap_Some in Hin as (x & <- & _).
  cbn in Ht. destruct (ReviewData.nextReview (Note.reviewData x)); discriminate Ht.
Qed.

(** ** Review counters *)

Lemma streak_scheduleAll calls : forall rd,
  Forall (fun c => ReviewCall.quality c <> again) calls ->
  ReviewData.correctStreak (scheduleAll rd calls)
  = ReviewData.correctStreak rd + Z.of_nat (length calls).
Proof.
  unfold scheduleAll. induction calls as [|c calls IH]; intros rd Hall; simpl; [lia|].
  apply Forall_cons in Hall as [Hc Hall]. rewrite IH by exact Hall. simpl.
  destruct (ReviewCall.quality c); [contradiction|lia..].
Qed.

Lemma totalReviews_scheduleAll calls : forall rd,
  ReviewData.totalReviews (scheduleAll rd calls)
  = ReviewData.totalReviews rd + Z.of_nat (length calls).
Proof.
  unfold scheduleAll. induction calls as [|c calls IH]; intros rd; simpl; [lia|].
  rewrite IH. simpl. lia.
Qed.

(** Property X21.  Over any sequence of reviews of a note on an opened database, the
    correct streak counts the reviews since the last ['again']: it grows by
    one with every other grade and, once some review was graded ['again'],
    it is the number of reviews after the last such one; the review count
    and the total of reviews both grow by the number of reviews. *)
Theorem correct_streak_counts_since_last_again
    (w : World.t) (id : string) (n : Note.t) (calls : list ReviewCall.t) :
  World.opened w = true ->
  findNote id (PKMStore.notes (World.store w)) = Some n ->
  exists n',
    findNote id (PKMStore.notes (World.store (reviewAll id calls w))) = Some n' /\
    ReviewData.reviewCount (Note.reviewData n')
    = ReviewData.reviewCount (Note.reviewData n) + Z.of_nat (length calls) /\
    ReviewData.totalReviews (Note.reviewData n')
    = ReviewData.totalReviews (Note.reviewData n) + Z.of_nat (length calls) /\
    (Forall (fun c => ReviewCall.quality c <> again) calls ->
     ReviewData.correctStreak (Note.reviewData n')
     = ReviewData.correctStreak (Note.reviewData n) + Z.of_nat (length calls)) /\
    (forall before c after,
       calls = before ++ c :: after ->
       ReviewCall.quality c = again ->
       Forall (fun c => ReviewCall.quality c <> again) after ->
       ReviewData.correctStreak (Note.reviewData n') = Z.of_nat (length after)).
Proof.
  intros Ho Hf. destruct (reviewAll_open id calls w n Ho Hf) as (n' & Hf' & Hrd & _).
  exists n'. rewrite Hrd. split; [exact Hf'|].
  split; [apply reviewCount_scheduleAll|]. split; [apply totalReviews_scheduleAll|].
  split; [apply streak_scheduleAll|].
  intros before c after -> Hc Hafter.
  unfold scheduleAll. rewrite foldl_app. cbn [foldl]. fold (scheduleAll
    (Review.updatedReviewData
       (foldl (fun rd c => Review.updatedReviewData rd (ReviewCall.quality c)
                             (ReviewCall.now c))
              (Note.reviewData n) before)
       (ReviewCall.quality c) (ReviewCall.now c)) after).
  rewrite streak_scheduleAll by exact Hafter. rewrite Hc. cbn. lia.
Qed.

(** ** Settings *)

(** Property X22.  The default domain set through [updateSettings] is the domain of
    the notes created without one: on an opened database with no record
    under the new id, after [updateSettings({ defaultDomain })] and
    [createNote] of data that names no domain, the new note is among
    [getNotesByDomain] of that domain, and the database holds the merged
    settings. *)
Theorem default_domain_reaches_new_notes
    (w : World.t) (updates : PartialSettings.t) (domain : KnowledgeDomain)
    (noteData : PartialNote.t) (newId : string) (now : Z) (rx ry : Js.number)
    (activityId : string) :
  World.opened w = true ->
  DB.notes (World.idb w) !! newId = None ->
  PartialSettings.defaultDomain updates = Some domain ->
  PartialNote.domain noteData = None ->
  let w1 := exec (updateSettings updates) w in
  let w2 := exec (createNote noteData newId now rx ry activityId) w1 in
  fst (updateSettings updates w) = Returned tt /\
  DB.settings (World.idb w2)
  = Some (mergeSettings (PKMStore.settings (World.store w)) updates) /\
  exists n byDomain,
    DB.notes (World.idb w2) !! newId = Some n /\
    Note.domain n = domain /\
    fst (PKMStorage.getNotesByDomain domain w2) = Returned byDomain /\
    n ∈ byDomain.
Proof.
  intros Ho Hfresh Hd Hnone. cbv zeta.
  assert (H1 : updateSettings updates w
               = (Returned tt,
                  World.mk true
                    (DB.set_settings
                       (Some (mergeSettings (PKMStore.settings (World.store w)) updates))
                       (World.idb w))
                    (PKMStore.set_settings
                       (mergeSettings (PKMStore.settings (World.store w)) updates)
                       (World.store w)))).
  { unfold updateSettings, PKMStorage.updateSettings, PKMStorage.ensureDB,
      PKMStorage.write, bind, get, set. cbn. rewrite Ho. cbn. rewrite Ho. reflexivity. }
  assert (Hw1 : exec (updateSettings updates) w = snd (updateSettings updates w))
    by reflexivity.
  rewrite Hw1, H1. cbn [fst snd]. split; [reflexivity|].
  match goal with |- context [exec _ ?x] => set (w1 := x) end.
  assert (Hrun : exists n,
    exec (createNote noteData newId now rx ry activityId) w1
    = World.mk true
        (DB.set_stats (Some (PKMStore.stats
                               (World.store
                                  (exec (createNote noteData newId now rx ry activityId) w1))))
           (DB.set_notes (insert newId n) (World.idb w1)))
        (World.store (exec (createNote noteData newId now rx ry activityId) w1)) /\
    Note.domain n = domain).
  { unfold exec, createNote, bind, get, set. cbv zeta.
    match goal with
    | |- context [PKMStorage.createNote ?n] => remember n as newNote eqn:En
    end.
    assert (Hid : Note.id newNote = newId) by (rewrite En; reflexivity).
    destruct (storage_createNote_outcome w1 newNote) as [[e Hm]|(_ & _ & Hm)].
    - exfalso. revert Hm.
      unfold PKMStorage.createNote, PKMStorage.transaction, PKMStorage.ensureDB,
        PKMStorage.write, PKMStorage.add, bind, throw.
      rewrite Hid. cbn. rewrite Hfresh. discriminate.
    - exists newNote. rewrite Hm. cbv beta iota.
      rewrite updateStats_open by reflexivity. cbn [snd]. rewrite Hid.
      split; [reflexivity|]. rewrite En. cbn. rewrite Hnone, Hd. reflexivity. }
  destruct Hrun as (n & Hw2 & Hdom).
  split.
  - rewrite Hw2. reflexivity.
  - exists n. eexists. rewrite Hw2.
    split; [cbn; apply lookup_insert_eq|]. split; [exact Hdom|].
    split; [reflexivity|].
    apply list_elem_of_filter. split; [exact Hdom|].
    apply elem_of_getAll. exists newId. cbn. apply lookup_insert_eq.
Qed.

(** * Whole numbers as doubles: time values *)

Lemma digits2_pos_bounds p :
  2 ^ (Z.pos (digits2_pos p) - 1) <= Z.pos p < 2 ^ Z.pos (digits2_pos p).
Proof.
  induction p as [p IH|p IH|]; cbn [digits2_pos].
  - rewrite Pos2Z.inj_succ.
    replace (Z.succ (Z.pos (digits2_pos p)) - 1) with (Z.succ (Z.pos (digits2_pos p) - 1))
      by lia.
    rewrite !Z.pow_succ_r by lia. lia.
  - rewrite Pos2Z.inj_succ.
    replace (Z.succ (Z.pos (digits2_pos p)) - 1) with (Z.succ (Z.pos (digits2_pos p) - 1))
      by lia.
    rewrite !Z.pow_succ_r by lia. lia.
  - cbn. lia.
Qed.

Lemma pow2_add a b : 0 <= a -> 0 <= b -> 2 ^ (a + b) = 2 ^ a * 2 ^ b.
Proof. intros. apply Z.pow_add_r; assumption. Qed.

Lemma pow2_gt0 a : 0 <= a -> 0 < 2 ^ a.
Proof. intros. apply Z.pow_pos_nonneg; lia. Qed.

Lemma pow2_lt_inv a b : 0 <= a -> 0 <= b -> 2 ^ a < 2 ^ b -> a < b.
Proof. intros Ha Hb H. apply (Z.pow_lt_mono_r_iff 2); lia. Qed.

Lemma scale_bounds A B p K : A <= p < B -> 0 < K -> A * K <= p * K < B * K.
Proof. intros [H1 H2] HK. split; nia. Qed.

Lemma iter_xO p k : Z.pos (Pos.iter xO p k) = Z.pos p * 2 ^ Z.pos k.
Proof.
  revert p. induction k as [k IH|k IH|]; intros p; cbn [Pos.iter].
  - rewrite Pos2Z.inj_xO, !IH.
    replace (Z.pos k~1) with (1 + (Z.pos k + Z.pos k)) by lia.
    rewrite !pow2_add by lia. change (2 ^ 1) with 2. ring.
  - rewrite !IH. replace (Z.pos k~0) with (Z.pos k + Z.pos k) by lia.
    rewrite pow2_add by lia. ring.
  - change (2 ^ 1) with 2. lia.
Qed.

Lemma binary_round_aux_fits m e :
  2 ^ 52 <= Z.pos m < 2 ^ 53 -> -1074 <= e <= 971 ->
  binary_round_aux 53 1024 false (Z.pos m) e loc_Exact = S754_finite false m e.
Proof.
  intros Hm He. unfold binary_round_aux.
  rewrite shr_fexp_fits by (assumption || lia).
  cbn [shr_m loc_of_shr_record round_nearest_even shr_r shr_s].
  rewrite shr_fexp_fits by (assumption || lia). cbn [shr_m].
  replace (e <=? 1024 - 53) with true by (symmetry; apply Z.leb_le; lia). reflexivity.
Qed.

(** [of_Z] of a positive integer below 2^53 is that integer. *)
Lemma whole_of_Z z : 0 < z < 2 ^ 53 -> whole (Js.of_Z z) z.
Proof.
  intros Hz. destruct z as [|p|p]; try lia.
  unfold Js.of_Z, Js.prec, Js.emax, binary_normalize, binary_round, shl_align.
  pose proof (digits2_pos_bounds p) as Hd.
  assert (Hd53 : Z.pos (digits2_pos p) <= 53).
  { destruct (Z_le_gt_dec (Z.pos (digits2_pos p)) 53) as [H|H]; [exact H|exfalso].
    assert (2 ^ 53 <= 2 ^ (Z.pos (digits2_pos p) - 1)) by (apply Z.pow_le_mono_r; lia).
    lia. }
  unfold fexp, emin.
  replace (Z.max (Z.pos (digits2_pos p) + 0 - 53) (3 - 1024 - 53))
    with (Z.pos (digits2_pos p) - 53) by lia.
  destruct (Z.pos (digits2_pos p) - 53 - 0) as [|k|k] eqn:Hk; try lia.
  - assert (Z.pos (digits2_pos p) = 53) as Hd' by lia. rewrite Hd' in Hd.
    rewrite binary_round_aux_fits by (simpl in Hd |- *; lia).
    exists p, 0. split; [reflexivity|]. split; [exact Hd|]. split; [lia|].
    change (2 ^ (- 0)) with 1. lia.
  - assert (Hdk : Z.pos (digits2_pos p) = 53 - Z.pos k) by lia.
    rewrite Hdk in Hd.
    assert (Hm : 2 ^ 52 <= Z.pos (Pos.iter xO p k) < 2 ^ 53).
    { rewrite iter_xO.
      assert (E1 : 2 ^ 52 = 2 ^ (53 - Z.pos k - 1) * 2 ^ Z.pos k)
        by (rewrite <- pow2_add by lia; f_equal; lia).
      assert (E2 : 2 ^ 53 = 2 ^ (53 - Z.pos k) * 2 ^ Z.pos k)
        by (rewrite <- pow2_add by lia; f_equal; lia).
      rewrite E1, E2. apply scale_bounds; [exact Hd|apply pow2_gt0; lia]. }
    rewrite binary_round_aux_fits by (exact Hm || lia).
    exists (Pos.iter xO p k), (Z.pos (digits2_pos p) - 53).
    split; [reflexivity|]. split; [exact Hm|]. split; [lia|].
    rewrite iter_xO. f_equal. f_equal. lia.
Qed.

Lemma shl_align_fst m e e' :
  e' <= e -> Z.pos (fst (shl_align m e e')) = Z.pos m * 2 ^ (e - e').
Proof.
  intros He. unfold shl_align. destruct (e' - e) as [|k|k] eqn:Hk; try lia; cbn [fst].
  - replace (e - e') with 0 by lia. lia.
  - rewrite iter_xO. f_equal. f_equal. lia.
Qed.

(** The sum of two whole numbers is computed exactly below 2^53. *)
Lemma whole_add x y a b :
  whole x a -> whole y b -> a + b < 2 ^ 53 -> whole (Js.add x y) (a + b).
Proof.
  intros (mx & ex & -> & Bx & Ex & Vx) (my & ey & -> & By & Ey & Vy) Hsum.
  unfold Js.add, SFadd. cbv zeta. unfold cond_Zopp.
  set (ez := Z.min ex ey).
  assert (Hez : -52 <= ez <= 0) by (unfold ez; lia).
  rewrite !shl_align_fst by (unfold ez; lia).
  assert (Hax : Z.pos mx * 2 ^ (ex - ez) = a * 2 ^ (- ez)).
  { rewrite Vx. replace (- ez) with (- ex + (ex - ez)) by lia.
    rewrite pow2_add by (unfold ez; lia). ring. }
  assert (Hby : Z.pos my * 2 ^ (ey - ez) = b * 2 ^ (- ez)).
  { rewrite Vy. replace (- ez) with (- ey + (ey - ez)) by lia.
    rewrite pow2_add by (unfold ez; lia). ring. }
  assert (Hge : 2 ^ 52 <= Z.pos mx * 2 ^ (ex - ez) + Z.pos my * 2 ^ (ey - ez)).
  { pose proof (pow2_gt0 (ex - ez)). pose proof (pow2_gt0 (ey - ez)).
    destruct (Z.min_spec ex ey) as [[_ Hmin]|[_ Hmin]]; fold ez in Hmin.
    - replace (ex - ez) with 0 by lia. change (2 ^ 0) with 1.
      assert (0 < 2 ^ (ey - ez)) by (apply pow2_gt0; lia). nia.
    - replace (ey - ez) with 0 by lia. change (2 ^ 0) with 1.
      assert (0 < 2 ^ (ex - ez)) by (apply pow2_gt0; lia). nia. }
  rewrite Hax, Hby in *. rewrite <- Z.mul_add_distr_r in *.
  destruct ((a + b) * 2 ^ (- ez)) as [|s|s] eqn:Hs; try (exfalso; pow2; lia).
  cbn [binary_normalize]. unfold binary_round, shl_align.
  pose proof (digits2_pos_bounds s) as Hd.
  set (D := Z.pos (digits2_pos s)) in *.
  assert (HD53 : 53 <= D).
  { destruct (Z_le_gt_dec 53 D) as [H|H]; [exact H|exfalso].
    assert (2 ^ D <= 2 ^ 52) by (apply Z.pow_le_mono_r; lia). lia. }
  assert (HDez : D - 53 <= - ez).
  { assert (Hlt : 2 ^ (D - 1) < 2 ^ (53 - ez)).
    { assert (E : 2 ^ (53 - ez) = 2 ^ 53 * 2 ^ (- ez))
        by (rewrite <- pow2_add by lia; f_equal; lia).
      rewrite E. apply Z.le_lt_trans with (Z.pos s); [apply Hd|].
      rewrite <- Hs. apply Z.mul_lt_mono_pos_r; [apply pow2_gt0; lia|exact Hsum]. }
    apply pow2_lt_inv in Hlt; lia. }
  unfold fexp, emin, Js.prec, Js.emax.
  replace (Z.max (D + ez - 53) (3 - 1024 - 53)) with (D + ez - 53) by lia.
  replace (D + ez - 53 - ez) with (D - 53) by lia.
  assert (Hsplit : 2 ^ (- ez) = 2 ^ (- ez - (D - 53)) * 2 ^ (D - 53)).
  { rewrite <- pow2_add by lia. f_equal. lia. }
  destruct (D - 53) as [|n|n] eqn:Hn; try lia.
  - assert (D = 53) as HD by lia. rewrite HD in Hd.
    rewrite binary_round_aux_fits by (simpl in Hd |- *; lia).
    exists s, ez. split; [reflexivity|]. split; [exact Hd|]. split; [exact Hez|].
    symmetry. exact Hs.
  - destruct (binary_round_aux_bounds s ez n) as (m' & Hm' & Hexact & Hres).
    + replace (52 + Z.pos n) with (D - 1) by lia.
      replace (53 + Z.pos n) with D by lia. exact Hd.
    + lia.
    + lia.
    + assert (Hmod : Z.pos s mod 2 ^ Z.pos n = 0).
      { rewrite <- Hs, Hsplit, Z.mul_assoc. apply Z.mod_mul.
        pose proof (pow2_gt0 (Z.pos n)). lia. }
      assert (Hdiv : Z.pos s / 2 ^ Z.pos n = (a + b) * 2 ^ (- ez - Z.pos n)).
      { rewrite <- Hs, Hsplit, Z.mul_assoc. apply Z.div_mul.
        pose proof (pow2_gt0 (Z.pos n)). lia. }
      specialize (Hexact Hmod). rewrite Hdiv in Hexact.
      assert (Hlt53 : Z.pos m' < 2 ^ 53).
      { rewrite Hexact.
        assert (Z.pos s < 2 ^ 53 * 2 ^ Z.pos n).
        { rewrite <- pow2_add by lia. replace (53 + Z.pos n) with D by lia. apply Hd. }
        rewrite <- Hs, Hsplit, Z.mul_assoc in H.
        pose proof (pow2_gt0 (Z.pos n)). nia. }
      assert (Hge52 : 2 ^ 52 <= Z.pos m').
      { rewrite Hexact.
        assert (2 ^ 52 * 2 ^ Z.pos n <= Z.pos s).
        { rewrite <- pow2_add by lia. replace (52 + Z.pos n) with (D - 1) by lia.
          apply Hd. }
        rewrite <- Hs, Hsplit, Z.mul_assoc in H.
        pose proof (pow2_gt0 (Z.pos n)). nia. }
      destruct Hres as [[_ Hres]|[Hcarry _]]; [|lia].
      rewrite Hres. exists m', (ez + Z.pos n).
      split; [reflexivity|]. split; [lia|]. split; [lia|].
      rewrite Hexact. f_equal. f_equal. lia.
Qed.

(** [new Date(x)] of a whole number within the range of time values. *)
Lemma newDate_whole x z : whole x z -> z <= 8640000000000000 -> newDate x = DateObj z.
Proof.
  intros (m & e & -> & Bm & He & Vm) Hz.
  assert (Hz0 : 0 < z).
  { pose proof (pow2_gt0 (- e)). assert (0 < z * 2 ^ (- e)) by lia. nia. }
  unfold newDate, Js.timeClip, Js.truncZ, cond_Zopp.
  assert (Ht : (if 0 <=? e then Z.pos m * 2 ^ e else Z.shiftr (Z.pos m) (- e)) = z).
  { destruct (0 <=? e) eqn:E.
    - apply Z.leb_le in E. assert (e = 0) as -> by lia.
      change (2 ^ 0) with 1. change (2 ^ (- 0)) with 1 in Vm. lia.
    - rewrite Z.shiftr_div_pow2 by lia. rewrite Vm. apply Z.div_mul.
      pose proof (pow2_gt0 (- e)). lia. }
  rewrite Ht. replace (Z.abs z <=? 8640000000000000) with true; [reflexivity|].
  symmetry. apply Z.leb_le. lia.
Qed.

Lemma whole_one_day : whole (days_to_ms SPACED_REPETITION.INITIAL_INTERVAL) msPerDay.
Proof.
  exists 5798205849600000%positive, (-26).
  split; [vm_compute; reflexivity|]. split; [pow2; lia|]. split; [lia|].
  vm_compute. reflexivity.
Qed.

(** The date one day after [now], as [createNote] and a review graded
    ['again'] compute it. *)
Lemma one_day_later now :
  0 < now <= lastDayStart ->
  newDate (Js.add (Js.of_Z now) (days_to_ms SPACED_REPETITION.INITIAL_INTERVAL))
  = DateObj (now + msPerDay).
Proof.
  unfold lastDayStart, msPerDay. intros Hnow. apply newDate_whole; [|lia].
  apply whole_add; [apply whole_of_Z; pow2; lia|apply whole_one_day|pow2; lia].
Qed.

(** ** One day until the next review *)

(** Property X23.  A new note is due one day after its creation, to the millisecond.
    On an opened database with no record under the new id, for a time of
    creation from which a day fits in the range of [Date], [createNote]
    stores the note with [nextReview] exactly 86400000 ms later, and
    [getNotesDueForReview] lists it from that time on and not before. *)
Theorem new_note_is_due_one_day_later
    (w : World.t) (noteData : PartialNote.t) (newId : string) (now : Z)
    (rx ry : Js.number) (activityId : string) (nowDue : Z) :
  World.opened w = true ->
  DB.notes (World.idb w) !! newId = None ->
  0 < now <= lastDayStart ->
  let w' := exec (createNote noteData newId now rx ry activityId) w in
  exists n due,
    DB.notes (World.idb w') !! newId = Some n /\
    ReviewData.nextReview (Note.reviewData n) = DateObj (now + msPerDay) /\
    getNotesDueForReview nowDue w' = (Returned due, w') /\
    (n ∈ due <-> now + msPerDay <= nowDue).
Proof.
  intros Ho Hfresh Hnow. cbv zeta.
  assert (Hrun : exists n d s,
    exec (createNote noteData newId now rx ry activityId) w = World.mk true d s /\
    DB.notes d !! newId = Some n /\
    ReviewData.nextReview (Note.reviewData n)
    = newDate (Js.add (Js.of_Z now) (days_to_ms SPACED_REPETITION.INITIAL_INTERVAL)) /\
    ReviewData.status (Note.reviewData n) = st_new).
  { unfold exec, createNote, bind, get, set. cbv zeta.
    match goal with
    | |- context [PKMStorage.createNote ?n] => remember n as newNote eqn:En
    end.
    assert (Hid : Note.id newNote = newId) by (rewrite En; reflexivity).
    destruct (storage_createNote_outcome w newNote) as [[e Hm]|(_ & _ & Hm)].
    - exfalso. revert Hm.
      unfold PKMStorage.createNote, PKMStorage.transaction, PKMStorage.ensureDB,
        PKMStorage.write, PKMStorage.add, bind, throw.
      rewrite Ho, Hid. cbn. rewrite Hfresh. discriminate.
    - exists newNote. rewrite Hm. cbv beta iota.
      rewrite updateStats_open by exact Ho. cbn [snd]. rewrite Hid.
      eexists _, _. split; [reflexivity|]. split; [cbn; apply lookup_insert_eq|].
      rewrite En. split; reflexivity. }
  destruct Hrun as (n & d & s & Hw' & Hn & Hnext & Hst).
  rewrite one_day_later in Hnext by exact Hnow.
  rewrite Hw'.
  destruct (getNotesDueForReview_open (World.mk true d s) nowDue eq_refl)
    as (due & Hdue & Hin).
  exists n, due. split; [exact Hn|]. split; [exact Hnext|]. split; [exact Hdue|].
  rewrite Hin. cbn [World.idb]. split.
  - intros (_ & (t & Ht & Hle) & _). rewrite Hnext in Ht. injection Ht as <-. exact Hle.
  - intros Hle. split; [eauto|]. split; [eauto|]. rewrite Hst. discriminate.
Qed.

(** Property X24.  A note graded ['again'] is due again one day later, to the
    millisecond.  On an opened database, for a time of review from which a
    day fits in the range of [Date], [handleReviewNote(id, 'again')]
    returns; the note then has the interval 1, the streak 0, the status
    ['learning'] and [nextReview] exactly 86400000 ms after the review; the
    list of due notes the overlay gets holds it when that time has come,
    and not before. *)
Theorem note_graded_again_is_due_one_day_later
    (w : World.t) (id : string) (n : Note.t) (now nowUpdate : Z) (activityId : string)
    (nowDue : Z) :
  World.opened w = true ->
  findNote id (PKMStore.notes (World.store w)) = Some n ->
  0 < now <= lastDayStart ->
  exists n' due,
    fst (NotesOverlay.handleReviewNote id again now nowUpdate activityId nowDue w)
    = Returned due /\
    findNote id
      (PKMStore.notes
         (World.store (exec (reviewNote id again now nowUpdate activityId) w))) = Some n' /\
    ReviewData.interval (Note.reviewData n') = Js.of_Z 1 /\
    ReviewData.correctStreak (Note.reviewData n') = 0 /\
    ReviewData.status (Note.reviewData n') = st_learning /\
    ReviewData.nextReview (Note.reviewData n') = DateObj (now + msPerDay) /\
    (n' ∈ due <-> now + msPerDay <= nowDue).
Proof.
  intros Ho Hf Hnow.
  destruct (reviewNote_open w id again now nowUpdate activityId n Ho Hf)
    as (w' & Hrun & Ho' & _ & _).
  destruct (reviewNote_step_open w id again now nowUpdate activityId n Ho Hf)
    as (_ & Hf' & Hdb).
  unfold exec in *. rewrite Hrun in *. cbn [snd] in *.
  destruct (getNotesDueForReview_open w' nowDue Ho') as (due & Hdue & Hin).
  exists (reviewedNote n again now nowUpdate), due.
  assert (Hnext : ReviewData.nextReview
                    (Note.reviewData (reviewedNote n again now nowUpdate))
                  = DateObj (now + msPerDay)).
  { unfold reviewedNote, updatedNoteOf, reviewDataUpdate. cbn.
    apply one_day_later. exact Hnow. }
  split.
  { unfold NotesOverlay.handleReviewNote, bind. rewrite Hrun, Hdue. reflexivity. }
  split; [exact Hf'|]. split; [reflexivity|]. split; [reflexivity|].
  split; [reflexivity|]. split; [exact Hnext|].
  rewrite Hin. split.
  - intros (_ & (t & Ht & Hle) & _). rewrite Hnext in Ht. injection Ht as <-. exact Hle.
  - intros Hle. split; [eauto|]. split; [eauto|]. discriminate.
Qed.

(** * The interval never drops below one day *)

(** Rounding an exact integer [M] of [53 + n] bits at exponent [E], with no
    bound on the exponent: a 53-bit mantissa at [E + n] or, after a carry,
    at [E + n + 1], or [Infinity] when that exponent is too large. *)
Lemma binary_round_aux_normal (M : positive) (E : Z) (n : positive) :
  2 ^ (52 + Z.pos n) <= Z.pos M < 2 ^ (53 + Z.pos n) ->
  -1074 <= E + Z.pos n ->
  exists (m' : positive) (e' : Z),
    2 ^ 52 <= Z.pos m' < 2 ^ 53 /\ E + Z.pos n <= e' <= E + Z.pos n + 1 /\
    binary_round_aux 53 1024 false (Z.pos M) E loc_Exact
    = if e' <=? 971 then S754_finite false m' e' else S754_infinity false.
Proof.
  intros HM Hlo.
  assert (Hn : 0 < 2 ^ Z.pos n) by (apply Z.pow_pos_nonneg; lia).
  set (q := Z.pos M / 2 ^ Z.pos n).
  assert (Hq : 2 ^ 52 <= q < 2 ^ 53).
  { unfold q. rewrite !Z.pow_add_r in HM by lia. split.
    - apply Z.div_le_lower_bound; lia.
    - apply Z.div_lt_upper_bound; lia. }
  set (mrs := SpecFloat.iter_pos shr_1 n (Build_shr_record (Z.pos M) false false)).
  assert (Hmrs : shr_m mrs = q) by (apply iter_shr_m; simpl; lia).
  assert (Hfirst : shr_fexp 53 1024 (Z.pos M) E loc_Exact = (mrs, E + Z.pos n)).
  { unfold shr_fexp. rewrite (Zdigits2_bounds M (53 + n)).
    - unfold fexp, emin. rewrite Z.max_l by lia.
      replace (Z.pos (53 + n) + E - 53 - E) with (Z.pos n) by lia. reflexivity.
    - replace (Z.pos (53 + n) - 1) with (52 + Z.pos n) by lia.
      replace (Z.pos (53 + n)) with (53 + Z.pos n) by lia. exact HM. }
  set (m2 := round_nearest_even (shr_m mrs) (loc_of_shr_record mrs)).
  assert (Hm2 : m2 = q \/ m2 = q + 1).
  { unfold m2. rewrite Hmrs. apply round_nearest_even_cases. }
  assert (Hpos : exists m' : positive, m2 = Z.pos m').
  { destruct m2 as [|p|p]; [lia | eauto | lia]. }
  destruct Hpos as [m' Hm'].
  unfold binary_round_aux. rewrite Hfirst. fold m2.
  destruct (Z_lt_ge_dec m2 (2 ^ 53)) as [Hlt|Hge].
  - exists m', (E + Z.pos n). split; [lia|]. split; [lia|].
    rewrite Hm'. rewrite shr_fexp_fits by lia. reflexivity.
  - assert (Heq : m2 = 2 ^ 53) by lia.
    exists 4503599627370496%positive, (E + Z.pos n + 1).
    split; [pow2; lia|]. split; [lia|].
    rewrite Heq. rewrite shr_fexp_carry by lia. reflexivity.
Qed.

(** The product of two doubles of that form is of that form. *)
Lemma mul_normal a b x y :
  normal_from a x -> normal_from b y -> -1126 <= a + b ->
  normal_from (a + b + 52) (Js.mul x y).
Proof.
  intros [->|(mx & ex & -> & Bx & Ex)] [->|(my & ey & -> & By & Ey)] Hab;
    try (left; reflexivity).
  rewrite mul_finite.
  assert (HM : 2 ^ 104 <= Z.pos (mx * my) < 2 ^ 106).
  { rewrite Pos2Z.inj_mul. change (2 ^ 104) with (2 ^ 52 * 2 ^ 52).
    change (2 ^ 106) with (2 ^ 53 * 2 ^ 53). split; nia. }
  destruct (Z_lt_ge_dec (Z.pos (mx * my)) (2 ^ 105)) as [Hlt|Hge].
  - destruct (binary_round_aux_normal (mx * my) (ex + ey) 52)
      as (m' & e' & Bm & Be & ->); [split; [apply HM|exact Hlt]|lia|].
    destruct (e' <=? 971) eqn:E; [|left; reflexivity].
    apply Z.leb_le in E. right. exists m', e'. split; [reflexivity|]. split; [exact Bm|lia].
  - destruct (binary_round_aux_normal (mx * my) (ex + ey) 53)
      as (m' & e' & Bm & Be & ->); [split; [lia|apply HM]|lia|].
    destruct (e' <=? 971) eqn:E; [|left; reflexivity].
    apply Z.leb_le in E. right. exists m', e'. split; [reflexivity|]. split; [exact Bm|lia].
Qed.

Lemma whole_day_or_more x z : whole x z -> day_or_more x.
Proof.
  intros (m & e & -> & Bm & He & _). right. exists m, e.
  split; [reflexivity|]. split; [exact Bm|lia].
Qed.

(** [Math.floor] of such a double is [+0] or at least one, and at least
    one when the double is. *)
Lemma floor_normal lo x :
  normal_from lo x ->
  (Js.Math_floor x = S754_zero false /\ lo < -52) \/ day_or_more (Js.Math_floor x).
Proof.
  intros [->|(m & e & -> & Bm & He)]; [right; left; reflexivity|].
  unfold Js.Math_floor. destruct (0 <=? e) eqn:E.
  - apply Z.leb_le in E. right. right. exists m, e.
    split; [reflexivity|]. split; [exact Bm|lia].
  - apply Z.leb_gt in E. unfold Js.floorZ. rewrite (proj2 (Z.leb_gt 0 e) E).
    cbn [cond_Zopp]. rewrite Z.shiftr_div_pow2 by lia.
    assert (Hp : 2 <= 2 ^ (- e)).
    { change 2 with (2 ^ 1) at 1. apply Z.pow_le_mono_r; lia. }
    assert (Hz : 0 <= Z.pos m / 2 ^ (- e) < 2 ^ 53).
    { split; [apply Z.div_pos; lia|]. apply Z.div_lt_upper_bound; [lia|]. nia. }
    destruct (Z.pos m / 2 ^ (- e) =? 0) eqn:Ez.
    + left. split; [reflexivity|]. apply Z.eqb_eq in Ez.
      destruct (Z_lt_ge_dec lo (-52)) as [H|H]; [exact H|exfalso].
      assert (2 ^ (- e) <= 2 ^ 52) by (apply Z.pow_le_mono_r; lia).
      assert (1 <= Z.pos m / 2 ^ (- e)) by (apply Z.div_le_lower_bound; lia).
      lia.
    + right. apply Z.eqb_neq in Ez. apply (whole_day_or_more _ (Z.pos m / 2 ^ (- e))).
      apply whole_of_Z. lia.
Qed.

(** [Math.max] of a double that is at least one and of [+0] or another
    such double is at least one. *)
Lemma max_day_or_more a y :
  day_or_more a -> a <> S754_infinity false ->
  y = S754_zero false \/ day_or_more y ->
  day_or_more (Js.Math_max a y).
Proof.
  intros [->|(ma & ea & -> & Ba & Ea)] Hfin Hy; [contradiction|].
  destruct Hy as [->|[->|(my & ey & -> & By & Ey)]].
  - right. exists ma, ea. auto.
  - left. reflexivity.
  - unfold Js.Math_max, SFcompare.
    destruct (ea ?= ey); [destruct (Pos.compare_cont Eq ma my)|..];
      right; first [exists ma, ea; split; [reflexivity|]; split; [exact Ba|exact Ea]
                   |exists my, ey; split; [reflexivity|]; split; [exact By|exact Ey]].
Qed.

Lemma day_or_more_leb x : day_or_more x -> Js.leb (Js.of_Z 1) x = true.
Proof.
  intros [->|(m & e & -> & Bm & He)]; [reflexivity|].
  change (Js.of_Z 1) with (S754_finite false 4503599627370496 (-52)).
  unfold Js.leb, SFleb.
  destruct (Z_lt_ge_dec (-52) e) as [Hlt|Hge].
  - rewrite SFcompare_exp_lt by exact Hlt. reflexivity.
  - assert (e = -52) as -> by lia. rewrite SFcompare_same_exp.
    destruct (Z.compare_spec 4503599627370496 (Z.pos m)); [reflexivity..|exfalso].
    pow2. lia.
Qed.

Lemma ease_in_range_normal x : ease_in_range x -> normal_from (-52) x.
Proof.
  intros (m & e & -> & [[-> Hm]|[-> Hm]]); right; exists m; eexists;
    (split; [reflexivity|]); (split; [pow2; lia|lia]).
Qed.

Lemma day_or_more_step rd quality :
  day_or_more (ReviewData.interval rd) ->
  ease_in_range (ReviewData.easeFactor rd) ->
  day_or_more (Review.newInterval rd quality).
Proof.
  intros Hi He. apply ease_in_range_normal in He.
  assert (H1 : day_or_more (Js.of_Z 1)).
  { right. exists 4503599627370496%positive, (-52).
    split; [reflexivity|]. split; [pow2; lia|lia]. }
  assert (H4 : day_or_more SPACED_REPETITION.GRADUATING_INTERVAL).
  { right. exists 4503599627370496%positive, (-50).
    split; [reflexivity|]. split; [pow2; lia|lia]. }
  destruct quality; cbn [Review.newInterval].
  - exact H1.
  - apply max_day_or_more; [exact H1|discriminate|].
    assert (Hh : normal_from (-53) SPACED_REPETITION.HARD_MULTIPLIER).
    { right. exists 7205759403792794%positive, (-53).
      split; [reflexivity|]. split; [pow2; lia|lia]. }
    pose proof (mul_normal _ _ _ _ Hi Hh ltac:(lia)) as Hm.
    destruct (floor_normal _ _ Hm) as [[-> _]|Hf]; [left; reflexivity|right; exact Hf].
  - apply max_day_or_more; [exact H4|discriminate|]. right.
    assert (Hg : normal_from (-52) SPACED_REPETITION.GOOD_MULTIPLIER).
    { right. exists 4503599627370496%positive, (-52).
      split; [reflexivity|]. split; [pow2; lia|lia]. }
    pose proof (mul_normal _ _ _ _ Hi Hg ltac:(lia)) as Hm.
    pose proof (mul_normal _ _ _ _ Hm He ltac:(lia)) as Hm2.
    destruct (floor_normal _ _ Hm2) as [[_ Hlt]|Hf]; [lia|exact Hf].
  - assert (Hg : normal_from (-52) SPACED_REPETITION.EASY_MULTIPLIER).
    { right. exists 5854679515581645%positive, (-52).
      split; [reflexivity|]. split; [pow2; lia|lia]. }
    pose proof (mul_normal _ _ _ _ Hi Hg ltac:(lia)) as Hm.
    pose proof (mul_normal _ _ _ _ Hm He ltac:(lia)) as Hm2.
    destruct (floor_normal _ _ Hm2) as [[_ Hlt]|Hf]; [lia|exact Hf].
Qed.

Lemma day_or_more_scheduleAll calls : forall rd,
  day_or_more (ReviewData.interval rd) ->
  ease_in_range (ReviewData.easeFactor rd) ->
  day_or_more (ReviewData.interval (scheduleAll rd calls)).
Proof.
  unfold scheduleAll. induction calls as [|c calls IH]; intros rd Hi He; simpl;
    [exact Hi|].
  apply IH; simpl; [apply day_or_more_step|apply ease_in_range_step]; assumption.
Qed.

(** Property X25.  The interval never drops below one day.  For a note whose interval
    is at least one day and whose ease factor lies in [1.3, 3.0], as for
    every note [createNote] made, after any finite sequence of [reviewNote]
    calls with any grades the interval is at least 1 (it may have grown to
    [Infinity]); it is never [NaN], zero or negative. *)
Theorem interval_stays_one_day_or_more
    (w : World.t) (id : string) (n : Note.t) (calls : list ReviewCall.t) :
  findNote id (PKMStore.notes (World.store w)) = Some n ->
  day_or_more (ReviewData.interval (Note.reviewData n)) ->
  ease_in_range (ReviewData.easeFactor (Note.reviewData n)) ->
  exists n',
    findNote id (PKMStore.notes (World.store (reviewAll id calls w))) = Some n' /\
    Js.leb (Js.of_Z 1) (ReviewData.interval (Note.reviewData n')) = true.
Proof.
  intros Hf Hi He. destruct (World.opened w) eqn:Ho.
  - destruct (reviewAll_open id calls w n Ho Hf) as (n' & Hf' & Hrd & _).
    exists n'. split; [exact Hf'|]. apply day_or_more_leb. rewrite Hrd.
    apply day_or_more_scheduleAll; assumption.
  - rewrite reviewAll_closed by assumption. exists n. split; [exact Hf|].
    apply day_or_more_leb. exact Hi.
Qed.

(** ** Rooms *)



(** * The statements at work on a session *)

Lemma mirrors_nil {V} (key : V -> string) : mirrors key [] ∅.
Proof.
  intros k v. rewrite lookup_empty, elem_of_nil. split; [discriminate|tauto].
Qed.

Lemma in_sync_fresh : in_sync Scenario.fresh.
Proof. split_and!; apply mirrors_nil. Qed.

Lemma in_sync_twoNotes : in_sync Scenario.twoNotes.
Proof. apply in_sync_createNote, in_sync_createNote, in_sync_fresh. Qed.

Lemma in_sync_oneLink : in_sync Scenario.oneLink.
Proof. apply in_sync_createLink, in_sync_twoNotes. Qed.

Lemma in_sync_selfLink : in_sync Session.selfLink.
Proof. apply in_sync_createLink, in_sync_oneLink. Qed.

Lemma keyed_empty {V} (key : V -> string) : keyed key (∅ : gmap string V).
Proof. intros k v H. rewrite lookup_empty in H. discriminate. Qed.

Lemma records_keyed_in_sync w :
  in_sync w -> DB.quests (World.idb w) = ∅ -> DB.rooms (World.idb w) = ∅ ->
  records_keyed (World.idb w).
Proof.
  intros (Hn & Hl & Ht) Hq Hr. unfold records_keyed. rewrite Hq, Hr.
  split_and!; try apply keyed_empty; eapply mirrors_keyed; eassumption.
Qed.

Lemma records_keyed_twoNotes : records_keyed (World.idb Scenario.twoNotes).
Proof. apply records_keyed_in_sync; [apply in_sync_twoNotes|reflexivity..]. Qed.

Lemma numbers_finite_twoNotes : numbers_finite (World.idb Scenario.twoNotes).
Proof.
  split_and!.
  - intros k n Hn. apply (proj1 in_sync_twoNotes) in Hn as [Hin _].
    assert (H : Forall (fun n => finite_note n = true)
                  (PKMStore.notes (World.store Scenario.twoNotes)))
      by (vm_compute; repeat constructor).
    rewrite Forall_forall in H. apply H, Hin.
  - intros k r Hr.
    change (DB.rooms (World.idb Scenario.twoNotes)) with (∅ : gmap string Room.t) in Hr.
    rewrite lookup_empty in Hr. discriminate.
  - intros s Hs. vm_compute in Hs. injection Hs as <-. reflexivity.
Qed.

Lemma store_mirrors_database_witness :
  Forall keeps_id Session.calls /\ in_sync Scenario.fresh /\
  in_sync (runAll Session.calls Scenario.fresh).
Proof.
  assert (Hk : Forall keeps_id Session.calls) by (repeat constructor).
  split; [exact Hk|]. split; [exact in_sync_fresh|].
  apply (store_mirrors_database Session.calls Scenario.fresh Hk in_sync_fresh).
Defined.

Lemma activity_log_capped_witness :
  (length (PKMStats.recentActivity (PKMStore.stats (World.store Scenario.fresh))) <= 10)%nat /\
  (length (PKMStats.recentActivity
             (PKMStore.stats (World.store (runAll Session.calls Scenario.fresh))))
   <= 10)%nat.
Proof.
  assert (H : (length (PKMStats.recentActivity (PKMStore.stats (World.store Scenario.fresh)))
               <= 10)%nat) by (simpl; lia).
  split; [exact H|]. apply (activity_log_capped Session.calls Scenario.fresh H).
Defined.

Lemma wisdom_only_by_collecting_witness :
  Forall (fun c => forall id, c <> CollectNote id) Session.quiet /\
  PKMStats.wisdomPoints (PKMStore.stats (World.store (runAll Session.quiet Scenario.fresh)))
  = PKMStats.wisdomPoints (PKMStore.stats (World.store Scenario.fresh)) /\
  PKMStats.collectedNotes (PKMStore.stats (World.store (runAll Session.quiet Scenario.fresh)))
  = PKMStats.collectedNotes (PKMStore.stats (World.store Scenario.fresh)).
Proof.
  assert (H : Forall (fun c => forall id, c <> CollectNote id) Session.quiet)
    by (repeat constructor; discriminate).
  split; [exact H|]. apply (wisdom_only_by_collecting Session.quiet Scenario.fresh H).
Defined.

Lemma nothing_happens_without_database_witness :
  World.opened Session.closed = false /\
  ((action_of (DeleteNote "a") Session.closed = (Returned tt, Session.closed) \/
    action_of (DeleteNote "a") Session.closed = (Thrown NotInitialized, Session.closed)) \/
   (exists query,
      DeleteNote "a" = SearchNotes query /\ blank query /\
      action_of (DeleteNote "a") Session.closed
      = (Returned tt,
         World.mk false (World.idb Session.closed)
           (PKMStore.set_search "" [] (World.store Session.closed))))).
Proof.
  split; [reflexivity|].
  apply (nothing_happens_without_database (DeleteNote "a") Session.closed). reflexivity.
Defined.

Lemma createNote_refuses_existing_id_witness :
  World.opened Scenario.twoNotes = true /\
  is_Some (DB.notes (World.idb Scenario.twoNotes) !! "a") /\
  createNote (Scenario.noteData "Again" "") "a" 9000 Scenario.random0 Scenario.random0
    "activity_9000" Scenario.twoNotes
  = (Thrown ConstraintError, Scenario.twoNotes).
Proof.
  assert (H : is_Some (DB.notes (World.idb Scenario.twoNotes) !! "a"))
    by (exists Scenario.noteA; vm_compute; reflexivity).
  split; [reflexivity|]. split; [exact H|].
  apply (createNote_refuses_existing_id Scenario.twoNotes); [reflexivity|exact H].
Defined.

Lemma link_lists_stay_empty_witness :
  all_unlinked Scenario.fresh /\ all_unlinked (runAll Session.calls Scenario.fresh).
Proof.
  assert (H : all_unlinked Scenario.fresh).
  { split; [constructor|]. apply map_Forall_empty. }
  split; [exact H|]. apply (link_lists_stay_empty Session.calls Scenario.fresh H).
Defined.

Lemma search_ignores_case_of_query_witness :
  World.opened Scenario.twoNotes = true /\
  JsString.toLowerCase "Quantum" = JsString.toLowerCase "qUANTUM" /\
  PKMStore.searchResults (World.store (exec (searchNotes "Quantum") Scenario.twoNotes))
  = PKMStore.searchResults (World.store (exec (searchNotes "qUANTUM") Scenario.twoNotes)).
Proof.
  split; [reflexivity|]. split; [reflexivity|].
  apply (search_ignores_case_of_query Scenario.twoNotes "Quantum" "qUANTUM"); reflexivity.
Defined.

Lemma search_space_means_and_witness :
  World.opened Scenario.twoNotes = true /\
  ~ blank "quantum" /\ ~ blank "waves" /\
  (Scenario.noteA
     ∈ PKMStore.searchResults
         (World.store (exec (searchNotes ("quantum" +:+ " " +:+ "waves")) Scenario.twoNotes))
   <-> Scenario.noteA
         ∈ PKMStore.searchResults (World.store (exec (searchNotes "quantum") Scenario.twoNotes)) /\
       Scenario.noteA
         ∈ PKMStore.searchResults (World.store (exec (searchNotes "waves") Scenario.twoNotes))).
Proof.
  assert (H1 : ~ blank "quantum") by (intros [H _]; discriminate H).
  assert (H2 : ~ blank "waves") by (intros [H _]; discriminate H).
  split; [reflexivity|]. split; [exact H1|]. split; [exact H2|].
  apply (search_space_means_and Scenario.twoNotes "quantum" "waves" Scenario.noteA);
    [reflexivity|exact H1|exact H2].
Defined.

Lemma failed_import_empties_the_database_witness :
  World.opened Scenario.twoNotes = true /\
  ~ ids_distinct Session.twice /\
  importData Session.twice true Scenario.twoNotes
  = (Thrown ConstraintError, World.mk true DB.empty (World.store Scenario.twoNotes)).
Proof.
  assert (H : ~ ids_distinct Session.twice).
  { intros (Hn & _). cbn in Hn. apply NoDup_cons in Hn as [Hn _]. apply Hn.
    apply list_elem_of_here. }
  split; [reflexivity|]. split; [exact H|].
  apply (failed_import_empties_the_database Scenario.twoNotes Session.twice true);
    [reflexivity|exact H].
Defined.

Lemma interval_stays_one_day_or_more_witness :
  findNote "a" (PKMStore.notes (World.store Scenario.twoNotes)) = Some Scenario.noteA /\
  day_or_more (ReviewData.interval (Note.reviewData Scenario.noteA)) /\
  ease_in_range (ReviewData.easeFactor (Note.reviewData Scenario.noteA)) /\
  exists n',
    findNote "a"
      (PKMStore.notes (World.store (reviewAll "a" Scenario.someCalls Scenario.twoNotes)))
    = Some n' /\
    Js.leb (Js.of_Z 1) (ReviewData.interval (Note.reviewData n')) = true.
Proof.
  assert (Hf : findNote "a" (PKMStore.notes (World.store Scenario.twoNotes))
               = Some Scenario.noteA) by (vm_compute; reflexivity).
  assert (Hi : day_or_more (ReviewData.interval (Note.reviewData Scenario.noteA))).
  { right. exists 4503599627370496%positive, (-52).
    split; [reflexivity|]. split; [pow2; lia|lia]. }
  assert (He : ease_in_range (ReviewData.easeFactor (Note.reviewData Scenario.noteA)))
    by exact ease_in_range_initial.
  split; [exact Hf|]. split; [exact Hi|]. split; [exact He|].
  apply (interval_stays_one_day_or_more Scenario.twoNotes "a" Scenario.noteA
           Scenario.someCalls Hf Hi He).
Defined.

Lemma createNote_adds_the_note_witness :
  World.opened Scenario.fresh = true /\
  DB.notes (World.idb Scenario.fresh) !! "a" = None /\
  let w' := exec (createNote (Scenario.noteData "" "particles and waves") "a" 1000
                    Scenario.random0 Scenario.random0 "activity_1000") Scenario.fresh in
  exists n,
    PKMStore.notes (World.store w') = [n] /\
    DB.notes (World.idb w') !! "a" = Some n /\
    Note.title n = "Untitled Note" /\
    ReviewData.status (Note.reviewData n) = st_new /\
    NoteMetadata.wordCount (Note.metadata n) = 3 /\
    PKMStats.totalNotes (PKMStore.stats (World.store w')) = 1.
Proof.
  split; [reflexivity|]. split; [reflexivity|]. cbv zeta.
  destruct (createNote_adds_the_note Scenario.fresh
              (Scenario.noteData "" "particles and waves") "a" 1000
              Scenario.random0 Scenario.random0 "activity_1000" eq_refl eq_refl)
    as (n & _ & Hs & Hd & _ & Ht & _ & _ & _ & Hst & _ & _ & _ & _ & Hw & _ & _ & Hn & _).
  exists n. split; [exact Hs|]. split; [rewrite Hd; apply lookup_insert_eq|].
  split; [exact Ht|]. split; [exact Hst|]. split; [exact Hw|]. exact Hn.
Defined.

Lemma getLinksForNote_repeats_self_links_witness :
  World.opened Session.selfLink = true /\
  keyed NoteLink.id (DB.links (World.idb Session.selfLink)) /\
  exists ls,
    PKMStorage.getLinksForNote "a" Session.selfLink = (Returned ls, Session.selfLink) /\
    ~ NoDup ls.
Proof.
  assert (Hk : keyed NoteLink.id (DB.links (World.idb Session.selfLink))).
  { eapply mirrors_keyed. apply in_sync_selfLink. }
  split; [reflexivity|]. split; [exact Hk|].
  destruct (getLinksForNote_repeats_self_links Session.selfLink "a" eq_refl Hk)
    as (ls & Hrun & _ & Hnd).
  exists ls. split; [exact Hrun|]. intros H. apply Hnd in H. apply H.
  exists "l0", (NoteLink.mk "l0" "a" "a" follows 5 (DateObj 3500) None).
  split; [vm_compute; reflexivity|]. split; reflexivity.
Defined.

Lemma deleteNote_leaves_no_trace_witness :
  World.opened Session.selfLink = true /\
  keyed NoteLink.id (DB.links (World.idb Session.selfLink)) /\
  let w' := exec (deleteNote "a") Session.selfLink in
  fst (deleteNote "a" Session.selfLink) = Returned tt /\
  fst (PKMStorage.getNote "a" w') = Returned None /\
  findNote "a" (PKMStore.notes (World.store w')) = None /\
  fst (PKMStorage.getLinksForNote "a" w') = Returned [] /\
  Forall (fun l => NoteLink.sourceId l <> "a" /\ NoteLink.targetId l <> "a")
    (PKMStore.links (World.store w')).
Proof.
  assert (Hk : keyed NoteLink.id (DB.links (World.idb Session.selfLink))).
  { eapply mirrors_keyed. apply in_sync_selfLink. }
  split; [reflexivity|]. split; [exact Hk|].
  apply (deleteNote_leaves_no_trace Session.selfLink "a" eq_refl Hk).
Defined.

Lemma deleteLink_undoes_createLink_witness :
  World.opened Scenario.oneLink = true /\
  in_sync Scenario.oneLink /\
  DB.links (World.idb Scenario.oneLink) !! "l2" = None /\
  0 <= PKMStats.totalLinks (PKMStore.stats (World.store Scenario.oneLink)) /\
  let w1 := exec (createLink "b" "a" expands None "l2" 4000 4001 4002) Scenario.oneLink in
  let w2 := exec (deleteLink "l2" 4500 4501) w1 in
  fst (createLink "b" "a" expands None "l2" 4000 4001 4002 Scenario.oneLink) = Returned tt /\
  fst (deleteLink "l2" 4500 4501 w1) = Returned tt /\
  PKMStore.links (World.store w2) = PKMStore.links (World.store Scenario.oneLink) /\
  DB.links (World.idb w2) = DB.links (World.idb Scenario.oneLink) /\
  PKMStats.totalLinks (PKMStore.stats (World.store w2))
  = PKMStats.totalLinks (PKMStore.stats (World.store Scenario.oneLink)).
Proof.
  assert (Hpos : 0 <= PKMStats.totalLinks (PKMStore.stats (World.store Scenario.oneLink)))
    by (vm_compute; discriminate).
  split; [reflexivity|]. split; [exact in_sync_oneLink|]. split; [reflexivity|].
  split; [exact Hpos|].
  apply (deleteLink_undoes_createLink Scenario.oneLink "b" "a" expands None "l2"
           4000 4001 4002 4500 4501 eq_refl in_sync_oneLink eq_refl Hpos).
Defined.

Lemma updateNote_with_new_id_leaves_old_record_witness :
  World.opened Scenario.twoNotes = true /\
  in_sync Scenario.twoNotes /\
  findNote "a" (PKMStore.notes (World.store Scenario.twoNotes)) = Some Scenario.noteA /\
  PartialNote.id Session.newId = Some "c" /\
  "c" <> "a" /\
  let w' := exec (updateNote "a" Session.newId 7000) Scenario.twoNotes in
  fst (updateNote "a" Session.newId 7000 Scenario.twoNotes) = Returned tt /\
  DB.notes (World.idb w') !! "a" = Some Scenario.noteA /\
  DB.notes (World.idb w') !! "c" = Some (updatedNoteOf Scenario.noteA Session.newId 7000) /\
  findNote "a" (PKMStore.notes (World.store w')) = None /\
  ~ in_sync w'.
Proof.
  assert (Hf : findNote "a" (PKMStore.notes (World.store Scenario.twoNotes))
               = Some Scenario.noteA) by (vm_compute; reflexivity).
  assert (Hne : "c" <> "a") by discriminate.
  split; [reflexivity|]. split; [exact in_sync_twoNotes|]. split; [exact Hf|].
  split; [reflexivity|]. split; [exact Hne|].
  apply (updateNote_with_new_id_leaves_old_record Scenario.twoNotes "a" "c" Session.newId
           7000 Scenario.noteA eq_refl in_sync_twoNotes Hf eq_refl Hne).
Defined.

Lemma initializePKM_loads_the_database_witness :
  records_keyed (World.idb Scenario.twoNotes) /\
  let w' := exec (initializePKM true) Scenario.twoNotes in
  fst (initializePKM true Scenario.twoNotes) = Returned tt /\
  World.opened w' = true /\
  World.idb w' = World.idb Scenario.twoNotes /\
  in_sync w' /\
  PKMStore.stats (World.store w')
  = default defaultStats (DB.stats (World.idb Scenario.twoNotes)) /\
  PKMStore.settings (World.store w')
  = default defaultSettings (DB.settings (World.idb Scenario.twoNotes)).
Proof.
  split; [exact records_keyed_twoNotes|].
  apply (initializePKM_loads_the_database Scenario.twoNotes records_keyed_twoNotes).
Defined.


Lemma export_then_import_gives_json_image_witness :
  World.opened Scenario.twoNotes = true /\
  records_keyed (World.idb Scenario.twoNotes) /\
  numbers_finite (World.idb Scenario.twoNotes) /\
  World.opened Scenario.fresh = true /\
  exists doc,
    exportData 9000 Scenario.twoNotes = (Returned doc, Scenario.twoNotes) /\
    fst (importData doc true Scenario.fresh) = Returned tt /\
    World.idb (exec (importData doc true) Scenario.fresh)
    = jsonDB (World.idb Scenario.twoNotes) /\
    DB.notes (World.idb (exec (importData doc true) Scenario.fresh)) !! "a"
    = Some (Json.note Scenario.noteA).
Proof.
  split; [reflexivity|]. split; [exact records_keyed_twoNotes|].
  split; [exact numbers_finite_twoNotes|]. split; [reflexivity|].
  destruct (export_then_import_gives_json_image Scenario.twoNotes Scenario.fresh 9000
              eq_refl records_keyed_twoNotes numbers_finite_twoNotes eq_refl)
    as (doc & He & Hr & Hd & Hn).
  exists doc. split_and!; try assumption.
  apply (Hn "a" Scenario.noteA). vm_compute. reflexivity.
Defined.

Lemma second_round_trip_is_exact_witness :
  World.opened Scenario.twoNotes = true /\
  records_keyed (World.idb Scenario.twoNotes) /\
  numbers_finite (World.idb Scenario.twoNotes) /\
  World.opened Scenario.fresh = true /\
  World.opened Scenario.oneLink = true /\
  exists doc doc',
    exportData 9000 Scenario.twoNotes = (Returned doc, Scenario.twoNotes) /\
    fst (exportData 9500 (exec (importData doc true) Scenario.fresh)) = Returned doc' /\
    fst (importData doc' true Scenario.oneLink) = Returned tt /\
    World.idb (exec (importData doc' true) Scenario.oneLink)
    = World.idb (exec (importData doc true) Scenario.fresh).
Proof.
  split; [reflexivity|]. split; [exact records_keyed_twoNotes|].
  split; [exact numbers_finite_twoNotes|]. split; [reflexivity|]. split; [reflexivity|].
  apply (second_round_trip_is_exact Scenario.twoNotes Scenario.fresh Scenario.oneLink
           9000 9500 eq_refl records_keyed_twoNotes numbers_finite_twoNotes eq_refl eq_refl).
Defined.

Lemma nothing_is_due_after_a_restore_witness :
  World.opened Scenario.twoNotes = true /\
  records_keyed (World.idb Scenario.twoNotes) /\
  World.opened Scenario.fresh = true /\
  exists doc,
    exportData 9000 Scenario.twoNotes = (Returned doc, Scenario.twoNotes) /\
    fst (importData doc true Scenario.fresh) = Returned tt /\
    fst (getNotesDueForReview 4102444800000 (exec (importData doc true) Scenario.fresh))
    = Returned [].
Proof.
  split; [reflexivity|]. split; [exact records_keyed_twoNotes|]. split; [reflexivity|].
  apply (nothing_is_due_after_a_restore Scenario.twoNotes Scenario.fresh 9000
           4102444800000 eq_refl records_keyed_twoNotes eq_refl).
Defined.

Lemma correct_streak_counts_since_last_again_witness :
  World.opened Scenario.twoNotes = true /\
  findNote "a" (PKMStore.notes (World.store Scenario.twoNotes)) = Some Scenario.noteA /\
  exists n',
    findNote "a"
      (PKMStore.notes (World.store (reviewAll "a" Scenario.someCalls Scenario.twoNotes)))
    = Some n' /\
    ReviewData.reviewCount (Note.reviewData n') = 6 /\
    ReviewData.correctStreak (Note.reviewData n') = 2.
Proof.
  assert (Hf : findNote "a" (PKMStore.notes (World.store Scenario.twoNotes))
               = Some Scenario.noteA) by (vm_compute; reflexivity).
  split; [reflexivity|]. split; [exact Hf|].
  destruct (correct_streak_counts_since_last_again Scenario.twoNotes "a" Scenario.noteA
              Scenario.someCalls eq_refl Hf) as (n' & Hf' & Hc & _ & _ & Hs).
  exists n'. split; [exact Hf'|]. split; [exact Hc|].
  apply (Hs [ReviewCall.mk easy 5000 5001 "r1"; ReviewCall.mk easy 6000 6001 "r2";
             ReviewCall.mk hard 7000 7001 "r3"]
           (ReviewCall.mk again 8000 8001 "r4")
           [ReviewCall.mk good 9000 9001 "r5"; ReviewCall.mk hard 9500 9501 "r6"]);
    [reflexivity|reflexivity|].
  repeat constructor; discriminate.
Defined.

Lemma default_domain_reaches_new_notes_witness :
  World.opened Scenario.fresh = true /\
  DB.notes (World.idb Scenario.fresh) !! "a" = None /\
  PartialSettings.defaultDomain Session.scienceByDefault = Some science /\
  PartialNote.domain (Scenario.noteData "Atoms" "small") = None /\
  let w1 := exec (updateSettings Session.scienceByDefault) Scenario.fresh in
  let w2 := exec (createNote (Scenario.noteData "Atoms" "small") "a" 1000
                    Scenario.random0 Scenario.random0 "activity_1000") w1 in
  fst (updateSettings Session.scienceByDefault Scenario.fresh) = Returned tt /\
  DB.settings (World.idb w2)
  = Some (mergeSettings (PKMStore.settings (World.store Scenario.fresh))
            Session.scienceByDefault) /\
  exists n byDomain,
    DB.notes (World.idb w2) !! "a" = Some n /\
    Note.domain n = science /\
    fst (PKMStorage.getNotesByDomain science w2) = Returned byDomain /\
    n ∈ byDomain.
Proof.
  split; [reflexivity|]. split; [reflexivity|]. split; [reflexivity|].
  split; [reflexivity|].
  apply (default_domain_reaches_new_notes Scenario.fresh Session.scienceByDefault science
           (Scenario.noteData "Atoms" "small") "a" 1000 Scenario.random0 Scenario.random0
           "activity_1000" eq_refl eq_refl eq_refl eq_refl).
Defined.

Lemma new_note_is_due_one_day_later_witness :
  World.opened Scenario.fresh = true /\
  DB.notes (World.idb Scenario.fresh) !! "a" = None /\
  0 < 1700000000000 <= lastDayStart /\
  let w' := exec (createNote (Scenario.noteData "Atoms" "small") "a" 1700000000000
                    Scenario.random0 Scenario.random0 "activity_1") Scenario.fresh in
  exists n due,
    DB.notes (World.idb w') !! "a" = Some n /\
    ReviewData.nextReview (Note.reviewData n) = DateObj (1700000000000 + msPerDay) /\
    getNotesDueForReview 1700086399999 w' = (Returned due, w') /\
    (n ∈ due <-> 1700000000000 + msPerDay <= 1700086399999).
Proof.
  assert (Hnow : 0 < 1700000000000 <= lastDayStart) by (unfold lastDayStart, msPerDay; lia).
  split; [reflexivity|]. split; [reflexivity|]. split; [exact Hnow|].
  apply (new_note_is_due_one_day_later Scenario.fresh (Scenario.noteData "Atoms" "small")
           "a" 1700000000000 Scenario.random0 Scenario.random0 "activity_1" 1700086399999
           eq_refl eq_refl Hnow).
Defined.

Lemma note_graded_again_is_due_one_day_later_witness :
  World.opened Scenario.twoNotes = true /\
  findNote "a" (PKMStore.notes (World.store Scenario.twoNotes)) = Some Scenario.noteA /\
  0 < 1700000000000 <= lastDayStart /\
  exists n' due,
    fst (NotesOverlay.handleReviewNote "a" again 1700000000000 1700000000001 "r1"
           1700086400000 Scenario.twoNotes)
    = Returned due /\
    findNote "a"
      (PKMStore.notes
         (World.store
            (exec (reviewNote "a" again 1700000000000 1700000000001 "r1") Scenario.twoNotes)))
    = Some n' /\
    ReviewData.interval (Note.reviewData n') = Js.of_Z 1 /\
    ReviewData.correctStreak (Note.reviewData n') = 0 /\
    ReviewData.status (Note.reviewData n') = st_learning /\
    ReviewData.nextReview (Note.reviewData n') = DateObj (1700000000000 + msPerDay) /\
    (n' ∈ due <-> 1700000000000 + msPerDay <= 1700086400000).
Proof.
  assert (Hf : findNote "a" (PKMStore.notes (World.store Scenario.twoNotes))
               = Some Scenario.noteA) by (vm_compute; reflexivity).
  assert (Hnow : 0 < 1700000000000 <= lastDayStart) by (unfold lastDayStart, msPerDay; lia).
  split; [reflexivity|]. split; [exact Hf|]. split; [exact Hnow|].
  apply (note_graded_again_is_due_one_day_later Scenario.twoNotes "a" Scenario.noteA
           1700000000000 1700000000001 "r1" 1700086400000 eq_refl Hf Hnow).
Defined.

